(** * emceepee: codemode search and the backend server registry

    A shallow embedding of [src/codemode/search.ts] and of the
    [ServerRegistry] class, together with a model of the capability
    API accounting protocol.

    Conventions.
    - A JavaScript string is modelled by the [string] of the bytes of
      its UTF-8 encoding.
    - A JavaScript [Map] is an insertion-ordered association list
      ([JsMap]); iteration order is observable in fan-out results.
    - Code that may throw lives in the state-and-exception monad [M]:
      the state carries what the code mutates, and a [Throw] completion
      is a JavaScript exception.
    - The built-ins of the host that the code calls, [RegExp] and
      [String.prototype.toLowerCase], are an interface
      ([RegExpEngine]).  A reference engine ([Ecma]) instantiates it: it
      reads a fragment of the pattern syntax of ECMAScript and folds the
      case of ASCII strings, and leaves everything else to a
      parameter. *)

From Stdlib Require Import List String Ascii Bool Arith NArith ZArith Lia DecimalString.
From Stdlib Require Import Sorted Permutation OrdersEx RelationClasses.
Import ListNotations.
Open Scope string_scope.
Open Scope list_scope.

Set Implicit Arguments.

(* ================================================================== *)
(** * Completions and the state-and-exception monad                    *)
(* ================================================================== *)

(** [new Error(message)]. *)
Inductive JsError : Type :=
| Error (message : string).

Definition message (e : JsError) : string :=
  match e with Error m => m end.

(** How a call ends: with a value, or with a thrown error (for an
    [async] function: a fulfilled or a rejected promise). *)
Inductive Completion (A : Type) : Type :=
| Normal (a : A)
| Throw (e : JsError).

Arguments Normal {A} a.
Arguments Throw {A} e.

Definition M (S A : Type) : Type := S -> Completion A * S.

Definition ret {S A : Type} (a : A) : M S A := fun s => (Normal a, s).

Definition throw {S A : Type} (e : JsError) : M S A := fun s => (Throw e, s).

Definition bind {S A B : Type} (m : M S A) (k : A -> M S B) : M S B :=
  fun s =>
    match m s with
    | (Normal a, s') => k a s'
    | (Throw e, s') => (Throw e, s')
    end.

(** [try { m } catch (e) { h e }]. *)
Definition try_catch {S A : Type} (m : M S A) (h : JsError -> M S A) : M S A :=
  fun s =>
    match m s with
    | (Normal a, s') => (Normal a, s')
    | (Throw e, s') => h e s'
    end.

Definition gets {S A : Type} (f : S -> A) : M S A := fun s => (Normal (f s), s).

Definition modify {S : Type} (f : S -> S) : M S unit := fun s => (Normal tt, f s).

Declare Scope js_scope.
Delimit Scope js_scope with js.
Notation "x <- m ;; k" := (bind m (fun x => k))
  (at level 61, m at next level, right associativity) : js_scope.
Notation "m ;;; k" := (bind m (fun _ => k))
  (at level 61, right associativity) : js_scope.
Open Scope js_scope.

(** [for (const x of xs) { acc = body x acc }]: a loop that threads the
    array it pushes to; an exception leaves the loop. *)
Fixpoint for_of {S A B : Type} (xs : list A) (body : A -> B -> M S B) (acc : B)
  : M S B :=
  match xs with
  | [] => ret acc
  | x :: xs' => acc' <- body x acc ;; for_of xs' body acc'
  end.

(* ================================================================== *)
(** * Strings                                                          *)
(* ================================================================== *)

Definition string_of_nat (n : nat) : string :=
  NilZero.string_of_uint (Nat.to_uint n).

Definition string_of_N (n : N) : string :=
  NilZero.string_of_uint (N.to_uint n).

Definition ascii_toLowerCase (c : ascii) : ascii :=
  let n := nat_of_ascii c in
  if ((65 <=? n) && (n <=? 90))%nat then ascii_of_nat (n + 32) else c.

(** The fold of the letters [A] to [Z]: what [s.toLowerCase()] does to
    a string of ASCII characters. *)
Fixpoint asciiLowerCase (s : string) : string :=
  match s with
  | EmptyString => EmptyString
  | String c s' => String (ascii_toLowerCase c) (asciiLowerCase s')
  end.

Definition is_ascii_character (c : ascii) : bool := (N_of_ascii c <? 128)%N.

(** A string of ASCII characters. *)
Fixpoint is_ascii (s : string) : bool :=
  match s with
  | EmptyString => true
  | String c s' => is_ascii_character c && is_ascii s'
  end.

(** [text.startsWith(needle)]. *)
Fixpoint startsWith (needle text : string) : bool :=
  match needle, text with
  | EmptyString, _ => true
  | String _ _, EmptyString => false
  | String a needle', String b text' => Ascii.eqb a b && startsWith needle' text'
  end.

(** [haystack.includes(needle)]. *)
Fixpoint includes (needle haystack : string) : bool :=
  startsWith needle haystack
  || match haystack with
     | EmptyString => false
     | String _ h' => includes needle h'
     end.

(* ================================================================== *)
(** * JavaScript [Map] with string keys                                *)
(* ================================================================== *)

Module JsMap.
Section Defs.
Context {V : Type}.

Definition t : Type := list (string * V).

Definition empty : t := [].

Fixpoint get (k : string) (m : t) : option V :=
  match m with
  | [] => None
  | (k', v) :: m' => if String.eqb k' k then Some v else get k m'
  end.

Definition has (k : string) (m : t) : bool :=
  match get k m with Some _ => true | None => false end.

(** [m.set(k, v)]: an existing key keeps its place, a new one goes last. *)
Fixpoint set (k : string) (v : V) (m : t) : t :=
  match m with
  | [] => [(k, v)]
  | (k', v') :: m' =>
      if String.eqb k' k then (k, v) :: m' else (k', v') :: set k v m'
  end.

Definition delete (k : string) (m : t) : t :=
  filter (fun e => negb (String.eqb (fst e) k)) m.

Definition keys (m : t) : list string := map fst m.
Definition values (m : t) : list V := map snd m.
Definition size (m : t) : nat := List.length m.

(** The invariant of a [Map]: no key twice. *)
Definition wf (m : t) : Prop := NoDup (keys m).
End Defs.
Arguments t V : clear implicits.
End JsMap.

(* ================================================================== *)
(** * The built-ins of the host                                        *)
(* ================================================================== *)

(** [new RegExp(source, "i")], [regex.test(text)] and [s.toLowerCase()].
    The constructor throws a [SyntaxError] on a source it cannot compile
    ([None]).  A regex without the [g] and [y] flags keeps no state
    between tests.  The empty source compiles to [/(?:)/i], which
    matches every text.  On a string of ASCII characters [toLowerCase]
    folds the letters [A] to [Z]; what it does to other strings is left
    open here. *)
Class RegExpEngine : Type := {
  RegExp : Type;
  newRegExp_i : string -> option RegExp;
  test : RegExp -> string -> bool;
  toLowerCase : string -> string;
  empty_source :
    exists r, newRegExp_i EmptyString = Some r /\ forall s, test r s = true;
  toLowerCase_ascii :
    forall s, is_ascii s = true -> toLowerCase s = asciiLowerCase s
}.

(** The characters of [/[.*+?^${}()|[\]\\]/]. *)
Definition syntax_characters : list ascii :=
  [".";"*";"+";"?";"^";"$";"{";"}";"(";")";"|";"[";"]";"\"]%char.

Definition is_syntax_character (c : ascii) : bool :=
  existsb (Ascii.eqb c) syntax_characters.

(** [query.replace(/[.*+?^${}()|[\]\\]/g, "\\$&")]. *)
Fixpoint escapeRegExp (s : string) : string :=
  match s with
  | EmptyString => EmptyString
  | String c s' =>
      if is_syntax_character c
      then String "\" (String c (escapeRegExp s'))
      else String c (escapeRegExp s')
  end.

(** ** A reference engine

    The engine reads the sources of ASCII characters built from pattern
    characters, [.], [^], [$], [|], groups [( )] and [(?: )], the
    quantifiers [*], [+], [?] and their lazy forms, and identity escapes
    of syntax characters and of [/], following the grammar of
    ECMAScript (ECMA-262, 22.2.1 and B.1.2, without the [u] flag).  On
    these it reports a [SyntaxError] where the grammar has no
    derivation, and otherwise tests as the specification says: a match
    may start at any code unit of the text, [.] takes any code unit but
    a line terminator, [^] and [$] hold at the two ends of the text, and
    with the [i] flag an ASCII letter matches its two cases and nothing
    else.

    Every other source (character classes, braced quantifiers, other
    escapes and groups, characters beyond ASCII) and the lower-casing
    of strings beyond ASCII are not modelled: there the engine answers
    what its parameter [outside] answers, so that what is proved of the
    engine holds whatever the host does there. *)
Module Ecma.

(** *** Strings as sequences of UTF-16 code units

    The text is decoded from UTF-8; a character beyond the basic plane
    is a surrogate pair.  A byte that is not part of a well-formed
    sequence, which no JavaScript string encodes to, becomes U+FFFD. *)

Definition CodeUnit : Type := N.

Definition replacement : CodeUnit := 65533%N.

Definition continuation (c : ascii) : option N :=
  let n := N_of_ascii c in
  if ((128 <=? n) && (n <? 192))%N then Some (n - 128)%N else None.

Definition two_bytes (b0 b1 : N) : option (list CodeUnit) :=
  let cp := ((b0 - 192) * 64 + b1)%N in
  if (128 <=? cp)%N then Some [cp] else None.

Definition three_bytes (b0 b1 b2 : N) : option (list CodeUnit) :=
  let cp := (((b0 - 224) * 64 + b1) * 64 + b2)%N in
  if ((2048 <=? cp) && negb ((55296 <=? cp) && (cp <? 57344)))%N
  then Some [cp] else None.

Definition four_bytes (b0 b1 b2 b3 : N) : option (list CodeUnit) :=
  let cp := ((((b0 - 240) * 64 + b1) * 64 + b2) * 64 + b3)%N in
  if ((65536 <=? cp) && (cp <? 1114112))%N
  then Some [(55296 + (cp - 65536) / 1024)%N; (56320 + (cp - 65536) mod 1024)%N]
  else None.

Fixpoint codeUnits (s : string) : list CodeUnit :=
  match s with
  | EmptyString => []
  | String c0 s1 =>
      let b0 := N_of_ascii c0 in
      if (b0 <? 128)%N then b0 :: codeUnits s1
      else
        match s1 with
        | String c1 s2 =>
            match continuation c1 with
            | Some b1 =>
                if (b0 <? 224)%N then
                  match two_bytes b0 b1 with
                  | Some us => us ++ codeUnits s2
                  | None => replacement :: codeUnits s1
                  end
                else
                  match s2 with
                  | String c2 s3 =>
                      match continuation c2 with
                      | Some b2 =>
                          if (b0 <? 240)%N then
                            match three_bytes b0 b1 b2 with
                            | Some us => us ++ codeUnits s3
                            | None => replacement :: codeUnits s1
                            end
                          else
                            match s3 with
                            | String c3 s4 =>
                                match continuation c3 with
                                | Some b3 =>
                                    match four_bytes b0 b1 b2 b3 with
                                    | Some us => us ++ codeUnits s4
                                    | None => replacement :: codeUnits s1
                                    end
                                | None => replacement :: codeUnits s1
                                end
                            | EmptyString => replacement :: codeUnits s1
                            end
                      | None => replacement :: codeUnits s1
                      end
                  | EmptyString => replacement :: codeUnits s1
                  end
            | None => replacement :: codeUnits s1
            end
        | EmptyString => [replacement]
        end
  end.

(** *** Patterns *)

(** [SyntaxCharacter :: one of ^ $ \ . * + ? ( ) [ ] { } |]. *)
Definition SyntaxCharacter (c : ascii) : bool :=
  match N_of_ascii c with
  | 94 | 36 | 92 | 46 | 42 | 43 | 63 | 40 | 41 | 91 | 93 | 123 | 125 | 124 => true
  | _ => false
  end%N.

(** A group is its disjunction: [test] does not report captures. *)
Inductive regex : Type :=
| Empty
| Char (c : ascii)
| AnyChar
| AtStart
| AtEnd
| Seq (r1 r2 : regex)
| Alt (r1 r2 : regex)
| Star (r : regex).

Definition Plus (r : regex) : regex := Seq r (Star r).
Definition Opt (r : regex) : regex := Alt r Empty.

(** [Canonicalize] with the [i] flag, on the code units it can send to
    an ASCII letter. *)
Definition fold_unit (u : CodeUnit) : CodeUnit :=
  if ((65 <=? u) && (u <=? 90))%N then (u + 32)%N else u.

Definition char_matches (c : ascii) (u : CodeUnit) : bool :=
  (fold_unit (N_of_ascii c) =? fold_unit u)%N.

(** [LineTerminator]: LF, CR, LS and PS. *)
Definition is_line_terminator (u : CodeUnit) : bool :=
  ((u =? 10) || (u =? 13) || (u =? 8232) || (u =? 8233))%N.

(** The matcher, with its continuation: [at_start] tells whether the
    position is the start of the text.  An iteration of [*] that takes
    nothing is not repeated. *)
Fixpoint run (r : regex) (at_start : bool) (s : list CodeUnit)
    (k : bool -> list CodeUnit -> bool) {struct r} : bool :=
  match r with
  | Empty => k at_start s
  | Char c =>
      match s with
      | u :: s' => char_matches c u && k false s'
      | [] => false
      end
  | AnyChar =>
      match s with
      | u :: s' => negb (is_line_terminator u) && k false s'
      | [] => false
      end
  | AtStart => at_start && k at_start s
  | AtEnd => match s with [] => k at_start s | _ :: _ => false end
  | Seq r1 r2 => run r1 at_start s (fun b s' => run r2 b s' k)
  | Alt r1 r2 => run r1 at_start s k || run r2 at_start s k
  | Star r' =>
      (fix star (fuel : nat) (b : bool) (s : list CodeUnit) {struct fuel} : bool :=
         k b s
         || match fuel with
            | O => false
            | S fuel' =>
                run r' b s
                  (fun b' s' =>
                     (List.length s' <? List.length s)%nat && star fuel' b' s')
            end) (List.length s) at_start s
  end.

Definition accept (_ : bool) (_ : list CodeUnit) : bool := true.

(** Is there a match that starts after the first code unit? *)
Fixpoint scan (r : regex) (s : list CodeUnit) : bool :=
  match s with
  | [] => false
  | _ :: s' => run r false s' accept || scan r s'
  end.

(** [regex.test(text)]: is there a match anywhere in the text? *)
Definition find (r : regex) (text : string) : bool :=
  let s := codeUnits text in
  run r true s accept || scan r s.

(** *** The parser *)

Inductive Parsed : Type :=
| Pattern (r : regex)
| SyntaxError
| Unsupported.

(** What the last term of the alternative being read allows next. *)
Inductive Last : Type :=
| NoTerm      (* the alternative is empty: nothing to repeat *)
| Atom        (* an atom, which a quantifier may follow *)
| Greedy      (* a quantified atom, which [?] may make lazy *)
| Closed.     (* an assertion or a lazy quantifier: nothing to repeat *)

(** A disjunction being read: the alternatives before the last [|] and
    the terms of the current one, the latest first. *)
Record Frame : Type := {
  finished : list regex;
  terms : list regex;
  last : Last
}.

Definition start_frame : Frame :=
  {| finished := []; terms := []; last := NoTerm |}.

Definition push (r : regex) (kind : Last) (f : Frame) : Frame :=
  {| finished := finished f; terms := r :: terms f; last := kind |}.

Definition seq_of (rs : list regex) : regex := fold_right Seq Empty rs.

Definition alternative (f : Frame) : regex := seq_of (rev (terms f)).

Definition next_alternative (f : Frame) : Frame :=
  {| finished := alternative f :: finished f; terms := []; last := NoTerm |}.

Definition close (f : Frame) : regex :=
  fold_left (fun later earlier => Alt earlier later) (finished f) (alternative f).

Definition quantify (q : regex -> regex) (f : Frame) : option Frame :=
  match last f, terms f with
  | Atom, r :: rest =>
      Some {| finished := finished f; terms := q r :: rest; last := Greedy |}
  | _, _ => None
  end.

Definition question (f : Frame) : option Frame :=
  match last f with
  | Greedy => Some {| finished := finished f; terms := terms f; last := Closed |}
  | _ => quantify Opt f
  end.

Definition is_digit (c : ascii) : bool :=
  ((48 <=? N_of_ascii c) && (N_of_ascii c <=? 57))%N.

(** One pass over the source, with the enclosing disjunctions on
    [stack].  Outside the [u] mode [}] and [\]] are pattern characters,
    and so is a [{] that does not open a braced quantifier. *)
Fixpoint parse_from (stack : list Frame) (cur : Frame) (s : string) {struct s}
  : Parsed :=
  match s with
  | EmptyString =>
      match stack with
      | [] => Pattern (close cur)
      | _ :: _ => SyntaxError                 (* unterminated group *)
      end
  | String c rest =>
      if Ascii.eqb c "\" then
        match rest with
        | EmptyString => SyntaxError          (* \ at end of pattern *)
        | String d rest2 =>
            if SyntaxCharacter d || Ascii.eqb d "/"
            then parse_from stack (push (Char d) Atom cur) rest2
            else Unsupported
        end
      else if Ascii.eqb c "(" then
        match rest with
        | String "?" (String ":" rest2) => parse_from (cur :: stack) start_frame rest2
        | String "?" _ => Unsupported
        | _ => parse_from (cur :: stack) start_frame rest
        end
      else if Ascii.eqb c ")" then
        match stack with
        | [] => SyntaxError                   (* unmatched ) *)
        | parent :: stack' => parse_from stack' (push (close cur) Atom parent) rest
        end
      else if Ascii.eqb c "|" then parse_from stack (next_alternative cur) rest
      else if Ascii.eqb c "*" then
        match quantify Star cur with
        | Some f => parse_from stack f rest
        | None => SyntaxError                 (* nothing to repeat *)
        end
      else if Ascii.eqb c "+" then
        match quantify Plus cur with
        | Some f => parse_from stack f rest
        | None => SyntaxError
        end
      else if Ascii.eqb c "?" then
        match question cur with
        | Some f => parse_from stack f rest
        | None => SyntaxError
        end
      else if Ascii.eqb c "." then parse_from stack (push AnyChar Atom cur) rest
      else if Ascii.eqb c "^" then parse_from stack (push AtStart Closed cur) rest
      else if Ascii.eqb c "$" then parse_from stack (push AtEnd Closed cur) rest
      else if Ascii.eqb c "[" then Unsupported
      else if Ascii.eqb c "{" then
        match rest with
        | String d _ =>
            if is_digit d then Unsupported
            else parse_from stack (push (Char c) Atom cur) rest
        | EmptyString => parse_from stack (push (Char c) Atom cur) rest
        end
      else parse_from stack (push (Char c) Atom cur) rest
  end.

Definition parse (source : string) : Parsed :=
  if is_ascii source then parse_from [] start_frame source else Unsupported.

(** *** The engine *)

(** What the host does where the engine does not reach: the regex of a
    source the parser does not support, given by its [test], and the
    lower-casing of a string that is not ASCII. *)
Record Outside : Type := {
  outside_RegExp : string -> option (string -> bool);
  outside_toLowerCase : string -> string
}.

Inductive Compiled : Type :=
| Native (r : regex)
| Foreign (matches : string -> bool).

Definition compile (outside : Outside) (source : string) : option Compiled :=
  match parse source with
  | Pattern r => Some (Native r)
  | SyntaxError => None
  | Unsupported => option_map Foreign (outside_RegExp outside source)
  end.

Definition exec (c : Compiled) (text : string) : bool :=
  match c with
  | Native r => find r text
  | Foreign matches => matches text
  end.

Definition lower (outside : Outside) (s : string) : string :=
  if is_ascii s then asciiLowerCase s else outside_toLowerCase outside s.

Definition engine (outside : Outside) : RegExpEngine :=
  {| RegExp := Compiled;
     newRegExp_i := compile outside;
     test := exec;
     toLowerCase := lower outside;
     empty_source :=
       ex_intro _ (Native Empty)
         (conj (eq_refl : compile outside EmptyString = Some (Native Empty))
               (fun s => eq_refl : exec (Native Empty) s = true));
     toLowerCase_ascii :=
       fun s (H : is_ascii s = true) =>
         match eq_sym H in (_ = b)
               return ((if b then asciiLowerCase s
                        else outside_toLowerCase outside s)
                       = asciiLowerCase s)
         with
         | eq_refl => eq_refl
         end |}.

(** A parameter for the runs that stay inside the fragment, where its
    answers are never asked for. *)
Definition nothing_outside : Outside :=
  {| outside_RegExp := fun _ => None; outside_toLowerCase := fun s => s |}.

End Ecma.

(* ================================================================== *)
(** * Query matching ([search.ts])                                     *)
(* ================================================================== *)

Section QueryMatching.
Context {E : RegExpEngine}.

(** [createQueryRegex]: [null] is [None]. *)
Definition createQueryRegex (query : string) : option RegExp :=
  match newRegExp_i query with
  | Some r => Some r
  | None =>
      let escaped := escapeRegExp query in
      match newRegExp_i escaped with
      | Some r => Some r
      | None => None
      end
  end.

(** [matchesQuery]: [!text] holds for [undefined] and for the empty
    string. *)
Definition matchesQuery (text : option string) (regex : RegExp) : bool :=
  match text with
  | None => false
  | Some EmptyString => false
  | Some t => test regex t
  end.

(** [matchesServerFilter]. *)
Definition matchesServerFilter (serverName : string)
    (serverPattern : option string) : bool :=
  match serverPattern with
  | None => true
  | Some EmptyString => true
  | Some p =>
      match newRegExp_i p with
      | Some regex => test regex serverName
      | None => String.eqb (toLowerCase serverName) (toLowerCase p)
      end
  end.
End QueryMatching.

(* ================================================================== *)
(** * Backends and their clients                                       *)
(* ================================================================== *)

(** A JSON value, kept in serialised form. *)
Definition Json : Type := string.

Inductive ConnectionStatus : Type :=
| Connected
| Disconnected
| Reconnecting
| ErrorStatus.   (* the status string "error" *)

Definition status_eqb (a b : ConnectionStatus) : bool :=
  match a, b with
  | Connected, Connected
  | Disconnected, Disconnected
  | Reconnecting, Reconnecting
  | ErrorStatus, ErrorStatus => true
  | _, _ => false
  end.

Record Tool : Type := {
  tool_name : string;
  tool_description : option string;
  tool_inputSchema : Json
}.

Record Resource : Type := {
  resource_uri : string;
  resource_name : string;
  resource_description : option string;
  resource_mimeType : option string
}.

Record ResourceTemplate : Type := {
  template_uriTemplate : string;
  template_name : string;
  template_description : option string;
  template_mimeType : option string
}.

Record PromptArgument : Type := {
  arg_name : string;
  arg_description : option string;
  arg_required : option bool
}.

Record Prompt : Type := {
  prompt_name : string;
  prompt_description : option string;
  prompt_arguments : option (list PromptArgument)
}.

Record ServerCapabilities : Type := {
  cap_tools : option bool;
  cap_resources : option bool;
  cap_prompts : option bool
}.

(** What the remote endpoint answers to each request of its client.
    The answers are those in force during the operation under study. *)
Record Backend : Type := {
  on_connect : Completion (option ServerCapabilities);
  on_disconnect : Completion unit;
  on_listTools : Completion (list Tool);
  on_listResources : Completion (list Resource);
  on_listResourceTemplates : Completion (list ResourceTemplate);
  on_listPrompts : Completion (list Prompt);
  on_callTool : string -> Json -> Completion Json;
  on_readResource : string -> Completion Json;
  on_getPrompt : string -> Json -> Completion Json
}.

(** A request put on the wire to a backend. *)
Inductive Request : Type :=
| ReqConnect
| ReqDisconnect
| ReqListTools
| ReqListResources
| ReqListResourceTemplates
| ReqListPrompts
| ReqCallTool (tool : string) (args : Json)
| ReqReadResource (uri : string)
| ReqGetPrompt (name : string) (args : Json).

(** The server a request went to, and the request. *)
Definition Contact : Type := (string * Request)%type.

(** Modelled from the spec: the backend client handle ([client.js] is
    absent): a named handle with a status in connected, disconnected,
    reconnecting, error, the capabilities its server announced, and the
    endpoint it talks to. *)
Record MCPHttpClient : Type := {
  client_name : string;
  client_url : string;
  client_status : ConnectionStatus;
  client_capabilities : option ServerCapabilities;
  client_backend : Backend
}.

Record BackendServerInfo : Type := {
  info_name : string;
  info_url : string;
  info_status : ConnectionStatus;
  info_capabilities : option ServerCapabilities
}.

Definition isConnected (c : MCPHttpClient) : bool :=
  status_eqb (client_status c) Connected.

Definition getInfo (c : MCPHttpClient) : BackendServerInfo :=
  {| info_name := client_name c;
     info_url := client_url c;
     info_status := client_status c;
     info_capabilities := client_capabilities c |}.

(** A state on which backend traffic is recorded. *)
Class Wired (S : Type) : Type := {
  send : Contact -> S -> S
}.

Section ClientRequests.
Context {S : Type} `{Wired S}.

(** A request of client [c]: it goes on the wire and ends the way the
    endpoint answers. *)
Definition request {A : Type} (c : MCPHttpClient) (req : Request)
    (answer : Completion A) : M S A :=
  fun s => (answer, send (client_name c, req) s).

Definition client_listTools (c : MCPHttpClient) : M S (list Tool) :=
  request c ReqListTools (on_listTools (client_backend c)).

Definition client_listResources (c : MCPHttpClient) : M S (list Resource) :=
  request c ReqListResources (on_listResources (client_backend c)).

Definition client_listResourceTemplates (c : MCPHttpClient)
  : M S (list ResourceTemplate) :=
  request c ReqListResourceTemplates (on_listResourceTemplates (client_backend c)).

Definition client_listPrompts (c : MCPHttpClient) : M S (list Prompt) :=
  request c ReqListPrompts (on_listPrompts (client_backend c)).

Definition client_callTool (c : MCPHttpClient) (tool : string) (args : Json)
  : M S Json :=
  request c (ReqCallTool tool args) (on_callTool (client_backend c) tool args).

Definition client_readResource (c : MCPHttpClient) (uri : string) : M S Json :=
  request c (ReqReadResource uri) (on_readResource (client_backend c) uri).

Definition client_getPrompt (c : MCPHttpClient) (name : string) (args : Json)
  : M S Json :=
  request c (ReqGetPrompt name args) (on_getPrompt (client_backend c) name args).
End ClientRequests.

(* ================================================================== *)
(** * The backend server registry ([ServerRegistry])                   *)
(* ================================================================== *)

Module Registry.

Definition BufferedNotification : Type := Json.
Definition BufferedLog : Type := Json.

Inductive RequestKind : Type :=
| Sampling
| Elicitation.

(** A pending sampling or elicitation request.  Its [resolve] and
    [reject] callbacks are modelled by the [settled] trace below. *)
Record PendingRequest : Type := {
  req_id : string;
  req_server : string;
  req_timestamp : nat;
  req_params : Json
}.

(** A call of [request.resolve(result)] or [request.reject(reason)]. *)
Inductive Settlement : Type :=
| Resolved (kind : RequestKind) (id : string) (result : Json)
| Rejected (kind : RequestKind) (id : string) (reason : JsError).

Record BackendServerConfig : Type := {
  config_name : string;
  config_url : string
}.

Record ServerRegistry : Type := {
  (* the private fields of the class *)
  clients : JsMap.t MCPHttpClient;
  notifications : list BufferedNotification;
  logs : list BufferedLog;
  pendingSamplingRequests : JsMap.t PendingRequest;
  pendingElicitationRequests : JsMap.t PendingRequest;
  onServerStatusChange : bool;      (* is the callback defined? *)
  requestTimeoutMs : N;
  (* what the registry does to the outside *)
  wire : list Contact;                              (* backend traffic *)
  settled : list Settlement;                        (* resolve / reject calls *)
  statusChanges : list (string * BackendServerInfo); (* callback calls *)
  console : list string                             (* console.error lines *)
}.

Definition with_clients (f : JsMap.t MCPHttpClient -> JsMap.t MCPHttpClient)
    (r : ServerRegistry) : ServerRegistry :=
  {| clients := f (clients r);
     notifications := notifications r;
     logs := logs r;
     pendingSamplingRequests := pendingSamplingRequests r;
     pendingElicitationRequests := pendingElicitationRequests r;
     onServerStatusChange := onServerStatusChange r;
     requestTimeoutMs := requestTimeoutMs r;
     wire := wire r;
     settled := settled r;
     statusChanges := statusChanges r;
     console := console r |}.

Definition with_notifications
    (f : list BufferedNotification -> list BufferedNotification)
    (r : ServerRegistry) : ServerRegistry :=
  {| clients := clients r;
     notifications := f (notifications r);
     logs := logs r;
     pendingSamplingRequests := pendingSamplingRequests r;
     pendingElicitationRequests := pendingElicitationRequests r;
     onServerStatusChange := onServerStatusChange r;
     requestTimeoutMs := requestTimeoutMs r;
     wire := wire r;
     settled := settled r;
     statusChanges := statusChanges r;
     console := console r |}.

Definition with_logs (f : list BufferedLog -> list BufferedLog)
    (r : ServerRegistry) : ServerRegistry :=
  {| clients := clients r;
     notifications := notifications r;
     logs := f (logs r);
     pendingSamplingRequests := pendingSamplingRequests r;
     pendingElicitationRequests := pendingElicitationRequests r;
     onServerStatusChange := onServerStatusChange r;
     requestTimeoutMs := requestTimeoutMs r;
     wire := wire r;
     settled := settled r;
     statusChanges := statusChanges r;
     console := console r |}.

Definition with_pendingSampling
    (f : JsMap.t PendingRequest -> JsMap.t PendingRequest)
    (r : ServerRegistry) : ServerRegistry :=
  {| clients := clients r;
     notifications := notifications r;
     logs := logs r;
     pendingSamplingRequests := f (pendingSamplingRequests r);
     pendingElicitationRequests := pendingElicitationRequests r;
     onServerStatusChange := onServerStatusChange r;
     requestTimeoutMs := requestTimeoutMs r;
     wire := wire r;
     settled := settled r;
     statusChanges := statusChanges r;
     console := console r |}.

Definition with_pendingElicitation
    (f : JsMap.t PendingRequest -> JsMap.t PendingRequest)
    (r : ServerRegistry) : ServerRegistry :=
  {| clients := clients r;
     notifications := notifications r;
     logs := logs r;
     pendingSamplingRequests := pendingSamplingRequests r;
     pendingElicitationRequests := f (pendingElicitationRequests r);
     onServerStatusChange := onServerStatusChange r;
     requestTimeoutMs := requestTimeoutMs r;
     wire := wire r;
     settled := settled r;
     statusChanges := statusChanges r;
     console := console r |}.

Definition with_wire (f : list Contact -> list Contact)
    (r : ServerRegistry) : ServerRegistry :=
  {| clients := clients r;
     notifications := notifications r;
     logs := logs r;
     pendingSamplingRequests := pendingSamplingRequests r;
     pendingElicitationRequests := pendingElicitationRequests r;
     onServerStatusChange := onServerStatusChange r;
     requestTimeoutMs := requestTimeoutMs r;
     wire := f (wire r);
     settled := settled r;
     statusChanges := statusChanges r;
     console := console r |}.

Definition with_settled (f : list Settlement -> list Settlement)
    (r : ServerRegistry) : ServerRegistry :=
  {| clients := clients r;
     notifications := notifications r;
     logs := logs r;
     pendingSamplingRequests := pendingSamplingRequests r;
     pendingElicitationRequests := pendingElicitationRequests r;
     onServerStatusChange := onServerStatusChange r;
     requestTimeoutMs := requestTimeoutMs r;
     wire := wire r;
     settled := f (settled r);
     statusChanges := statusChanges r;
     console := console r |}.

Definition with_statusChanges
    (f : list (string * BackendServerInfo) -> list (string * BackendServerInfo))
    (r : ServerRegistry) : ServerRegistry :=
  {| clients := clients r;
     notifications := notifications r;
     logs := logs r;
     pendingSamplingRequests := pendingSamplingRequests r;
     pendingElicitationRequests := pendingElicitationRequests r;
     onServerStatusChange := onServerStatusChange r;
     requestTimeoutMs := requestTimeoutMs r;
     wire := wire r;
     settled := settled r;
     statusChanges := f (statusChanges r);
     console := console r |}.

Definition with_console (f : list string -> list string)
    (r : ServerRegistry) : ServerRegistry :=
  {| clients := clients r;
     notifications := notifications r;
     logs := logs r;
     pendingSamplingRequests := pendingSamplingRequests r;
     pendingElicitationRequests := pendingElicitationRequests r;
     onServerStatusChange := onServerStatusChange r;
     requestTimeoutMs := requestTimeoutMs r;
     wire := wire r;
     settled := settled r;
     statusChanges := statusChanges r;
     console := f (console r) |}.

#[export] Instance registry_wired : Wired ServerRegistry :=
  {| send := fun c => with_wire (fun w => w ++ [c]) |}.

(** [new ServerRegistry(options)]; the request timeout defaults to five
    minutes. *)
Definition new_ServerRegistry (callback : bool) (timeoutMs : option N)
  : ServerRegistry :=
  {| clients := JsMap.empty;
     notifications := [];
     logs := [];
     pendingSamplingRequests := JsMap.empty;
     pendingElicitationRequests := JsMap.empty;
     onServerStatusChange := callback;
     requestTimeoutMs := match timeoutMs with Some t => t | None => 300000%N end;
     wire := [];
     settled := [];
     statusChanges := [];
     console := [] |}.

Definition set_status (st : ConnectionStatus) (c : MCPHttpClient) : MCPHttpClient :=
  {| client_name := client_name c;
     client_url := client_url c;
     client_status := st;
     client_capabilities := client_capabilities c;
     client_backend := client_backend c |}.

Definition set_capabilities (caps : option ServerCapabilities) (c : MCPHttpClient)
  : MCPHttpClient :=
  {| client_name := client_name c;
     client_url := client_url c;
     client_status := client_status c;
     client_capabilities := caps;
     client_backend := client_backend c |}.

(** Modelled from the spec: [new MCPHttpClient(...)] ([client.js] is
    absent): a handle that is not connected yet. *)
Definition new_MCPHttpClient (config : BackendServerConfig) (backend : Backend)
  : MCPHttpClient :=
  {| client_name := config_name config;
     client_url := config_url config;
     client_status := Disconnected;
     client_capabilities := None;
     client_backend := backend |}.

(** The client object is shared with the [clients] map: a change of its
    status is seen through the map. *)
Definition update_client (c : MCPHttpClient) : M ServerRegistry unit :=
  modify (with_clients (fun m =>
    if JsMap.has (client_name c) m then JsMap.set (client_name c) c m else m)).

(** Modelled from the spec: [client.connect()] ([client.js] is absent):
    on success the status becomes connected, on failure it becomes
    error and the call throws. *)
Definition client_connect (c : MCPHttpClient) : M ServerRegistry unit :=
  try_catch
    (caps <- request c ReqConnect (on_connect (client_backend c)) ;;
     update_client (set_capabilities caps (set_status Connected c)))
    (fun err => update_client (set_status ErrorStatus c) ;;; throw err).

(** Modelled from the spec: [client.disconnect()] ([client.js] is
    absent): the status becomes disconnected. *)
Definition client_disconnect (c : MCPHttpClient) : M ServerRegistry unit :=
  request c ReqDisconnect (on_disconnect (client_backend c)) ;;;
  update_client (set_status Disconnected c).

(** [handleStatusChange]. *)
Definition handleStatusChange (serverName status : string) (error : option string)
  : M ServerRegistry unit :=
  callback <- gets onServerStatusChange ;;
  (if callback then
     client <- gets (fun r => JsMap.get serverName (clients r)) ;;
     match client with
     | Some c =>
         modify (with_statusChanges (fun l => l ++ [(serverName, getInfo c)]))
     | None => ret tt
     end
   else ret tt) ;;;
  match error with
  | Some e =>
      modify (with_console (fun l =>
        l ++ [("[" ++ serverName ++ "] " ++ status ++ ": " ++ e)%string]))
  | None => ret tt
  end.

(** [addServer]; [backend] is the endpoint behind [config.url]. *)
Definition addServer (config : BackendServerConfig) (backend : Backend)
  : M ServerRegistry unit :=
  present <- gets (fun r => JsMap.has (config_name config) (clients r)) ;;
  if present then
    throw (Error ("Server '" ++ config_name config ++ "' already exists")%string)
  else
    let client := new_MCPHttpClient config backend in
    modify (with_clients (JsMap.set (config_name config) client)) ;;;
    try_catch
      (client_connect client)
      (fun err =>
         (* Keep the client in the registry even if connection fails *)
         handleStatusChange (config_name config) "error" (Some (message err))).

(** [request.reject(reason)]. *)
Definition reject (kind : RequestKind) (request : PendingRequest)
    (reason : JsError) : M ServerRegistry unit :=
  modify (with_settled (fun l => l ++ [Rejected kind (req_id request) reason])).

(** [request.resolve(result)]. *)
Definition resolve (kind : RequestKind) (request : PendingRequest)
    (result : Json) : M ServerRegistry unit :=
  modify (with_settled (fun l => l ++ [Resolved kind (req_id request) result])).

Definition pending (kind : RequestKind) (r : ServerRegistry)
  : JsMap.t PendingRequest :=
  match kind with
  | Sampling => pendingSamplingRequests r
  | Elicitation => pendingElicitationRequests r
  end.

Definition with_pending (kind : RequestKind)
    (f : JsMap.t PendingRequest -> JsMap.t PendingRequest)
  : ServerRegistry -> ServerRegistry :=
  match kind with
  | Sampling => with_pendingSampling f
  | Elicitation => with_pendingElicitation f
  end.

(** The loop of [removeServer] over one map of pending requests:
    [for (const [id, request] of map) if (request.server === name)
    { request.reject(...); map.delete(id); }].  Only the entry being
    visited is deleted, so the loop visits the entries the map had when
    it started. *)
Definition rejectPendingFrom (kind : RequestKind) (name : string)
  : M ServerRegistry unit :=
  entries <- gets (pending kind) ;;
  for_of entries
    (fun '(id, request) _ =>
       if String.eqb (req_server request) name then
         reject kind request (Error ("Server '" ++ name ++ "' disconnected")%string) ;;;
         modify (with_pending kind (JsMap.delete id))
       else ret tt)
    tt.

(** [removeServer]. *)
Definition removeServer (name : string) : M ServerRegistry unit :=
  client <- gets (fun r => JsMap.get name (clients r)) ;;
  match client with
  | None => throw (Error ("Server '" ++ name ++ "' not found")%string)
  | Some client =>
      rejectPendingFrom Sampling name ;;;
      rejectPendingFrom Elicitation name ;;;
      client_disconnect client ;;;
      modify (with_clients (JsMap.delete name))
  end.

(** [listServers]. *)
Definition listServers : M ServerRegistry (list BackendServerInfo) :=
  cs <- gets clients ;;
  for_of (JsMap.values cs) (fun client servers => ret (servers ++ [getInfo client])) [].

(** [getServer]. *)
Definition getServer (name : string) : M ServerRegistry (option BackendServerInfo) :=
  client <- gets (fun r => JsMap.get name (clients r)) ;;
  ret (option_map getInfo client).

(** [hasServer]. *)
Definition hasServer (name : string) : M ServerRegistry bool :=
  gets (fun r => JsMap.has name (clients r)).

(** [getConnectedClient]. *)
Definition getConnectedClient (name : string) : M ServerRegistry MCPHttpClient :=
  client <- gets (fun r => JsMap.get name (clients r)) ;;
  match client with
  | None => throw (Error ("Server '" ++ name ++ "' not found")%string)
  | Some client =>
      if negb (isConnected client)
      then throw (Error ("Server '" ++ name ++ "' is not connected")%string)
      else ret client
  end.

(** An item of a backend, tagged with the server it came from:
    [{ ...item, server: name }]. *)
Record Tagged (A : Type) : Type := {
  server : string;
  item : A
}.

Definition tag {A : Type} (name : string) (x : A) : Tagged A :=
  {| server := name; item := x |}.

Definition BackendTool : Type := Tagged Tool.
Definition BackendResource : Type := Tagged Resource.
Definition BackendResourceTemplate : Type := Tagged ResourceTemplate.
Definition BackendPrompt : Type := Tagged Prompt.

(** The inner loop [for (const x of serverItems) items.push({ ...x,
    server: name })]. *)
Definition pushTagged {A : Type} (name : string) (serverItems : list A)
    (items : list (Tagged A)) : M ServerRegistry (list (Tagged A)) :=
  for_of serverItems (fun x items => ret (items ++ [tag name x])) items.

(** The body shared by [listTools], [listResources],
    [listResourceTemplates] and [listPrompts], which differ in the client
    method they call. *)
Definition listFrom {A : Type} (enumerate : MCPHttpClient -> M ServerRegistry (list A))
    (serverName : option string) : M ServerRegistry (list (Tagged A)) :=
  match serverName with
  | Some serverName =>
      client <- getConnectedClient serverName ;;
      serverItems <- enumerate client ;;
      pushTagged serverName serverItems []
  | None =>
      cs <- gets clients ;;
      for_of cs
        (fun '(name, client) items =>
           if isConnected client then
             try_catch
               (serverItems <- enumerate client ;;
                pushTagged name serverItems items)
               (fun _ => (* Skip servers that fail *) ret items)
           else ret items)
        []
  end.

(** [listTools]. *)
Definition listTools : option string -> M ServerRegistry (list BackendTool) :=
  listFrom client_listTools.

(** [listResources]. *)
Definition listResources : option string -> M ServerRegistry (list BackendResource) :=
  listFrom client_listResources.

(** [listResourceTemplates]. *)
Definition listResourceTemplates
  : option string -> M ServerRegistry (list BackendResourceTemplate) :=
  listFrom client_listResourceTemplates.

(** [listPrompts]. *)
Definition listPrompts : option string -> M ServerRegistry (list BackendPrompt) :=
  listFrom client_listPrompts.

(** The default [{}] of an omitted [args]. *)
Definition default_args (args : option Json) : Json :=
  match args with Some a => a | None => "{}" end.

(** [executeTool]. *)
Definition executeTool (serverName toolName : string) (args : option Json)
  : M ServerRegistry Json :=
  client <- getConnectedClient serverName ;;
  client_callTool client toolName (default_args args).

(** [readResource]. *)
Definition readResource (serverName uri : string) : M ServerRegistry Json :=
  client <- getConnectedClient serverName ;;
  client_readResource client uri.

(** [getPrompt]. *)
Definition getPrompt (serverName promptName : string) (args : option Json)
  : M ServerRegistry Json :=
  client <- getConnectedClient serverName ;;
  client_getPrompt client promptName (default_args args).

(** [getNotifications]: copy, then [this.notifications.length = 0]. *)
Definition getNotifications : M ServerRegistry (list BufferedNotification) :=
  notifications <- gets notifications ;;
  modify (with_notifications (fun _ => [])) ;;;
  ret notifications.

(** [getNotificationCount]. *)
Definition getNotificationCount : M ServerRegistry nat :=
  gets (fun r => List.length (notifications r)).

(** [getLogs]. *)
Definition getLogs : M ServerRegistry (list BufferedLog) :=
  logs <- gets logs ;;
  modify (with_logs (fun _ => [])) ;;;
  ret logs.

(** [getLogCount]. *)
Definition getLogCount : M ServerRegistry nat :=
  gets (fun r => List.length (logs r)).

(** The [onNotification] callback handed to each client. *)
Definition onNotification (notification : BufferedNotification)
  : M ServerRegistry unit :=
  modify (with_notifications (fun l => l ++ [notification])).

(** The [onLog] callback handed to each client. *)
Definition onLog (log : BufferedLog) : M ServerRegistry unit :=
  modify (with_logs (fun l => l ++ [log])).

(** The loop of [shutdown] over one map of pending requests, and the
    [clear()] after it. *)
Definition rejectAllPending (kind : RequestKind) : M ServerRegistry unit :=
  entries <- gets (pending kind) ;;
  for_of (JsMap.values entries)
    (fun request _ => reject kind request (Error "Registry shutting down"))
    tt ;;;
  modify (with_pending kind (fun _ => JsMap.empty)).

(** [await Promise.all(disconnectPromises)]: every disconnect is
    started; the wait throws when one of them failed (here: the first
    failure in the order of the clients). *)
Definition disconnectAll (cs : list MCPHttpClient) : M ServerRegistry unit :=
  failure <- for_of cs
    (fun client failure =>
       try_catch
         (client_disconnect client ;;; ret failure)
         (fun err => ret (match failure with Some e => Some e | None => Some err end)))
    None ;;
  match failure with
  | Some err => throw err
  | None => ret tt
  end.

(** [shutdown]. *)
Definition shutdown : M ServerRegistry unit :=
  rejectAllPending Sampling ;;;
  rejectAllPending Elicitation ;;;
  cs <- gets clients ;;
  disconnectAll (JsMap.values cs) ;;;
  modify (with_clients (fun _ => JsMap.empty)) ;;;
  modify (with_notifications (fun _ => [])) ;;;
  modify (with_logs (fun _ => [])).

Definition kind_name (kind : RequestKind) : string :=
  match kind with
  | Sampling => "Sampling"
  | Elicitation => "Elicitation"
  end.

(** [handleIncomingSamplingRequest] and
    [handleIncomingElicitationRequest]: the request is stored; its
    timer is [requestTimedOut] below. *)
Definition handleIncomingRequest (kind : RequestKind) (request : PendingRequest)
  : M ServerRegistry unit :=
  modify (with_pending kind (JsMap.set (req_id request) request)).

(** The timer set by [handleIncomingRequest], when it fires. *)
Definition requestTimedOut (kind : RequestKind) (request : PendingRequest)
  : M ServerRegistry unit :=
  found <- gets (fun r => JsMap.get (req_id request) (pending kind r)) ;;
  match found with
  | Some pending =>
      modify (with_pending kind (JsMap.delete (req_id request))) ;;;
      timeout <- gets requestTimeoutMs ;;
      reject kind pending
        (Error (kind_name kind ++ " request timed out after "
                ++ string_of_N timeout ++ "ms")%string)
  | None => ret tt
  end.

(** [respondToSamplingRequest] and [respondToElicitationRequest]. *)
Definition respondToRequest (kind : RequestKind) (requestId : string)
    (result : Json) : M ServerRegistry unit :=
  found <- gets (fun r => JsMap.get requestId (pending kind r)) ;;
  match found with
  | None =>
      throw (Error (kind_name kind ++ " request '" ++ requestId
                    ++ "' not found or already completed")%string)
  | Some pending =>
      modify (with_pending kind (JsMap.delete requestId)) ;;;
      resolve kind pending result
  end.

(** [rejectSamplingRequest] and [rejectElicitationRequest]. *)
Definition rejectRequest (kind : RequestKind) (requestId : string)
    (error : string) : M ServerRegistry unit :=
  found <- gets (fun r => JsMap.get requestId (pending kind r)) ;;
  match found with
  | None =>
      throw (Error (kind_name kind ++ " request '" ++ requestId
                    ++ "' not found or already completed")%string)
  | Some pending =>
      modify (with_pending kind (JsMap.delete requestId)) ;;;
      reject kind pending (Error error)
  end.

(** [getPendingSamplingRequestCount] and its elicitation twin. *)
Definition getPendingRequestCount (kind : RequestKind) : M ServerRegistry nat :=
  gets (fun r => JsMap.size (pending kind r)).

(** [getPendingSamplingRequests] and its elicitation twin. *)
Definition getPendingRequests (kind : RequestKind)
  : M ServerRegistry (list PendingRequest) :=
  gets (fun r => JsMap.values (pending kind r)).

End Registry.

(* ================================================================== *)
(** * The session seen by codemode                                     *)
(* ================================================================== *)

(** Modelled from the spec: [SessionState] ([session-state.ts] is
    absent): the backend connections of one client, each a named handle
    with a status and a client. *)
Record BackendConnection : Type := {
  conn_status : ConnectionStatus;
  conn_client : option MCPHttpClient
}.

Record SessionState : Type := {
  sessionId : string;
  backendConnections : JsMap.t BackendConnection
}.

(** [session.getConnection(name)]. *)
Definition getConnection (session : SessionState) (name : string)
  : option BackendConnection :=
  JsMap.get name (backendConnections session).

(** An entry of [sessionManager.listServers(sessionId)]. *)
Record ServerSummary : Type := {
  summary_name : string;
  summary_status : ConnectionStatus
}.

(** Modelled from the spec: [sessionManager.listServers(sessionId)]
    ([session-manager.ts] is absent): a snapshot of all registered
    servers of the session regardless of status, in the order they were
    registered. *)
Definition SessionManager_listServers (session : SessionState)
  : list ServerSummary :=
  map (fun e => {| summary_name := fst e; summary_status := conn_status (snd e) |})
      (backendConnections session).

Record MatchingClient : Type := {
  mc_name : string;
  mc_client : MCPHttpClient
}.

Section MatchingClients.
Context {E : RegExpEngine}.

(** The server pattern of the capability API, in the spec's words: a
    case-insensitive regular expression if parseable, otherwise a
    literal equality match after lower-casing both sides; no pattern
    selects every server. *)
Definition matchesPattern (serverName : string) (serverPattern : option string)
  : bool :=
  match serverPattern with
  | None => true
  | Some p =>
      match newRegExp_i p with
      | Some regex => test regex serverName
      | None => String.eqb (toLowerCase serverName) (toLowerCase p)
      end
  end.

(** Modelled from the spec: [getMatchingClients] ([api-bindings.ts] is
    absent): the connections whose status is connected and whose name
    matches the server pattern, in the order of registration. *)
Fixpoint matchingClients (conns : list (string * BackendConnection))
    (serverPattern : option string) : list MatchingClient :=
  match conns with
  | [] => []
  | (name, conn) :: rest =>
      match conn_client conn with
      | Some client =>
          if status_eqb (conn_status conn) Connected
             && matchesPattern name serverPattern
          then {| mc_name := name; mc_client := client |}
               :: matchingClients rest serverPattern
          else matchingClients rest serverPattern
      | None => matchingClients rest serverPattern
      end
  end.

Definition getMatchingClients (session : SessionState)
    (serverPattern : option string) : list MatchingClient :=
  matchingClients (backendConnections session) serverPattern.
End MatchingClients.

(* ================================================================== *)
(** * The search tool ([search.ts])                                    *)
(* ================================================================== *)

Module Search.

Inductive SearchType : Type :=
| TypeTools
| TypeResources
| TypePrompts
| TypeServers
| TypeAll.

Record SearchQuery : Type := {
  query : string;
  type : SearchType;
  server : option string;
  includeSchemas : option bool
}.

Record SearchToolResult : Type := {
  tr_server : string;
  tr_name : string;
  tr_description : option string;
  tr_inputSchema : option Json
}.

Record SearchResourceResult : Type := {
  rr_server : string;
  rr_uri : string;
  rr_name : string;
  rr_description : option string;
  rr_mimeType : option string
}.

Record SearchPromptArgument : Type := {
  pa_name : string;
  pa_required : option bool
}.

Record SearchPromptResult : Type := {
  pr_server : string;
  pr_name : string;
  pr_description : option string;
  pr_arguments : option (list SearchPromptArgument)
}.

Record SearchCapabilities : Type := {
  sc_tools : bool;
  sc_resources : bool;
  sc_prompts : bool
}.

Record SearchServerResult : Type := {
  sr_name : string;
  sr_status : ConnectionStatus;
  sr_capabilities : SearchCapabilities
}.

(** The grouped result: an absent key is [None]. *)
Record SearchResult : Type := {
  tools : option (list SearchToolResult);
  resources : option (list SearchResourceResult);
  prompts : option (list SearchPromptResult);
  servers : option (list SearchServerResult)
}.

(** The object [{}]. *)
Definition empty_result : SearchResult :=
  {| tools := None; resources := None; prompts := None; servers := None |}.

(** Backend traffic of a search. *)
Definition Wire : Type := list Contact.

#[export] Instance wire_wired : Wired Wire :=
  {| send := fun c w => w ++ [c] |}.

Section WithEngine.
Context {E : RegExpEngine}.

(** A truthy [includeSchemas]. *)
Definition truthy (b : option bool) : bool :=
  match b with Some true => true | _ => false end.

Definition toolResult (serverName : string) (includeSchemas : option bool)
    (tool : Tool) : SearchToolResult :=
  {| tr_server := serverName;
     tr_name := tool_name tool;
     tr_description := tool_description tool;
     tr_inputSchema :=
       if truthy includeSchemas then Some (tool_inputSchema tool) else None |}.

Definition toolMatches (queryRegex : RegExp) (tool : Tool) : bool :=
  matchesQuery (Some (tool_name tool)) queryRegex
  || matchesQuery (tool_description tool) queryRegex.

(** [searchTools]. *)
Definition searchTools (session : SessionState) (queryRegex : RegExp)
    (serverPattern : option string) (includeSchemas : option bool)
  : M Wire (list SearchToolResult) :=
  let clients := getMatchingClients session serverPattern in
  for_of clients
    (fun mc results =>
       let serverName := mc_name mc in
       let client := mc_client mc in
       if negb (matchesServerFilter serverName serverPattern) then ret results
       else
         try_catch
           (tools <- client_listTools client ;;
            for_of tools
              (fun tool results =>
                 if toolMatches queryRegex tool
                 then ret (results ++ [toolResult serverName includeSchemas tool])
                 else ret results)
              results)
           (fun _ => (* Skip servers that fail *) ret results))
    [].

Definition resourceResult (serverName : string) (resource : Resource)
  : SearchResourceResult :=
  {| rr_server := serverName;
     rr_uri := resource_uri resource;
     rr_name := resource_name resource;
     rr_description := resource_description resource;
     rr_mimeType := resource_mimeType resource |}.

Definition resourceMatches (queryRegex : RegExp) (resource : Resource) : bool :=
  matchesQuery (Some (resource_name resource)) queryRegex
  || matchesQuery (Some (resource_uri resource)) queryRegex
  || matchesQuery (resource_description resource) queryRegex.

(** [searchResources]. *)
Definition searchResources (session : SessionState) (queryRegex : RegExp)
    (serverPattern : option string) : M Wire (list SearchResourceResult) :=
  let clients := getMatchingClients session serverPattern in
  for_of clients
    (fun mc results =>
       let serverName := mc_name mc in
       let client := mc_client mc in
       if negb (matchesServerFilter serverName serverPattern) then ret results
       else
         try_catch
           (resources <- client_listResources client ;;
            for_of resources
              (fun resource results =>
                 if resourceMatches queryRegex resource
                 then ret (results ++ [resourceResult serverName resource])
                 else ret results)
              results)
           (fun _ => (* Skip servers that fail *) ret results))
    [].

Definition promptResult (serverName : string) (prompt : Prompt)
  : SearchPromptResult :=
  {| pr_server := serverName;
     pr_name := prompt_name prompt;
     pr_description := prompt_description prompt;
     pr_arguments :=
       option_map
         (map (fun arg => {| pa_name := arg_name arg;
                             pa_required := arg_required arg |}))
         (prompt_arguments prompt) |}.

Definition promptMatches (queryRegex : RegExp) (prompt : Prompt) : bool :=
  matchesQuery (Some (prompt_name prompt)) queryRegex
  || matchesQuery (prompt_description prompt) queryRegex.

(** [searchPrompts]. *)
Definition searchPrompts (session : SessionState) (queryRegex : RegExp)
    (serverPattern : option string) : M Wire (list SearchPromptResult) :=
  let clients := getMatchingClients session serverPattern in
  for_of clients
    (fun mc results =>
       let serverName := mc_name mc in
       let client := mc_client mc in
       if negb (matchesServerFilter serverName serverPattern) then ret results
       else
         try_catch
           (prompts <- client_listPrompts client ;;
            for_of prompts
              (fun prompt results =>
                 if promptMatches queryRegex prompt
                 then ret (results ++ [promptResult serverName prompt])
                 else ret results)
              results)
           (fun _ => (* Skip servers that fail *) ret results))
    [].

(** [capabilities?.tools ?? false] and its siblings. *)
Definition capability (get : ServerCapabilities -> option bool)
    (capabilities : option ServerCapabilities) : bool :=
  match capabilities with
  | Some caps => match get caps with Some b => b | None => false end
  | None => false
  end.

Definition serverResult (session : SessionState) (server : ServerSummary)
  : SearchServerResult :=
  let connection := getConnection session (summary_name server) in
  let client := match connection with
                | Some conn => conn_client conn
                | None => None
                end in
  let capabilities := match client with
                      | Some c => info_capabilities (getInfo c)
                      | None => None
                      end in
  {| sr_name := summary_name server;
     sr_status := summary_status server;
     sr_capabilities :=
       {| sc_tools := capability cap_tools capabilities;
          sc_resources := capability cap_resources capabilities;
          sc_prompts := capability cap_prompts capabilities |} |}.

(** [searchServers]: synchronous, no backend is asked. *)
Fixpoint searchServersLoop (session : SessionState) (queryRegex : RegExp)
    (serverPattern : option string) (servers : list ServerSummary)
    (results : list SearchServerResult) : list SearchServerResult :=
  match servers with
  | [] => results
  | server :: rest =>
      if negb (matchesServerFilter (summary_name server) serverPattern)
      then searchServersLoop session queryRegex serverPattern rest results
      else if matchesQuery (Some (summary_name server)) queryRegex
      then searchServersLoop session queryRegex serverPattern rest
             (results ++ [serverResult session server])
      else searchServersLoop session queryRegex serverPattern rest results
  end.

Definition searchServers (session : SessionState) (queryRegex : RegExp)
    (serverPattern : option string) : list SearchServerResult :=
  let servers := SessionManager_listServers session in
  searchServersLoop session queryRegex serverPattern servers [].

Definition wants (kind requested : SearchType) : bool :=
  match requested, kind with
  | TypeAll, _ => true
  | TypeTools, TypeTools
  | TypeResources, TypeResources
  | TypePrompts, TypePrompts
  | TypeServers, TypeServers => true
  | _, _ => false
  end.

(** [search]. *)
Definition search (q : SearchQuery) (session : SessionState) : M Wire SearchResult :=
  match createQueryRegex (query q) with
  | None => ret empty_result (* Invalid query returns empty results *)
  | Some queryRegex =>
      tools <- (if wants TypeTools (type q)
                then found <- searchTools session queryRegex (server q)
                                (includeSchemas q) ;;
                     ret (Some found)
                else ret None) ;;
      resources <- (if wants TypeResources (type q)
                    then found <- searchResources session queryRegex (server q) ;;
                         ret (Some found)
                    else ret None) ;;
      prompts <- (if wants TypePrompts (type q)
                  then found <- searchPrompts session queryRegex (server q) ;;
                       ret (Some found)
                  else ret None) ;;
      let servers := if wants TypeServers (type q)
                     then Some (searchServers session queryRegex (server q))
                     else None in
      ret {| tools := tools; resources := resources;
             prompts := prompts; servers := servers |}
  end.

(** [listAllCapabilities]. *)
Definition listAllCapabilities (session : SessionState) : M Wire SearchResult :=
  search {| query := ".*"; type := TypeAll; server := None;
            includeSchemas := Some false |} session.

End WithEngine.
End Search.

(* ================================================================== *)
(** * The capability API and its call accounting                       *)
(* ================================================================== *)

Module Api.

(** Modelled from the spec: the methods of the [mcp] object
    ([api-bindings.ts] is absent). *)
Inductive Method : Type :=
| listServers
| listTools (serverPattern : option string)
| callTool (server tool : string) (args : option Json)
| listResources (serverPattern : option string)
| listResourceTemplates (serverPattern : option string)
| readResource (server uri : string)
| listPrompts (serverPattern : option string)
| getPrompt (server name : string) (args : option Json)
| sleep (ms : N)
| log (vals : list string).

(** Modelled from the spec: every method counts against [maxMcpCalls]
    but [sleep] and [log]. *)
Definition billable (m : Method) : bool :=
  match m with
  | sleep _ | log _ => false
  | _ => true
  end.

Record SandboxConfig : Type := {
  timeoutMs : N;
  maxMcpCalls : nat;
  maxCodeLength : N
}.

Definition DEFAULT_CONFIG : SandboxConfig :=
  {| timeoutMs := 30000; maxMcpCalls := 100; maxCodeLength := 100000 |}.

(** Modelled from the spec: the [ExecutionContext] of one run.  Beside
    it a run records the calls handed to the gateway session
    ([dispatched]) and every API invocation that began ([begun]). *)
Record ExecutionContext : Type := {
  config : SandboxConfig;
  callCount : nat;
  logs : list string;
  dispatched : list Method;
  begun : list Method
}.

Definition with_callCount (f : nat -> nat) (ctx : ExecutionContext)
  : ExecutionContext :=
  {| config := config ctx;
     callCount := f (callCount ctx);
     logs := logs ctx;
     dispatched := dispatched ctx;
     begun := begun ctx |}.

Definition with_run_logs (f : list string -> list string) (ctx : ExecutionContext)
  : ExecutionContext :=
  {| config := config ctx;
     callCount := callCount ctx;
     logs := f (logs ctx);
     dispatched := dispatched ctx;
     begun := begun ctx |}.

Definition with_dispatched (f : list Method -> list Method)
    (ctx : ExecutionContext) : ExecutionContext :=
  {| config := config ctx;
     callCount := callCount ctx;
     logs := logs ctx;
     dispatched := f (dispatched ctx);
     begun := begun ctx |}.

Definition with_begun (f : list Method -> list Method)
    (ctx : ExecutionContext) : ExecutionContext :=
  {| config := config ctx;
     callCount := callCount ctx;
     logs := logs ctx;
     dispatched := dispatched ctx;
     begun := f (begun ctx) |}.

Definition newContext (cfg : SandboxConfig) (initialLogs : list string)
  : ExecutionContext :=
  {| config := cfg; callCount := 0; logs := initialLogs;
     dispatched := []; begun := [] |}.

Definition limitMessage (maxMcpCalls : nat) : string :=
  ("Maximum mcp.* call limit exceeded (" ++ string_of_nat maxMcpCalls ++ ")")%string.

Definition timeoutMessage (timeoutMs : N) : string :=
  ("Execution timed out after " ++ string_of_N timeoutMs ++ "ms")%string.

(** The value [undefined], as the codec renders it. *)
Definition undefined : Json := "null".

(** Arguments joined by a single space. *)
Fixpoint formatArgs (vals : list string) : string :=
  match vals with
  | [] => EmptyString
  | [v] => v
  | v :: rest => (v ++ " " ++ formatArgs rest)%string
  end.

Section WithSession.
(** The API object handed to [executeSandbox]: how the gateway session
    behind it answers a dispatched call. *)
Variable session : Method -> Completion Json.

(** Modelled from the spec: the accounting protocol: pre-increment
    [callCount]; fail when the value after the increment exceeds
    [maxMcpCalls]. *)
Definition countCall : M ExecutionContext unit :=
  modify (with_callCount S) ;;;
  count <- gets callCount ;;
  limit <- gets (fun ctx => maxMcpCalls (config ctx)) ;;
  if (limit <? count)%nat then throw (Error (limitMessage limit)) else ret tt.

Definition dispatch (m : Method) : M ExecutionContext Json :=
  fun ctx => (session m, with_dispatched (fun l => l ++ [m]) ctx).

(** Modelled from the spec: one invocation of a method of [mcp]. *)
Definition invoke (m : Method) : M ExecutionContext Json :=
  modify (with_begun (fun l => l ++ [m])) ;;;
  match m with
  | sleep _ => ret undefined
  | log vals => modify (with_run_logs (fun l => l ++ [formatArgs vals])) ;;; ret undefined
  | _ => countCall ;;; dispatch m
  end.

(** A user fragment, as the API invocations it makes: it returns,
    throws, or invokes a method and goes on with the outcome (which it
    may catch). *)
Inductive Script : Type :=
| Return (v : Json)
| Raise (e : JsError)
| Await (m : Method) (k : Completion Json -> Script).

(** Modelled from the spec: the deadline race.  [deadline] is the
    number of invocations that settle before the timer fires; the timer
    fires at a suspension point, after the invocation began. *)
Fixpoint run (deadline : nat) (code : Script) {struct code}
  : M ExecutionContext Json :=
  match code with
  | Return v => ret v
  | Raise e => throw e
  | Await m k =>
      fun ctx =>
        let (outcome, ctx') := invoke m ctx in
        match deadline with
        | 0 => (Throw (Error (timeoutMessage (timeoutMs (config ctx')))), ctx')
        | S deadline' => run deadline' (k outcome) ctx'
        end
  end.

Record ExecutionResult : Type := {
  success : bool;
  result : option Json;
  error : option JsError;
  result_logs : list string;
  stats_mcpCalls : nat
}.

(** Modelled from the spec: [executeSandbox] ([sandbox.ts] is absent),
    without the wall clock: [stats.mcpCalls] is the [callCount] of the
    run's context on every exit path. *)
Definition executeSandbox (code : Script) (cfg : SandboxConfig)
    (initialLogs : list string) (deadline : nat)
  : ExecutionResult * ExecutionContext :=
  let (outcome, ctx) := run deadline code (newContext cfg initialLogs) in
  (match outcome with
   | Normal v =>
       {| success := true; result := Some v; error := None;
          result_logs := logs ctx; stats_mcpCalls := callCount ctx |}
   | Throw e =>
       {| success := false; result := None; error := Some e;
          result_logs := logs ctx; stats_mcpCalls := callCount ctx |}
   end, ctx).
End WithSession.

(** [isCallLimitExceeded]. *)
Definition isCallLimitExceeded (r : ExecutionResult) : bool :=
  negb (success r)
  && match error r with
     | Some e => includes "call limit exceeded" (message e)
     | None => false
     end.

(** [isTimeout]. *)
Definition isTimeout (r : ExecutionResult) : bool :=
  negb (success r)
  && match error r with
     | Some e => includes "timed out" (message e)
     | None => false
     end.

(** The number of billable invocations in a trace. *)
Definition billableCount (trace : list Method) : nat :=
  List.length (filter billable trace).

End Api.

(* ================================================================== *)
(** * The registry as a state machine                                  *)
(* ================================================================== *)

Import Registry.

(** What can happen to a registry: a call of a public method, a
    callback from a backend client, or a request timer firing. *)
Inductive Event : Type :=
| EvAddServer (config : BackendServerConfig) (backend : Backend)
| EvRemoveServer (name : string)
| EvListServers
| EvGetServer (name : string)
| EvHasServer (name : string)
| EvListTools (serverName : option string)
| EvListResources (serverName : option string)
| EvListResourceTemplates (serverName : option string)
| EvListPrompts (serverName : option string)
| EvExecuteTool (serverName toolName : string) (args : option Json)
| EvReadResource (serverName uri : string)
| EvGetPrompt (serverName promptName : string) (args : option Json)
| EvNotification (notification : BufferedNotification)
| EvLog (log : BufferedLog)
| EvIncomingRequest (kind : RequestKind) (request : PendingRequest)
| EvRequestTimedOut (kind : RequestKind) (request : PendingRequest)
| EvRespondToRequest (kind : RequestKind) (requestId : string) (result : Json)
| EvRejectRequest (kind : RequestKind) (requestId : string) (error : string)
| EvGetPendingRequests (kind : RequestKind)
| EvGetPendingRequestCount (kind : RequestKind)
| EvGetNotifications
| EvGetNotificationCount
| EvGetLogs
| EvGetLogCount
| EvShutdown.

(** The registry after a call, whatever the call returned or threw. *)
Definition after {A : Type} (m : M ServerRegistry A) (r : ServerRegistry)
  : ServerRegistry :=
  snd (m r).

Definition step (r : ServerRegistry) (e : Event) : ServerRegistry :=
  match e with
  | EvAddServer config backend => after (addServer config backend) r
  | EvRemoveServer name => after (removeServer name) r
  | EvListServers => after listServers r
  | EvGetServer name => after (getServer name) r
  | EvHasServer name => after (hasServer name) r
  | EvListTools serverName => after (listTools serverName) r
  | EvListResources serverName => after (listResources serverName) r
  | EvListResourceTemplates serverName => after (listResourceTemplates serverName) r
  | EvListPrompts serverName => after (listPrompts serverName) r
  | EvExecuteTool serverName toolName args =>
      after (executeTool serverName toolName args) r
  | EvReadResource serverName uri => after (readResource serverName uri) r
  | EvGetPrompt serverName promptName args =>
      after (getPrompt serverName promptName args) r
  | EvNotification notification => after (onNotification notification) r
  | EvLog log => after (onLog log) r
  | EvIncomingRequest kind request => after (handleIncomingRequest kind request) r
  | EvRequestTimedOut kind request => after (requestTimedOut kind request) r
  | EvRespondToRequest kind requestId result =>
      after (respondToRequest kind requestId result) r
  | EvRejectRequest kind requestId error =>
      after (rejectRequest kind requestId error) r
  | EvGetPendingRequests kind => after (getPendingRequests kind) r
  | EvGetPendingRequestCount kind => after (getPendingRequestCount kind) r
  | EvGetNotifications => after getNotifications r
  | EvGetNotificationCount => after getNotificationCount r
  | EvGetLogs => after getLogs r
  | EvGetLogCount => after getLogCount r
  | EvShutdown => after shutdown r
  end.

Definition steps (r : ServerRegistry) (events : list Event) : ServerRegistry :=
  fold_left step events r.

(** The notifications and the log messages delivered by a run. *)
Definition notified (events : list Event) : list BufferedNotification :=
  flat_map (fun e => match e with EvNotification n => [n] | _ => [] end) events.

Definition logged (events : list Event) : list BufferedLog :=
  flat_map (fun e => match e with EvLog l => [l] | _ => [] end) events.

(** Events that empty a buffer. *)
Definition clears_notifications (e : Event) : bool :=
  match e with EvGetNotifications | EvShutdown => true | _ => false end.

Definition clears_logs (e : Event) : bool :=
  match e with EvGetLogs | EvShutdown => true | _ => false end.

(** An invariant kept by a computation, however it ends. *)
Definition maintains {S A : Type} (I : S -> Prop) (m : M S A) : Prop :=
  forall s, I s -> I (snd (m s)).

(** The maps of a registry hold no key twice. *)
Definition registry_wf (r : ServerRegistry) : Prop :=
  JsMap.wf (clients r)
  /\ JsMap.wf (pendingSamplingRequests r)
  /\ JsMap.wf (pendingElicitationRequests r).

(* ================================================================== *)
(** * Vocabulary of the registry properties                            *)
(* ================================================================== *)

(** Why [getConnectedClient] refuses a server. *)
Definition refusal (r : ServerRegistry) (name : string) : option string :=
  match JsMap.get name (clients r) with
  | None => Some ("Server '" ++ name ++ "' not found")%string
  | Some client =>
      if isConnected client then None
      else Some ("Server '" ++ name ++ "' is not connected")%string
  end.

(** What one registered client adds to a fan-out: the items its backend
    lists, tagged with the name it is registered under, when it is
    connected and the enumeration succeeds; nothing otherwise. *)
Definition contribution {A : Type} (answer : MCPHttpClient -> Completion (list A))
    (entry : string * MCPHttpClient) : list (Tagged A) :=
  if isConnected (snd entry) then
    match answer (snd entry) with
    | Normal items => map (tag (fst entry)) items
    | Throw _ => []
    end
  else [].

(** The request one registered client sees during a fan-out. *)
Definition enumerated (req : Request) (entry : string * MCPHttpClient)
  : list Contact :=
  if isConnected (snd entry) then [(client_name (snd entry), req)] else [].

(** The enumerations a client answers. *)
Definition tools_of (c : MCPHttpClient) : Completion (list Tool) :=
  on_listTools (client_backend c).
Definition resources_of (c : MCPHttpClient) : Completion (list Resource) :=
  on_listResources (client_backend c).
Definition templates_of (c : MCPHttpClient) : Completion (list ResourceTemplate) :=
  on_listResourceTemplates (client_backend c).
Definition prompts_of (c : MCPHttpClient) : Completion (list Prompt) :=
  on_listPrompts (client_backend c).

(** Does a pending entry come from server [name]? *)
Definition from_server (name : string) (e : string * PendingRequest) : bool :=
  String.eqb (req_server (snd e)) name.

(** The [reject] calls that tell the requests of [entries] coming from
    [name] that the server is gone. *)
Definition disconnections (kind : RequestKind) (name : string)
    (entries : JsMap.t PendingRequest) : list Settlement :=
  map (fun e => Rejected kind (req_id (snd e))
                  (Error ("Server '" ++ name ++ "' disconnected")%string))
      (filter (from_server name) entries).

(** The [reject] calls of a shutdown. *)
Definition shutdowns (kind : RequestKind) (entries : JsMap.t PendingRequest)
  : list Settlement :=
  map (fun e => Rejected kind (req_id (snd e)) (Error "Registry shutting down"))
      entries.

(** Deleting the keys of [doomed], one after the other. *)
Definition delete_all {V : Type} (doomed : list (string * V)) (m : JsMap.t V)
  : JsMap.t V :=
  fold_left (fun m e => JsMap.delete (fst e) m) doomed m.

(** The pending requests and the settlements of a registry. *)
Definition requests_view (r : ServerRegistry)
  : JsMap.t PendingRequest * JsMap.t PendingRequest * list Settlement :=
  (pendingSamplingRequests r, pendingElicitationRequests r, settled r).

(* ================================================================== *)
(** * Vocabulary of the search properties                              *)
(* ================================================================== *)

Import Search.

Section SearchVocabulary.
Context {E : RegExpEngine}.

(** A text is hit by the query when it is present, not empty, and the
    regex tests true on it. *)
Definition hit (regex : RegExp) (text : option string) : Prop :=
  exists t, text = Some t /\ t <> EmptyString /\ test regex t = true.

Section Kind.
Context {A B : Type} (req : Request)
  (answer : MCPHttpClient -> Completion (list A))
  (keep : A -> bool) (shape : string -> A -> B)
  (serverPattern : option string).

(** What one matching client adds to the results. *)
Definition found (mc : MatchingClient) : list B :=
  if matchesServerFilter (mc_name mc) serverPattern then
    match answer (mc_client mc) with
    | Normal items => map (shape (mc_name mc)) (filter keep items)
    | Throw _ => []
    end
  else [].

(** The request one matching client sees. *)
Definition asked (mc : MatchingClient) : list Contact :=
  if matchesServerFilter (mc_name mc) serverPattern
  then [(client_name (mc_client mc), req)]
  else [].

End Kind.

Section Run.
Variables (session : SessionState) (queryRegex : RegExp)
  (serverPattern : option string).

Definition toolsFound (includeSchemas : option bool)
  : MatchingClient -> list SearchToolResult :=
  found tools_of (toolMatches queryRegex)
    (fun serverName tool => toolResult serverName includeSchemas tool)
    serverPattern.

Definition resourcesFound : MatchingClient -> list SearchResourceResult :=
  found resources_of (resourceMatches queryRegex) resourceResult serverPattern.

Definition promptsFound : MatchingClient -> list SearchPromptResult :=
  found prompts_of (promptMatches queryRegex) promptResult serverPattern.

(** Does [searchServers] list this server? *)
Definition serverListed (s : ServerSummary) : bool :=
  matchesServerFilter (summary_name s) serverPattern
  && matchesQuery (Some (summary_name s)) queryRegex.

(** A connection the search may ask: connected, with a client, and
    selected by the server filter. *)
Definition eligible (name : string) (client : MCPHttpClient) : Prop :=
  exists conn,
    In (name, conn) (backendConnections session)
    /\ conn_status conn = Connected
    /\ conn_client conn = Some client
    /\ matchesServerFilter name serverPattern = true.

End Run.

Section Outcome.
Variables (q : SearchQuery) (session : SessionState) (queryRegex : RegExp).

Definition toolsList : list SearchToolResult :=
  flat_map (toolsFound queryRegex (server q) (includeSchemas q))
    (getMatchingClients session (server q)).

Definition resourcesList : list SearchResourceResult :=
  flat_map (resourcesFound queryRegex (server q))
    (getMatchingClients session (server q)).

Definition promptsList : list SearchPromptResult :=
  flat_map (promptsFound queryRegex (server q))
    (getMatchingClients session (server q)).

Definition serversList : list SearchServerResult :=
  map (serverResult session)
      (filter (serverListed queryRegex (server q))
         (SessionManager_listServers session)).

(** A category that is present only when requested. *)
Definition when {A : Type} (b : bool) (x : A) : option A :=
  if b then Some x else None.

(** The result of a search whose query compiled. *)
Definition searchOutcome : SearchResult :=
  {| tools := when (wants TypeTools (type q)) toolsList;
     resources := when (wants TypeResources (type q)) resourcesList;
     prompts := when (wants TypePrompts (type q)) promptsList;
     servers := when (wants TypeServers (type q)) serversList |}.

(** The backend traffic of a search whose query compiled. *)
Definition searchContacts : list Contact :=
  (if wants TypeTools (type q)
   then flat_map (asked ReqListTools (server q))
          (getMatchingClients session (server q)) else [])
  ++ (if wants TypeResources (type q)
      then flat_map (asked ReqListResources (server q))
          (getMatchingClients session (server q)) else [])
  ++ (if wants TypePrompts (type q)
      then flat_map (asked ReqListPrompts (server q))
          (getMatchingClients session (server q)) else []).

End Outcome.
End SearchVocabulary.

(** Every enumeration any client of the session could be asked for
    fails. *)
Definition every_backend_fails (session : SessionState) : Prop :=
  forall name conn client,
    In (name, conn) (backendConnections session) ->
    conn_client conn = Some client ->
    (exists err, tools_of client = Throw err)
    /\ (exists err, resources_of client = Throw err)
    /\ (exists err, prompts_of client = Throw err).

(** No category holds an item. *)
Definition nothing_found (result : SearchResult) : Prop :=
  (tools result = None \/ tools result = Some [])
  /\ (resources result = None \/ resources result = Some [])
  /\ (prompts result = None \/ prompts result = Some [])
  /\ (servers result = None \/ servers result = Some []).

(* ================================================================== *)
(** * Vocabulary of the accounting properties                          *)
(* ================================================================== *)

(** What an invocation adds to the call count. *)
Definition weight (m : Api.Method) : nat := if Api.billable m then 1 else 0.

(* ================================================================== *)
(** * Concrete backends, sessions and registries                       *)
(* ================================================================== *)

Module Fixtures.

Definition echo : Tool :=
  {| tool_name := "echo";
     tool_description := Some "Echo back the input";
     tool_inputSchema := "{}" |}.

Definition silent : Tool :=
  {| tool_name := "silent";
     tool_description := Some EmptyString;
     tool_inputSchema := "{}" |}.

Definition test_txt : Resource :=
  {| resource_uri := "file:///test.txt";
     resource_name := "test.txt";
     resource_description := Some "A test file";
     resource_mimeType := Some "text/plain" |}.

Definition all_capabilities : ServerCapabilities :=
  {| cap_tools := Some true; cap_resources := Some true; cap_prompts := Some true |}.

(** A backend that answers every request. *)
Definition healthy : Backend :=
  {| on_connect := Normal (Some all_capabilities);
     on_disconnect := Normal tt;
     on_listTools := Normal [echo; silent];
     on_listResources := Normal [test_txt];
     on_listResourceTemplates := Normal [];
     on_listPrompts := Normal [];
     on_callTool := fun _ args => Normal args;
     on_readResource := fun _ => Normal "Test content";
     on_getPrompt := fun _ _ => Normal "Test prompt" |}.

Definition unavailable : JsError := Error "backend unavailable".

(** A backend that fails every request. *)
Definition broken : Backend :=
  {| on_connect := Throw unavailable;
     on_disconnect := Throw unavailable;
     on_listTools := Throw unavailable;
     on_listResources := Throw unavailable;
     on_listResourceTemplates := Throw unavailable;
     on_listPrompts := Throw unavailable;
     on_callTool := fun _ _ => Throw unavailable;
     on_readResource := fun _ => Throw unavailable;
     on_getPrompt := fun _ _ => Throw unavailable |}.

Definition client (name : string) (status : ConnectionStatus) (backend : Backend)
  : MCPHttpClient :=
  {| client_name := name;
     client_url := "http://localhost";
     client_status := status;
     client_capabilities := Some all_capabilities;
     client_backend := backend |}.

Definition connection (name : string) (status : ConnectionStatus)
    (backend : Backend) : string * BackendConnection :=
  (name, {| conn_status := status;
            conn_client := Some (client name status backend) |}).

(** A session whose only server is disconnected. *)
Definition session_alpha_down : SessionState :=
  {| sessionId := "s1";
     backendConnections := [connection "alpha" Disconnected healthy] |}.

(** A session whose only server is connected and fails every
    enumeration. *)
Definition session_alpha_broken : SessionState :=
  {| sessionId := "s2";
     backendConnections := [connection "alpha" Connected broken] |}.

(** A session with a healthy server, a broken one and one that is
    reconnecting. *)
Definition session_mixed : SessionState :=
  {| sessionId := "s3";
     backendConnections :=
       [connection "alpha" Connected healthy;
        connection "beta" Connected broken;
        connection "gamma" Reconnecting healthy] |}.

Definition servers_named (name : string) : SearchQuery :=
  {| query := name; type := TypeServers; server := None; includeSchemas := None |}.

Definition everything_named (name : string) : SearchQuery :=
  {| query := name; type := TypeAll; server := None; includeSchemas := None |}.

Definition sampling_request (id server : string) : PendingRequest :=
  {| req_id := id; req_server := server; req_timestamp := 0; req_params := "{}" |}.

Definition config (name : string) : BackendServerConfig :=
  {| config_name := name; config_url := "http://localhost" |}.

(** A registry with two servers and three pending requests. *)
Definition busy_registry : ServerRegistry :=
  steps (new_ServerRegistry false None)
    [EvAddServer (config "alpha") healthy;
     EvAddServer (config "beta") broken;
     EvIncomingRequest Sampling (sampling_request "r1" "alpha");
     EvIncomingRequest Sampling (sampling_request "r2" "beta");
     EvIncomingRequest Elicitation (sampling_request "r3" "alpha");
     EvNotification "n1";
     EvLog "l1"].

(** The mock API of the tests: one server, [test-server], and one tool,
    [echo]. *)
Definition mock (m : Api.Method) : Completion Json :=
  match m with
  | Api.listServers => Normal "[{name:test-server,status:connected}]"
  | Api.listTools _ => Normal "[{server:test-server,name:echo}]"
  | Api.callTool _ _ args => Normal ("Echo: " ++ default_args args)%string
  | _ => Normal "[]"
  end.

(** A fragment that lets an error of the API escape. *)
Definition await (m : Api.Method) (next : Json -> Api.Script) : Api.Script :=
  Api.Await m (fun outcome =>
    match outcome with
    | Normal v => next v
    | Throw e => Api.Raise e
    end).

(** [for (let i = 0; i < n; i++) { await mcp.listServers(); } rest]. *)
Fixpoint listServers_times (n : nat) (rest : Api.Script) : Api.Script :=
  match n with
  | 0 => rest
  | S n' => await Api.listServers (fun _ => listServers_times n' rest)
  end.

Definition config_with_limit (limit : nat) : Api.SandboxConfig :=
  {| Api.timeoutMs := 30000; Api.maxMcpCalls := limit;
     Api.maxCodeLength := 100000 |}.

(** The fragment of the test "enforces mcp call limit". *)
Definition ten_calls : Api.Script :=
  listServers_times 10 (Api.Return "done").

(** The fragment of the test "allows calls within limit". *)
Definition two_calls : Api.Script :=
  await Api.listServers (fun servers =>
  await (Api.listTools None) (fun tools =>
  Api.Return (servers ++ tools)%string)).

(** The fragment of the test "does not count sleep and log toward
    limit". *)
Definition sleeps_and_logs : Api.Script :=
  await (Api.log ["test1"]) (fun _ =>
  await (Api.sleep 10) (fun _ =>
  await (Api.log ["test2"]) (fun _ =>
  await (Api.sleep 10) (fun _ =>
  await (Api.log ["test3"]) (fun _ =>
  Api.Return "done"))))).

(** Events that deliver two notifications and a log message among
    other calls. *)
Definition traffic : list Event :=
  [EvNotification "n2";
   EvListTools None;
   EvLog "l2";
   EvGetLogCount;
   EvRemoveServer "beta";
   EvNotification "n3"].

End Fixtures.

(* ================================================================== *)
(** * Convenience functions of [search.ts]                             *)
(* ================================================================== *)

Section FindTool.
Context {E : RegExpEngine}.

(** [tools.find((t) => t.name === toolName)], and the result built from
    the tool it finds; the input schema is always included. *)
Definition findNamed (serverName toolName : string) (tools : list Tool)
  : option SearchToolResult :=
  match find (fun t => String.eqb (tool_name t) toolName) tools with
  | Some tool =>
      Some {| tr_server := serverName;
              tr_name := tool_name tool;
              tr_description := tool_description tool;
              tr_inputSchema := Some (tool_inputSchema tool) |}
  | None => None
  end.

(** The loop of [findToolByName]; the [return] inside it leaves the
    loop, so the clients after a hit are not asked. *)
Fixpoint findToolLoop (toolName : string) (clients : list MatchingClient)
  : M Wire (option SearchToolResult) :=
  match clients with
  | [] => ret None
  | mc :: rest =>
      hit <- try_catch
               (tools <- client_listTools (mc_client mc) ;;
                ret (findNamed (mc_name mc) toolName tools))
               (fun _ => (* Skip servers that fail *) ret None) ;;
      match hit with
      | Some result => ret (Some result)
      | None => findToolLoop toolName rest
      end
  end.

(** [findToolByName]; [null] is [None]. *)
Definition findToolByName (session : SessionState) (toolName : string)
    (serverPattern : option string) : M Wire (option SearchToolResult) :=
  findToolLoop toolName (getMatchingClients session serverPattern).
End FindTool.

(* ================================================================== *)
(** * The SSE event store ([SSEEventStore])                            *)
(* ================================================================== *)

(** [ids.sort()]: the default sort of an array of strings, by code
    units; the identifiers are ULIDs, made of ASCII characters. *)
Fixpoint insertSorted (x : string) (l : list string) : list string :=
  match l with
  | [] => [x]
  | y :: l' => if String.leb x y then x :: l else y :: insertSorted x l'
  end.

Definition sortStrings (l : list string) : list string :=
  fold_right insertSorted [] l.

Module EventStore.

Definition StreamId : Type := string.
Definition EventId : Type := string.
Definition JSONRPCMessage : Type := Json.

Record StoredEvent : Type := {
  streamId : StreamId;
  message : JSONRPCMessage;
  createdAt : Z
}.

Record SSEEventStoreConfig : Type := {
  maxEvents : Z;
  retentionMs : Z
}.

Definition DEFAULT_CONFIG : SSEEventStoreConfig :=
  {| maxEvents := 1000; retentionMs := 5 * 60 * 1000 |}.

(** The store, and the calls of the [send] callback of a replay. *)
Record SSEEventStore : Type := {
  events : JsMap.t StoredEvent;
  config : SSEEventStoreConfig;
  delivered : list (EventId * JSONRPCMessage)
}.

Definition with_events (f : JsMap.t StoredEvent -> JsMap.t StoredEvent)
    (s : SSEEventStore) : SSEEventStore :=
  {| events := f (events s); config := config s; delivered := delivered s |}.

Definition with_delivered
    (f : list (EventId * JSONRPCMessage) -> list (EventId * JSONRPCMessage))
    (s : SSEEventStore) : SSEEventStore :=
  {| events := events s; config := config s; delivered := f (delivered s) |}.

(** [new SSEEventStore(config)]: [{ ...DEFAULT_CONFIG, ...config }];
    [None] is an option the caller did not give. *)
Definition new_SSEEventStore (maxEvents' retentionMs' : option Z) : SSEEventStore :=
  {| events := JsMap.empty;
     config :=
       {| maxEvents := match maxEvents' with
                       | Some n => n
                       | None => maxEvents DEFAULT_CONFIG
                       end;
          retentionMs := match retentionMs' with
                         | Some n => n
                         | None => retentionMs DEFAULT_CONFIG
                         end |};
     delivered := [] |}.

(** [sortedIds.slice(0, n)]. *)
Definition slice0 {A : Type} (n : Z) (l : list A) : list A :=
  if (n <? 0)%Z
  then firstn (List.length l - Z.to_nat (- n)) l
  else firstn (Z.to_nat n) l.

(** [enforceLimit]. *)
Definition enforceLimit : M SSEEventStore unit :=
  size <- gets (fun s => Z.of_nat (JsMap.size (events s))) ;;
  limit <- gets (fun s => maxEvents (config s)) ;;
  if (size <=? limit)%Z then ret tt
  else
    sortedIds <- gets (fun s => sortStrings (JsMap.keys (events s))) ;;
    let toDelete := slice0 (size - limit) sortedIds in
    for_of toDelete
      (fun id _ => modify (with_events (JsMap.delete id)))
      tt.

(** [cleanupOldEvents]; [now] is what [Date.now()] returns.  Only the
    entry being visited is deleted, so the loop visits the entries the
    map had when it started. *)
Definition cleanupOldEvents (now : Z) : M SSEEventStore unit :=
  retention <- gets (fun s => retentionMs (config s)) ;;
  let cutoff := (now - retention)%Z in
  entries <- gets events ;;
  for_of entries
    (fun '(eventId, entry) _ =>
       if (createdAt entry <? cutoff)%Z
       then modify (with_events (JsMap.delete eventId))
       else ret tt)
    tt.

(** [storeEvent]; [eventId] is what [ulid()] returns, [now] and [later]
    what [Date.now()] returns here and in [cleanupOldEvents]. *)
Definition storeEvent (eventId : EventId) (now later : Z)
    (stream : StreamId) (msg : JSONRPCMessage) : M SSEEventStore EventId :=
  modify (with_events
            (JsMap.set eventId
               {| streamId := stream; message := msg; createdAt := now |})) ;;;
  enforceLimit ;;;
  cleanupOldEvents later ;;;
  ret eventId.

(** [getStreamIdForEventId]; [undefined] is [None]. *)
Definition getStreamIdForEventId (eventId : EventId)
  : M SSEEventStore (option StreamId) :=
  gets (fun s => option_map streamId (JsMap.get eventId (events s))).

Section Replay.
(** The [send] callback of the transport. *)
Variable send : EventId -> JSONRPCMessage -> Completion unit.

Definition call_send (eventId : EventId) (msg : JSONRPCMessage)
  : M SSEEventStore unit :=
  fun s => (send eventId msg, with_delivered (fun l => l ++ [(eventId, msg)]) s).

(** [replayEventsAfter]; the loop threads [foundStart]. *)
Definition replayEventsAfter (lastEventId : EventId) : M SSEEventStore StreamId :=
  startEntry <- gets (fun s => JsMap.get lastEventId (events s)) ;;
  match startEntry with
  | None => ret EmptyString
  | Some startEntry =>
      let stream := streamId startEntry in
      sortedIds <- gets (fun s => sortStrings (JsMap.keys (events s))) ;;
      for_of sortedIds
        (fun eventId foundStart =>
           if String.eqb eventId lastEventId then ret true
           else if (foundStart : bool) then
             entry <- gets (fun s => JsMap.get eventId (events s)) ;;
             match entry with
             | Some entry =>
                 if String.eqb (streamId entry) stream
                 then call_send eventId (message entry) ;;; ret foundStart
                 else ret foundStart
             | None => ret foundStart
             end
           else ret foundStart)
        false ;;;
      ret stream
  end.
End Replay.

(** [getEventCount]. *)
Definition getEventCount : M SSEEventStore nat :=
  gets (fun s => JsMap.size (events s)).

(** [clear]. *)
Definition clear : M SSEEventStore unit :=
  modify (with_events (fun _ => JsMap.empty)).

End EventStore.

(* ================================================================== *)
(** * More concrete backends and registries                            *)
(* ================================================================== *)

Module Samples.

(** A backend that accepts the connection and rejects every
    enumeration and every disconnect. *)
Definition flaky : Backend :=
  {| on_connect := Normal (Some Fixtures.all_capabilities);
     on_disconnect := Throw Fixtures.unavailable;
     on_listTools := Throw Fixtures.unavailable;
     on_listResources := Throw Fixtures.unavailable;
     on_listResourceTemplates := Throw Fixtures.unavailable;
     on_listPrompts := Throw Fixtures.unavailable;
     on_callTool := fun _ _ => Throw Fixtures.unavailable;
     on_readResource := fun _ => Throw Fixtures.unavailable;
     on_getPrompt := fun _ _ => Throw Fixtures.unavailable |}.

(** [alpha] is healthy, [delta] is connected and flaky. *)
Definition flaky_registry : ServerRegistry :=
  steps (new_ServerRegistry false None)
    [EvAddServer (Fixtures.config "alpha") Fixtures.healthy;
     EvAddServer (Fixtures.config "delta") flaky;
     EvIncomingRequest Sampling (Fixtures.sampling_request "r1" "delta");
     EvNotification "n1"].

End Samples.

(* ================================================================== *)
(** * Vocabulary of the further registry properties                    *)
(* ================================================================== *)

(** The error of a respond or reject that finds no pending request. *)
Definition notPendingMessage (kind : RequestKind) (requestId : string) : string :=
  (kind_name kind ++ " request '" ++ requestId
   ++ "' not found or already completed")%string.

(** The error a request is rejected with when its timer fires. *)
Definition timedOutMessage (kind : RequestKind) (timeout : N) : string :=
  (kind_name kind ++ " request timed out after "
   ++ string_of_N timeout ++ "ms")%string.

Definition other (kind : RequestKind) : RequestKind :=
  match kind with
  | Sampling => Elicitation
  | Elicitation => Sampling
  end.

(** The number of requests the backends sent in a run. *)
Definition received (events : list Event) : nat :=
  List.length
    (filter (fun e => match e with EvIncomingRequest _ _ => true | _ => false end)
       events).

(** Requests held or settled by a registry. *)
Definition accounted (r : ServerRegistry) : nat :=
  List.length (settled r)
  + JsMap.size (pendingSamplingRequests r)
  + JsMap.size (pendingElicitationRequests r).

(** Every client is registered under its own name. *)
Definition names_agree (r : ServerRegistry) : Prop :=
  forall name client, In (name, client) (clients r) -> client_name client = name.

(** The registry once [removeServer] has rejected the pending requests
    of [name], before it disconnects the client. *)
Definition afterRejections (name : string) (r : ServerRegistry) : ServerRegistry :=
  let r1 := with_pending Sampling (filter (fun e => negb (from_server name e)))
              (with_settled
                 (fun l => l ++ disconnections Sampling name (pending Sampling r)) r) in
  with_pending Elicitation (filter (fun e => negb (from_server name e)))
    (with_settled
       (fun l => l ++ disconnections Elicitation name (pending Elicitation r1)) r1).

(** The first client whose disconnect fails, if any. *)
Fixpoint firstFailure (cs : list MCPHttpClient) : option JsError :=
  match cs with
  | [] => None
  | c :: cs' =>
      match on_disconnect (client_backend c) with
      | Throw err => Some err
      | Normal _ => firstFailure cs'
      end
  end.

(** The disconnect request of a client. *)
Definition goodbye (c : MCPHttpClient) : Contact := (client_name c, ReqDisconnect).

(** What a shutdown leaves alone while it disconnects the clients. *)
Definition buffers_view (r : ServerRegistry)
  : list BufferedNotification * list BufferedLog * JsMap.t PendingRequest
    * JsMap.t PendingRequest * list Settlement :=
  (notifications r, logs r, pendingSamplingRequests r,
   pendingElicitationRequests r, settled r).

(* ================================================================== *)
(** * Vocabulary of the properties of [findToolByName]                 *)
(* ================================================================== *)

(** The tool a matching client offers under [toolName]: the first of
    that name in its enumeration, when the enumeration succeeds. *)
Definition offers (toolName : string) (mc : MatchingClient) : option Tool :=
  match tools_of (mc_client mc) with
  | Normal tools => find (fun t => String.eqb (tool_name t) toolName) tools
  | Throw _ => None
  end.

(** The enumeration request a matching client sees. *)
Definition toolRequest (mc : MatchingClient) : Contact :=
  (client_name (mc_client mc), ReqListTools).

(* ================================================================== *)
(** * Vocabulary of the event store properties                         *)
(* ================================================================== *)

(** The order of the event identifiers. *)
Definition id_le (a b : string) : Prop := String.leb a b = true.

(** [a] sorts strictly before [b]. *)
Definition id_lt (a b : string) : Prop := String.leb a b = true /\ a <> b.

(** An entry older than the retention period at time [now]. *)
Definition expired (now : Z) (s : EventStore.SSEEventStore)
    (entry : EventStore.StoredEvent) : bool :=
  (EventStore.createdAt entry
   <? now - EventStore.retentionMs (EventStore.config s))%Z.

(** The calls of [send] a replay of [batch] makes, and the error that
    ends it, if any: the events are sent in order up to and including
    the first one [send] fails on. *)
Fixpoint attempts
    (send : EventStore.EventId -> EventStore.JSONRPCMessage -> Completion unit)
    (batch : list (EventStore.EventId * EventStore.JSONRPCMessage))
  : list (EventStore.EventId * EventStore.JSONRPCMessage) * option JsError :=
  match batch with
  | [] => ([], None)
  | (eventId, msg) :: rest =>
      match send eventId msg with
      | Normal _ =>
          let (sent, failure) := attempts send rest in
          ((eventId, msg) :: sent, failure)
      | Throw err => ([(eventId, msg)], Some err)
      end
  end.

(** The events of stream [stream] stored under an identifier that sorts
    strictly after [lastEventId], in ascending order of identifier. *)
Definition eventsAfter (lastEventId : EventStore.EventId)
    (stream : EventStore.StreamId) (s : EventStore.SSEEventStore)
    (batch : list (EventStore.EventId * EventStore.JSONRPCMessage)) : Prop :=
  StronglySorted id_lt (map fst batch)
  /\ forall eventId msg,
       In (eventId, msg) batch
       <-> id_lt lastEventId eventId
           /\ exists entry,
                JsMap.get eventId (EventStore.events s) = Some entry
                /\ EventStore.streamId entry = stream
                /\ EventStore.message entry = msg.

(** A store with four events on two streams. *)
Definition sample_store : EventStore.SSEEventStore :=
  EventStore.with_events
    (fun _ =>
       [("01B", {| EventStore.streamId := "s1"; EventStore.message := "second";
                   EventStore.createdAt := 200 |});
        ("01A", {| EventStore.streamId := "s1"; EventStore.message := "first";
                   EventStore.createdAt := 100 |});
        ("01C", {| EventStore.streamId := "s2"; EventStore.message := "other";
                   EventStore.createdAt := 300 |});
        ("01D", {| EventStore.streamId := "s1"; EventStore.message := "third";
                   EventStore.createdAt := 400 |})])
    (EventStore.new_SSEEventStore (Some 3%Z) (Some 250%Z)).

(** A session whose first server fails every enumeration and whose
    second and third servers both list the tool [echo]. *)
Definition session_broken_first : SessionState :=
  {| sessionId := "s4";
     backendConnections :=
       [Fixtures.connection "beta" Connected Fixtures.broken;
        Fixtures.connection "alpha" Connected Fixtures.healthy;
        Fixtures.connection "gamma" Connected Fixtures.healthy] |}.

(** The map once the entries under [ids] have been deleted one by one. *)
Definition evictAll {V : Type} (ids : list string) (m : JsMap.t V) : JsMap.t V :=
  fold_left (fun m id => JsMap.delete id m) ids m.

(** The events of [stream] stored under the identifiers [ids], in the
    order of [ids]. *)
Definition sameStream (stream : EventStore.StreamId)
    (s : EventStore.SSEEventStore) (ids : list EventStore.EventId)
  : list (EventStore.EventId * EventStore.JSONRPCMessage) :=
  flat_map
    (fun id =>
       match JsMap.get id (EventStore.events s) with
       | Some entry =>
           if String.eqb (EventStore.streamId entry) stream
           then [(id, EventStore.message entry)]
           else []
       | None => []
       end)
    ids.

(** A transport that accepts every event. *)
Definition accepting (_ : EventStore.EventId) (_ : EventStore.JSONRPCMessage)
  : Completion unit :=
  Normal tt.

(** A transport that is closed when it is handed the event [id]. *)
Definition closedAt (id : EventStore.EventId) (eventId : EventStore.EventId)
    (_ : EventStore.JSONRPCMessage) : Completion unit :=
  if String.eqb eventId id then Throw (Error "stream closed") else Normal tt.

(* ================================================================== *)
(** * Vocabulary of the properties of [listAllCapabilities]            *)
(* ================================================================== *)

(** A text that is there and is not empty. *)
Definition present (text : option string) : Prop :=
  exists t, text = Some t /\ t <> EmptyString.

(** The query of [listAllCapabilities]. *)
Definition everything : SearchQuery :=
  {| query := ".*"; type := TypeAll; Search.server := None;
     includeSchemas := Some false |}.

(** A coarse engine: every source compiles, to a regex that matches
    every text.  It agrees with JavaScript on the source [.*]. *)
Definition permissive : RegExpEngine :=
  {| RegExp := unit;
     newRegExp_i := fun _ => Some tt;
     test := fun _ _ => true;
     toLowerCase := asciiLowerCase;
     empty_source := ex_intro _ tt (conj eq_refl (fun _ => eq_refl));
     toLowerCase_ascii := fun _ _ => eq_refl |}.

(** A tool without a name and without a description. *)
Definition unnamed : Tool :=
  {| tool_name := EmptyString;
     tool_description := None;
     tool_inputSchema := "{}" |}.

(** A backend that lists [echo] and the unnamed tool. *)
Definition anonymous : Backend :=
  {| on_connect := Normal (Some Fixtures.all_capabilities);
     on_disconnect := Normal tt;
     on_listTools := Normal [unnamed; Fixtures.echo];
     on_listResources := Normal [Fixtures.test_txt];
     on_listResourceTemplates := Normal [];
     on_listPrompts := Normal [];
     on_callTool := fun _ args => Normal args;
     on_readResource := fun _ => Normal "Test content";
     on_getPrompt := fun _ _ => Normal "Test prompt" |}.

Definition session_anonymous : SessionState :=
  {| sessionId := "s5";
     backendConnections :=
       [Fixtures.connection "alpha" Connected anonymous;
        Fixtures.connection "gamma" Reconnecting Fixtures.healthy] |}.

(* ================================================================== *)
(** * The event store as a state machine                               *)
(* ================================================================== *)

(** The calls a transport makes on its event store. *)
Inductive StoreCall : Type :=
| CallStoreEvent (eventId : EventStore.EventId) (now later : Z)
    (stream : EventStore.StreamId) (msg : EventStore.JSONRPCMessage)
| CallReplayEventsAfter
    (send : EventStore.EventId -> EventStore.JSONRPCMessage -> Completion unit)
    (lastEventId : EventStore.EventId)
| CallGetStreamIdForEventId (eventId : EventStore.EventId)
| CallGetEventCount
| CallClear.

Definition storeCall (s : EventStore.SSEEventStore) (c : StoreCall)
  : EventStore.SSEEventStore :=
  match c with
  | CallStoreEvent eventId now later stream msg =>
      snd (EventStore.storeEvent eventId now later stream msg s)
  | CallReplayEventsAfter send lastEventId =>
      snd (EventStore.replayEventsAfter send lastEventId s)
  | CallGetStreamIdForEventId eventId =>
      snd (EventStore.getStreamIdForEventId eventId s)
  | CallGetEventCount => snd (EventStore.getEventCount s)
  | CallClear => snd (EventStore.clear s)
  end.

Definition storeCalls (s : EventStore.SSEEventStore) (cs : list StoreCall)
  : EventStore.SSEEventStore :=
  fold_left storeCall cs s.

(* ================================================================== *)
(** * Vocabulary of the query properties                               *)
(* ================================================================== *)

(** The pattern that matches the characters of [s] one after the
    other. *)
Definition literal (s : string) : Ecma.regex :=
  Ecma.seq_of (map Ecma.Char (list_ascii_of_string s)).

(** Do the code units begin with the characters of [needle], the case
    of ASCII letters apart? *)
Fixpoint startsWithIgnoringCase (needle : string) (units : list Ecma.CodeUnit)
  : bool :=
  match needle, units with
  | EmptyString, _ => true
  | String _ _, [] => false
  | String c needle', u :: units' =>
      Ecma.char_matches c u && startsWithIgnoringCase needle' units'
  end.

(** Do the code units hold the characters of [needle] in a row, the
    case of ASCII letters apart? *)
Fixpoint includesIgnoringCase (needle : string) (units : list Ecma.CodeUnit)
  : bool :=
  startsWithIgnoringCase needle units
  || match units with
     | [] => false
     | _ :: units' => includesIgnoringCase needle units'
     end.

(** What [search] does with a regex. *)
Definition searchWith {E : RegExpEngine} (q : SearchQuery)
    (session : SessionState) (w : Wire) (regex : RegExp)
  : Completion SearchResult * Wire :=
  (Normal (searchOutcome q session regex), w ++ searchContacts q session).

(** A tool whose name does not compile as a regex. *)
Definition cxx : Tool :=
  {| tool_name := "c++";
     tool_description := Some "Compile a C++ file";
     tool_inputSchema := "{}" |}.

(** A backend that lists [cxx] and [echo]. *)
Definition toolchain : Backend :=
  {| on_connect := Normal (Some Fixtures.all_capabilities);
     on_disconnect := Normal tt;
     on_listTools := Normal [cxx; Fixtures.echo];
     on_listResources := Normal [];
     on_listResourceTemplates := Normal [];
     on_listPrompts := Normal [];
     on_callTool := fun _ args => Normal args;
     on_readResource := fun _ => Normal "Test content";
     on_getPrompt := fun _ _ => Normal "Test prompt" |}.

Definition session_toolchain : SessionState :=
  {| sessionId := "s6";
     backendConnections := [Fixtures.connection "alpha" Connected toolchain] |}.

Definition tools_named (name : string) : SearchQuery :=
  {| query := name; type := TypeTools; Search.server := None;
     includeSchemas := None |}.

(* ================================================================== *)
(** * Facts: the monad and the maps                                    *)
(* ================================================================== *)

Lemma bind_ret_l {S A B : Type} (a : A) (k : A -> M S B) (s : S) :
  bind (ret a) k s = k a s.
Proof. reflexivity. Qed.

Lemma bind_normal {S A B : Type} (m : M S A) (k : A -> M S B) (s s' : S) (a : A) :
  m s = (Normal a, s') -> bind m k s = k a s'.
Proof. intros Hm. unfold bind. rewrite Hm. reflexivity. Qed.

Lemma bind_throw {S A B : Type} (m : M S A) (k : A -> M S B) (s s' : S) (e : JsError) :
  m s = (Throw e, s') -> bind m k s = (Throw e, s').
Proof. intros Hm. unfold bind. rewrite Hm. reflexivity. Qed.

(** A loop whose body never throws and does not touch the state is a
    left fold. *)
Lemma for_of_pure {S A B : Type} (f : A -> B -> B) (body : A -> B -> M S B)
    (xs : list A) :
  (forall x acc s, body x acc s = (Normal (f x acc), s)) ->
  forall acc s,
    for_of xs body acc s = (Normal (fold_left (fun acc x => f x acc) xs acc), s).
Proof.
  intros Hbody. induction xs as [|x xs IH]; intros acc s; simpl.
  - reflexivity.
  - unfold bind. rewrite Hbody. apply IH.
Qed.

Lemma fold_left_push {A B : Type} (f : A -> B) (xs : list A) (acc : list B) :
  fold_left (fun acc x => acc ++ [f x]) xs acc = acc ++ map f xs.
Proof.
  revert acc. induction xs as [|x xs IH]; intros acc; simpl.
  - now rewrite app_nil_r.
  - rewrite IH, <- app_assoc. reflexivity.
Qed.

Lemma fold_left_push_if {A B : Type} (keep : A -> bool) (f : A -> B)
    (xs : list A) (acc : list B) :
  fold_left (fun acc x => if keep x then acc ++ [f x] else acc) xs acc
  = acc ++ map f (filter keep xs).
Proof.
  revert acc. induction xs as [|x xs IH]; intros acc; simpl.
  - now rewrite app_nil_r.
  - rewrite IH. destruct (keep x); simpl.
    + now rewrite <- app_assoc.
    + reflexivity.
Qed.

Module JsMapFacts.
Section Facts.
Context {V : Type}.
Implicit Types (m : JsMap.t V) (k : string) (v : V).

Lemma has_get k m : JsMap.has k m = true <-> exists v, JsMap.get k m = Some v.
Proof.
  unfold JsMap.has. destruct (JsMap.get k m) as [v|].
  - split; [eauto | reflexivity].
  - split; [discriminate | intros [v Hv]; discriminate].
Qed.

Lemma get_set_same k v m : JsMap.get k (JsMap.set k v m) = Some v.
Proof.
  induction m as [|[k' v'] m IH]; simpl.
  - now rewrite String.eqb_refl.
  - destruct (String.eqb k' k) eqn:Hk; simpl.
    + now rewrite String.eqb_refl.
    + now rewrite Hk.
Qed.

Lemma get_set_other k k' v m :
  k' <> k -> JsMap.get k' (JsMap.set k v m) = JsMap.get k' m.
Proof.
  intros Hne. induction m as [|[k0 v0] m IH]; simpl.
  - destruct (String.eqb_spec k k'); [congruence | reflexivity].
  - destruct (String.eqb_spec k0 k) as [->|Hk0]; simpl.
    + destruct (String.eqb_spec k k'); [congruence | reflexivity].
    + destruct (String.eqb_spec k0 k'); [reflexivity | exact IH].
Qed.

Lemma has_set_same k v m : JsMap.has k (JsMap.set k v m) = true.
Proof. unfold JsMap.has. now rewrite get_set_same. Qed.

Lemma get_In k v m : JsMap.get k m = Some v -> In (k, v) m.
Proof.
  induction m as [|[k' v'] m IH]; simpl; [discriminate|].
  destruct (String.eqb_spec k' k) as [->|Hne].
  - intros [= ->]. now left.
  - intros Hg. right. auto.
Qed.

Lemma get_None_notin k m : JsMap.get k m = None -> ~ In k (JsMap.keys m).
Proof.
  induction m as [|[k' v'] m IH]; simpl; [tauto|].
  destruct (String.eqb_spec k' k) as [->|Hne]; [discriminate|].
  intros Hg [Heq|Hin]; [congruence | now apply IH].
Qed.

Lemma In_get k v m : JsMap.wf m -> In (k, v) m -> JsMap.get k m = Some v.
Proof.
  unfold JsMap.wf. induction m as [|[k' v'] m IH]; simpl; [tauto|].
  intros Hnd [Heq|Hin].
  - injection Heq as -> ->. now rewrite String.eqb_refl.
  - inversion Hnd as [|? ? Hnotin Hnd']; subst.
    destruct (String.eqb_spec k' k) as [->|Hne].
    + exfalso. apply Hnotin. change k with (fst (k, v)). now apply in_map.
    + auto.
Qed.

Lemma keys_set k v m :
  JsMap.keys (JsMap.set k v m)
  = if JsMap.has k m then JsMap.keys m else JsMap.keys m ++ [k].
Proof.
  unfold JsMap.has. induction m as [|[k' v'] m IH]; simpl; [reflexivity|].
  destruct (String.eqb_spec k' k) as [->|Hne]; simpl; [reflexivity|].
  rewrite IH. now destruct (JsMap.get k m).
Qed.

Lemma wf_set k v m : JsMap.wf m -> JsMap.wf (JsMap.set k v m).
Proof.
  unfold JsMap.wf. intros Hnd. rewrite keys_set.
  destruct (JsMap.has k m) eqn:Hhas; [exact Hnd|].
  apply NoDup_app; [exact Hnd | repeat constructor; simpl; tauto |].
  intros x Hin [Hx|[]]. subst x.
  unfold JsMap.has in Hhas. destruct (JsMap.get k m) eqn:Hg; [discriminate|].
  eapply get_None_notin; eauto.
Qed.

Lemma keys_delete k m :
  JsMap.keys (JsMap.delete k m)
  = filter (fun k' => negb (String.eqb k' k)) (JsMap.keys m).
Proof.
  unfold JsMap.delete, JsMap.keys. induction m as [|[k' v'] m IH]; simpl.
  - reflexivity.
  - destruct (String.eqb k' k); simpl; now rewrite IH.
Qed.

Lemma wf_delete k m : JsMap.wf m -> JsMap.wf (JsMap.delete k m).
Proof.
  unfold JsMap.wf. rewrite keys_delete. apply NoDup_filter.
Qed.

Lemma get_delete_same k m : JsMap.get k (JsMap.delete k m) = None.
Proof.
  unfold JsMap.delete. induction m as [|[k' v'] m IH]; simpl; [reflexivity|].
  destruct (String.eqb k' k) eqn:Hk; simpl; [exact IH | now rewrite Hk].
Qed.

Lemma wf_empty : JsMap.wf (@JsMap.empty V).
Proof. constructor. Qed.

End Facts.
End JsMapFacts.

(* ================================================================== *)
(** * Facts: query matching                                            *)
(* ================================================================== *)

(** Every character the code escapes may be escaped: the grammar reads
    the escape as the character itself. *)
Lemma escaped_is_identity_escape (c : ascii) :
  is_syntax_character c = true -> Ecma.SyntaxCharacter c = true.
Proof.
  destruct c as [[] [] [] [] [] [] [] []]; intros H; try discriminate H;
    reflexivity.
Qed.

(** Every character the code leaves alone is read as itself. *)
Lemma unescaped_is_pattern_character (c : ascii) (stack : list Ecma.Frame)
    (cur : Ecma.Frame) (rest : string) :
  is_syntax_character c = false ->
  Ecma.parse_from stack cur (String c rest)
  = Ecma.parse_from stack (Ecma.push (Ecma.Char c) Ecma.Atom cur) rest.
Proof.
  destruct c as [[] [] [] [] [] [] [] []]; intros H; try discriminate H;
    reflexivity.
Qed.

Lemma parse_escaped (q : string) :
  forall (stack : list Ecma.Frame) (cur : Ecma.Frame),
    Ecma.parse_from stack cur (escapeRegExp q)
    = Ecma.parse_from stack
        (fold_left (fun f c => Ecma.push (Ecma.Char c) Ecma.Atom f)
           (list_ascii_of_string q) cur)
        EmptyString.
Proof.
  induction q as [|c q IH]; intros stack cur; [reflexivity|].
  cbn [escapeRegExp list_ascii_of_string fold_left].
  destruct (is_syntax_character c) eqn:Hc.
  - cbn [Ecma.parse_from]. rewrite Ascii.eqb_refl.
    rewrite escaped_is_identity_escape by exact Hc. cbn [orb]. apply IH.
  - rewrite unescaped_is_pattern_character by exact Hc. apply IH.
Qed.

Lemma pushed_terms (cs : list ascii) (f : Ecma.Frame) :
  let f' := fold_left (fun f c => Ecma.push (Ecma.Char c) Ecma.Atom f) cs f in
  Ecma.finished f' = Ecma.finished f
  /\ Ecma.terms f' = rev (map Ecma.Char cs) ++ Ecma.terms f.
Proof.
  revert f. induction cs as [|c cs IH]; intros f; cbn [fold_left map rev].
  - split; reflexivity.
  - destruct (IH (Ecma.push (Ecma.Char c) Ecma.Atom f)) as [Hf Ht].
    cbv zeta in *. rewrite Hf, Ht. cbn [Ecma.push Ecma.finished Ecma.terms].
    split; [reflexivity|]. now rewrite <- app_assoc.
Qed.

Lemma escapeRegExp_ascii (q : string) :
  is_ascii q = true -> is_ascii (escapeRegExp q) = true.
Proof.
  induction q as [|c q IH]; [reflexivity|]. cbn [is_ascii escapeRegExp].
  intros H. apply andb_true_iff in H. destruct H as [Hc Hq].
  destruct (is_syntax_character c); cbn [is_ascii];
    rewrite Hc, IH by exact Hq; reflexivity.
Qed.

(** After escaping, every character of the query stands for itself. *)
Lemma parse_escapeRegExp (q : string) :
  is_ascii q = true -> Ecma.parse (escapeRegExp q) = Ecma.Pattern (literal q).
Proof.
  intros Hq. unfold Ecma.parse. rewrite escapeRegExp_ascii by exact Hq.
  rewrite parse_escaped. cbn [Ecma.parse_from]. f_equal.
  unfold Ecma.close, Ecma.alternative.
  destruct (pushed_terms (list_ascii_of_string q) Ecma.start_frame) as [Hf Ht].
  cbv zeta in *. rewrite Hf, Ht.
  cbn [Ecma.start_frame Ecma.finished Ecma.terms fold_left].
  now rewrite app_nil_r, rev_involutive.
Qed.

Lemma run_literal (q : string) :
  forall (at_start : bool) (units : list Ecma.CodeUnit),
    Ecma.run (literal q) at_start units Ecma.accept
    = startsWithIgnoringCase q units.
Proof.
  unfold literal. induction q as [|c q IH]; intros at_start units.
  - destruct units; reflexivity.
  - cbn [list_ascii_of_string map Ecma.seq_of fold_right Ecma.run].
    destruct units as [|u units]; [reflexivity|].
    cbn [startsWithIgnoringCase]. f_equal. apply IH.
Qed.

Lemma scan_literal (q : string) (units : list Ecma.CodeUnit) :
  Ecma.scan (literal q) units
  = match units with
    | [] => false
    | _ :: units' => includesIgnoringCase q units'
    end.
Proof.
  induction units as [|u units IH]; [reflexivity|].
  cbn [Ecma.scan]. rewrite run_literal, IH.
  destruct units; reflexivity.
Qed.

Lemma find_literal (q text : string) :
  Ecma.find (literal q) text = includesIgnoringCase q (Ecma.codeUnits text).
Proof.
  unfold Ecma.find. cbv zeta. rewrite run_literal, scan_literal.
  destruct (Ecma.codeUnits text); reflexivity.
Qed.

Lemma toLowerCase_eqb {E : RegExpEngine} (a b : string) :
  String.eqb (toLowerCase a) (toLowerCase b) = true
  <-> toLowerCase a = toLowerCase b.
Proof. apply String.eqb_eq. Qed.

(** C6. A server pattern is a case-insensitive regular expression when
    it compiles, and otherwise matches exactly the names equal to it
    after lower-casing both sides, whatever [toLowerCase] does to
    them.  Nothing is escaped and retried: with the pattern [a(], which
    does not compile, the server [xa(y] is not matched, while the query
    path would escape the pattern and find it in that name. *)
Theorem server_filter_regex_or_equality :
  (forall (E : RegExpEngine) (serverName pattern : string),
      matchesServerFilter serverName (Some pattern)
      = match newRegExp_i pattern with
        | Some regex => test regex serverName
        | None => String.eqb (toLowerCase serverName) (toLowerCase pattern)
        end)
  /\ (forall (E : RegExpEngine) (serverName pattern : string),
         newRegExp_i pattern = None ->
         (matchesServerFilter serverName (Some pattern) = true
          <-> toLowerCase serverName = toLowerCase pattern))
  /\ (forall (E : RegExpEngine) (serverName pattern : string),
         newRegExp_i pattern = None ->
         is_ascii serverName = true ->
         is_ascii pattern = true ->
         (matchesServerFilter serverName (Some pattern) = true
          <-> asciiLowerCase serverName = asciiLowerCase pattern))
  /\ (let E := Ecma.engine Ecma.nothing_outside in
      newRegExp_i "a(" = None
      /\ matchesServerFilter "xa(y" (Some "a(") = false
      /\ matchesServerFilter "A(" (Some "a(") = true
      /\ exists r, createQueryRegex "a(" = Some r /\ test r "xa(y" = true).
Proof.
  assert (Heq : forall (E : RegExpEngine) (serverName pattern : string),
      matchesServerFilter serverName (Some pattern)
      = match newRegExp_i pattern with
        | Some regex => test regex serverName
        | None => String.eqb (toLowerCase serverName) (toLowerCase pattern)
        end).
  { intros E serverName pattern. destruct pattern as [|c p]; [|reflexivity].
    simpl. destruct (@empty_source E) as [r [Hr Hall]].
    rewrite Hr. symmetry. apply Hall. }
  split; [exact Heq|]. split; [|split].
  - intros E serverName pattern Hnone. rewrite Heq, Hnone.
    apply toLowerCase_eqb.
  - intros E serverName pattern Hnone Hname Hpattern. rewrite Heq, Hnone.
    rewrite !toLowerCase_ascii by assumption. apply String.eqb_eq.
  - cbv zeta. split; [reflexivity|]. split; [reflexivity|].
    split; [reflexivity|]. eexists. split; reflexivity.
Qed.

Lemma server_filter_regex_or_equality_witness :
  let E := Ecma.engine Ecma.nothing_outside in
  matchesServerFilter "Alpha-1" (Some "alpha")
  = match newRegExp_i "alpha" with
    | Some regex => test regex "Alpha-1"
    | None => String.eqb (toLowerCase "Alpha-1") (toLowerCase "alpha")
    end
  /\ matchesServerFilter "Alpha-1" (Some "alpha") = true
  /\ newRegExp_i "ALPHA(" = None
  /\ is_ascii "alpha(" = true
  /\ is_ascii "ALPHA(" = true
  /\ matchesServerFilter "alpha" (Some "ALPHA(") = false
  /\ matchesServerFilter "alpha(" (Some "ALPHA(") = true.
Proof.
  cbv zeta. split.
  - apply (proj1 server_filter_regex_or_equality).
  - split; [reflexivity|]. split; [reflexivity|]. split; [reflexivity|].
    split; [reflexivity|]. split; [reflexivity|].
    apply (proj1 (proj2 (proj2 server_filter_regex_or_equality))
             (Ecma.engine Ecma.nothing_outside) "alpha(" "ALPHA(");
      reflexivity.
Defined.

(* ================================================================== *)
(** * Facts: the registry                                              *)
(* ================================================================== *)

Lemma startsWith_append (n b : string) : startsWith n (n ++ b)%string = true.
Proof.
  induction n as [|c n IH]; simpl.
  - reflexivity.
  - now rewrite Ascii.eqb_refl, IH.
Qed.

Lemma includes_startsWith (n h : string) :
  startsWith n h = true -> includes n h = true.
Proof. intros Hp. destruct h; simpl; rewrite Hp; reflexivity. Qed.

Lemma includes_append_l (n a h : string) :
  includes n h = true -> includes n (a ++ h)%string = true.
Proof.
  intros Hh. induction a as [|c a IH]; simpl; [exact Hh|].
  rewrite IH. apply orb_true_r.
Qed.

(** A message built around a name names it. *)
Lemma includes_infix (before name after : string) :
  includes name (before ++ name ++ after)%string = true.
Proof. apply includes_append_l, includes_startsWith, startsWith_append. Qed.

Lemma getConnectedClient_refuses (r : ServerRegistry) (name msg : string) :
  refusal r name = Some msg ->
  getConnectedClient name r = (Throw (Error msg), r).
Proof.
  unfold refusal, getConnectedClient, bind, gets.
  destruct (JsMap.get name (clients r)) as [client|].
  - destruct (isConnected client); [discriminate|]. now intros [= <-].
  - now intros [= <-].
Qed.

Lemma getConnectedClient_accepts (r : ServerRegistry) (name : string)
    (client : MCPHttpClient) :
  JsMap.get name (clients r) = Some client ->
  isConnected client = true ->
  getConnectedClient name r = (Normal client, r).
Proof.
  intros Hget Hconn. unfold getConnectedClient, bind, gets.
  now rewrite Hget, Hconn.
Qed.

Lemma refusal_names_server (r : ServerRegistry) (name msg : string) :
  refusal r name = Some msg -> includes name msg = true.
Proof.
  unfold refusal. destruct (JsMap.get name (clients r)) as [client|].
  - destruct (isConnected client); [discriminate|]. intros [= <-].
    apply (includes_infix "Server '" name "' is not connected").
  - intros [= <-]. apply (includes_infix "Server '" name "' not found").
Qed.

(** A server is refused exactly when it is absent or not connected. *)
Lemma refusal_iff (r : ServerRegistry) (name : string) :
  (exists msg, refusal r name = Some msg)
  <-> (JsMap.get name (clients r) = None
       \/ exists client, JsMap.get name (clients r) = Some client
                         /\ client_status client <> Connected).
Proof.
  unfold refusal, isConnected.
  destruct (JsMap.get name (clients r)) as [client|].
  - destruct (status_eqb (client_status client) Connected) eqn:Hs.
    + split.
      * intros [msg [=]].
      * intros [[=] | [c [[= <-] Hne]]].
        destruct (client_status client); simpl in Hs; congruence.
    + split.
      * intros _. right. exists client. split; [reflexivity|].
        intros Heq. rewrite Heq in Hs. discriminate.
      * intros _. eexists. reflexivity.
  - split; [intros _; now left | intros _; eexists; reflexivity].
Qed.

(** C7. A targeted operation on a server that is absent from the
    registry or whose client is not connected throws an error whose
    message names the server, and leaves the registry as it was: nothing
    is put on the wire. *)
Theorem targeted_operation_refused (r : ServerRegistry) (name : string) :
  (JsMap.get name (clients r) = None
   \/ exists client, JsMap.get name (clients r) = Some client
                     /\ client_status client <> Connected) ->
  exists msg,
    includes name msg = true
    /\ (forall tool args, executeTool name tool args r = (Throw (Error msg), r))
    /\ (forall uri, readResource name uri r = (Throw (Error msg), r))
    /\ (forall prompt args, getPrompt name prompt args r = (Throw (Error msg), r))
    /\ listTools (Some name) r = (Throw (Error msg), r)
    /\ listResources (Some name) r = (Throw (Error msg), r)
    /\ listResourceTemplates (Some name) r = (Throw (Error msg), r)
    /\ listPrompts (Some name) r = (Throw (Error msg), r)
    /\ (forall tool args, wire (after (executeTool name tool args) r) = wire r)
    /\ (forall uri, wire (after (readResource name uri) r) = wire r)
    /\ (forall prompt args, wire (after (getPrompt name prompt args) r) = wire r).
Proof.
  intros Hbad. apply refusal_iff in Hbad. destruct Hbad as [msg Hmsg].
  pose proof (getConnectedClient_refuses _ _ Hmsg) as Hthrow.
  exists msg. split; [eapply refusal_names_server; eauto|].
  unfold executeTool, readResource, getPrompt,
    listTools, listResources, listResourceTemplates, listPrompts, listFrom.
  repeat split; intros; unfold after, bind; rewrite Hthrow; reflexivity.
Qed.

(** [beta] failed to connect and [gamma] was never added. *)
Lemma targeted_operation_refused_witness :
  (exists client,
      JsMap.get "beta" (clients Fixtures.busy_registry) = Some client
      /\ client_status client = ErrorStatus)
  /\ JsMap.get "gamma" (clients Fixtures.busy_registry) = None
  /\ (exists msg,
        includes "beta" msg = true
        /\ executeTool "beta" "echo" None Fixtures.busy_registry
           = (Throw (Error msg), Fixtures.busy_registry))
  /\ (exists msg,
        includes "gamma" msg = true
        /\ listTools (Some "gamma") Fixtures.busy_registry
           = (Throw (Error msg), Fixtures.busy_registry)).
Proof.
  split; [eexists; split; reflexivity|]. split; [reflexivity|]. split.
  - destruct (targeted_operation_refused Fixtures.busy_registry "beta")
      as [msg [Hnames [Hexecute _]]].
    + right. eexists. split; [reflexivity | discriminate].
    + exists msg. split; [exact Hnames | apply Hexecute].
  - destruct (targeted_operation_refused Fixtures.busy_registry "gamma")
      as [msg [Hnames [_ [_ [_ [Hlist _]]]]]].
    + left. reflexivity.
    + exists msg. split; [exact Hnames | exact Hlist].
Defined.

Lemma update_client_present (c : MCPHttpClient) (r : ServerRegistry) :
  JsMap.has (client_name c) (clients r) = true ->
  update_client c r = (Normal tt, with_clients (JsMap.set (client_name c) c) r).
Proof.
  intros Hhas. unfold update_client, modify, with_clients.
  rewrite Hhas. reflexivity.
Qed.

Lemma handleStatusChange_normal (name status : string) (err : option string)
    (r : ServerRegistry) :
  exists r', handleStatusChange name status err r = (Normal tt, r')
             /\ clients r' = clients r
             /\ wire r' = wire r
             /\ (forall e, err = Some e ->
                   console r' = console r
                     ++ [("[" ++ name ++ "] " ++ status ++ ": " ++ e)%string]).
Proof.
  unfold handleStatusChange, bind, gets, modify, ret.
  destruct (onServerStatusChange r);
    [destruct (JsMap.get name (clients r))|];
    destruct err as [e|]; simpl; eexists; repeat split;
    intros ? [=]; subst; reflexivity.
Qed.

(** C10. [addServer] throws "Server '<name>' already exists" exactly
    when the name is registered, and then leaves the registry as it
    was.  Otherwise it returns normally and the name is registered
    afterwards, also when the connect failed: the client then stays in
    the registry with the error status. *)
Theorem addServer_registers (config : BackendServerConfig) (backend : Backend)
    (r : ServerRegistry) :
  let name := config_name config in
  (JsMap.has name (clients r) = true ->
   addServer config backend r
   = (Throw (Error ("Server '" ++ name ++ "' already exists")%string), r))
  /\ (JsMap.has name (clients r) = false ->
      exists r',
        addServer config backend r = (Normal tt, r')
        /\ hasServer name r' = (Normal true, r')
        /\ (forall err, on_connect backend = Throw err ->
              exists client,
                JsMap.get name (clients r') = Some client
                /\ client_status client = ErrorStatus)
        /\ (forall caps, on_connect backend = Normal caps ->
              exists client,
                JsMap.get name (clients r') = Some client
                /\ client_status client = Connected)).
Proof.
  cbv zeta. split.
  - intros Hhas. unfold addServer, bind, gets. rewrite Hhas. reflexivity.
  - intros Hfresh. unfold addServer, bind at 1, gets. rewrite Hfresh.
    set (client := new_MCPHttpClient config backend).
    set (name := config_name config).
    set (r1 := with_clients (JsMap.set name client) r).
    set (r2 := send (client_name client, ReqConnect) r1).
    assert (Hhas2 : forall c, client_name c = name ->
              JsMap.has (client_name c) (clients r2) = true).
    { intros c ->. apply JsMapFacts.has_set_same. }
    unfold bind, modify. fold r1.
    unfold try_catch, client_connect, try_catch, bind, request. fold r2.
    change (client_backend client) with backend.
    destruct (on_connect backend) as [caps|err] eqn:Hconn.
    + rewrite update_client_present by (apply Hhas2; reflexivity).
      eexists. split; [reflexivity|]. split.
      * unfold hasServer, gets. cbn [with_clients clients].
        change (client_name _) with name.
        rewrite JsMapFacts.has_set_same. reflexivity.
      * split; [intros ? [=]|]. intros caps' _.
        eexists. split.
        -- cbn [with_clients clients]. change (client_name _) with name.
           apply JsMapFacts.get_set_same.
        -- reflexivity.
    + rewrite update_client_present by (apply Hhas2; reflexivity).
      unfold throw.
      set (r3 := with_clients _ r2).
      destruct (handleStatusChange_normal name "error" (Some (message err)) r3)
        as [r' [Hrun [Hclients [_ Hconsole]]]].
      rewrite Hrun. exists r'. split; [reflexivity|]. split.
      * unfold hasServer, gets. rewrite Hclients. unfold r3.
        cbn [with_clients clients]. change (client_name _) with name.
        rewrite JsMapFacts.has_set_same. reflexivity.
      * split; [|intros ? [=]]. intros err' [= <-].
        eexists. split.
        -- rewrite Hclients. unfold r3. cbn [with_clients clients].
           change (client_name _) with name. apply JsMapFacts.get_set_same.
        -- reflexivity.
Qed.

(** [alpha] is registered already; [gamma] is new and its backend
    refuses the connection. *)
Lemma addServer_registers_witness :
  JsMap.has "alpha" (clients Fixtures.busy_registry) = true
  /\ addServer (Fixtures.config "alpha") Fixtures.healthy Fixtures.busy_registry
     = (Throw (Error "Server 'alpha' already exists"), Fixtures.busy_registry)
  /\ JsMap.has "gamma" (clients Fixtures.busy_registry) = false
  /\ (exists r',
        addServer (Fixtures.config "gamma") Fixtures.broken Fixtures.busy_registry
        = (Normal tt, r')
        /\ hasServer "gamma" r' = (Normal true, r')).
Proof.
  split; [reflexivity|]. split; [|split; [reflexivity|]].
  - apply (proj1 (addServer_registers (Fixtures.config "alpha") Fixtures.healthy
                    Fixtures.busy_registry)).
    reflexivity.
  - destruct (proj2 (addServer_registers (Fixtures.config "gamma") Fixtures.broken
                       Fixtures.busy_registry) eq_refl)
      as [r' [Hrun [Hhas _]]].
    exists r'. split; assumption.
Defined.

(* ================================================================== *)
(** * Facts: invariants kept by a computation                          *)
(* ================================================================== *)

Section Maintains.
Context {S : Type} (I : S -> Prop).

Lemma maintains_ret {A : Type} (a : A) : maintains I (ret a).
Proof. intros s Hs. exact Hs. Qed.

Lemma maintains_throw {A : Type} (e : JsError) : maintains I (@throw S A e).
Proof. intros s Hs. exact Hs. Qed.

Lemma maintains_gets {A : Type} (f : S -> A) : maintains I (gets f).
Proof. intros s Hs. exact Hs. Qed.

Lemma maintains_modify (f : S -> S) :
  (forall s, I s -> I (f s)) -> maintains I (modify f).
Proof. intros Hf s Hs. apply Hf, Hs. Qed.

Lemma maintains_bind {A B : Type} (m : M S A) (k : A -> M S B) :
  maintains I m -> (forall a, maintains I (k a)) -> maintains I (bind m k).
Proof.
  intros Hm Hk s Hs. unfold bind. specialize (Hm s Hs).
  destruct (m s) as [[a|e] s']; simpl in *.
  - apply Hk, Hm.
  - exact Hm.
Qed.

Lemma maintains_try_catch {A : Type} (m : M S A) (h : JsError -> M S A) :
  maintains I m -> (forall e, maintains I (h e)) -> maintains I (try_catch m h).
Proof.
  intros Hm Hh s Hs. unfold try_catch. specialize (Hm s Hs).
  destruct (m s) as [[a|e] s']; simpl in *.
  - exact Hm.
  - apply Hh, Hm.
Qed.

Lemma maintains_for_of {A B : Type} (xs : list A) (body : A -> B -> M S B) :
  (forall x acc, maintains I (body x acc)) ->
  forall acc, maintains I (for_of xs body acc).
Proof.
  intros Hbody. induction xs as [|x xs IH]; intros acc; simpl.
  - apply maintains_ret.
  - apply maintains_bind; [apply Hbody | intros a; apply IH].
Qed.

Lemma maintains_request `{Wired S} {A : Type} (c : MCPHttpClient)
    (req : Request) (answer : Completion A) :
  (forall contact s, I s -> I (send contact s)) ->
  maintains I (request c req answer).
Proof. intros Hsend s Hs. apply Hsend, Hs. Qed.
End Maintains.

(** Breaks a computation into its parts; the goals left are those of the
    [modify] steps. *)
Ltac maintain :=
  repeat match goal with
    | |- maintains _ (ret _) => apply maintains_ret
    | |- maintains _ (throw _) => apply maintains_throw
    | |- maintains _ (gets _) => apply maintains_gets
    | |- maintains _ (bind _ _) => apply maintains_bind; [|intros ?]
    | |- maintains _ (try_catch _ _) => apply maintains_try_catch; [|intros ?]
    | |- maintains _ (for_of _ _ _) => apply maintains_for_of; intros ? ?
    | |- maintains _ (request _ _ _) => apply maintains_request; intros ? ? ?
    | |- maintains _ (modify _) => apply maintains_modify; intros ? ?
    | |- maintains _ (match ?x with _ => _ end) => destruct x
    | |- maintains _ (let (_, _) := ?x in _) => destruct x
    | |- maintains _ ((let (_, _) := ?x in _) _) => destruct x; cbv beta
    end.

(** Closes the goals [maintain] leaves when the field under study is not
    the one written. *)
Ltac untouched :=
  repeat match goal with
         | kind : RequestKind |- _ => destruct kind
         end;
  simpl; try assumption; try reflexivity.

Ltac unfold_registry :=
  unfold step, after, addServer, removeServer, listServers, getServer, hasServer,
    listTools, listResources, listResourceTemplates, listPrompts, listFrom,
    pushTagged, executeTool, readResource, getPrompt, getConnectedClient,
    getNotifications, getNotificationCount, getLogs, getLogCount,
    onNotification, onLog, shutdown, rejectAllPending, disconnectAll,
    rejectPendingFrom, handleIncomingRequest, requestTimedOut,
    respondToRequest, rejectRequest, getPendingRequests, getPendingRequestCount,
    handleStatusChange, client_connect, client_disconnect, update_client,
    reject, resolve, client_listTools, client_listResources,
    client_listResourceTemplates, client_listPrompts, client_callTool,
    client_readResource, client_getPrompt.

Lemma keeps_field {X A : Type} (proj : ServerRegistry -> X)
    (m : M ServerRegistry A) :
  (forall x, maintains (fun s => proj s = x) m) ->
  forall r, proj (after m r) = proj r.
Proof. intros Hm r. apply (Hm (proj r) r). reflexivity. Qed.

(** Shows that a method leaves a field of the registry alone. *)
Ltac keeps :=
  apply keeps_field; intros ?; unfold_registry; maintain; untouched.

(** Every event but a drain and a shutdown leaves the buffered
    notifications in place; a notification is added at the end. *)
Lemma step_notifications (r : ServerRegistry) (e : Event) :
  clears_notifications e = false ->
  notifications (step r e) = notifications r ++ notified [e].
Proof.
  intros Hkeep.
  destruct e; try discriminate Hkeep; cbn [step notified flat_map app];
    try (rewrite app_nil_r; keeps).
  reflexivity.
Qed.

Lemma step_logs (r : ServerRegistry) (e : Event) :
  clears_logs e = false ->
  logs (step r e) = logs r ++ logged [e].
Proof.
  intros Hkeep.
  destruct e; try discriminate Hkeep; cbn [step logged flat_map app];
    try (rewrite app_nil_r; keeps).
  reflexivity.
Qed.

Lemma steps_notifications (events : list Event) (r : ServerRegistry) :
  existsb clears_notifications events = false ->
  notifications (steps r events) = notifications r ++ notified events.
Proof.
  revert r. induction events as [|e events IH]; intros r Hkeep.
  - simpl. now rewrite app_nil_r.
  - simpl in Hkeep. apply orb_false_elim in Hkeep. destruct Hkeep as [He Hrest].
    change (steps r (e :: events)) with (steps (step r e) events).
    rewrite (IH _ Hrest), (step_notifications _ _ He), <- app_assoc.
    unfold notified. simpl. now rewrite app_nil_r.
Qed.

Lemma steps_logs (events : list Event) (r : ServerRegistry) :
  existsb clears_logs events = false ->
  logs (steps r events) = logs r ++ logged events.
Proof.
  revert r. induction events as [|e events IH]; intros r Hkeep.
  - simpl. now rewrite app_nil_r.
  - simpl in Hkeep. apply orb_false_elim in Hkeep. destruct Hkeep as [He Hrest].
    change (steps r (e :: events)) with (steps (step r e) events).
    rewrite (IH _ Hrest), (step_logs _ _ He), <- app_assoc.
    unfold logged. simpl. now rewrite app_nil_r.
Qed.

(** C8. On every registry [getNotifications] returns the buffered
    notifications in the order they were buffered and empties the
    buffer: the count is zero afterwards and a second call returns the
    empty list.  After a drain, whatever happens to the registry short
    of another drain or a shutdown, the next [getNotifications] returns
    exactly the notifications delivered since, in the order of
    delivery.  The same holds of [getLogs]. *)
Theorem drain_returns_buffered_and_clears (r : ServerRegistry)
    (events : list Event) :
  (getNotifications r
   = (Normal (notifications r), with_notifications (fun _ => []) r)
   /\ getNotificationCount (after getNotifications r)
      = (Normal 0, after getNotifications r)
   /\ getNotifications (after getNotifications r)
      = (Normal [], after getNotifications r)
   /\ (existsb clears_notifications events = false ->
       fst (getNotifications (steps (after getNotifications r) events))
       = Normal (notified events)))
  /\ (getLogs r = (Normal (logs r), with_logs (fun _ => []) r)
      /\ getLogCount (after getLogs r) = (Normal 0, after getLogs r)
      /\ getLogs (after getLogs r) = (Normal [], after getLogs r)
      /\ (existsb clears_logs events = false ->
          fst (getLogs (steps (after getLogs r) events))
          = Normal (logged events))).
Proof.
  split; repeat split; try reflexivity.
  - intros Hkeep. unfold getNotifications at 1, bind, gets, modify. simpl.
    rewrite (steps_notifications _ _ Hkeep). reflexivity.
  - intros Hkeep. unfold getLogs at 1, bind, gets, modify. simpl.
    rewrite (steps_logs _ _ Hkeep). reflexivity.
Qed.

Lemma drain_returns_buffered_and_clears_witness :
  existsb clears_notifications Fixtures.traffic = false
  /\ existsb clears_logs Fixtures.traffic = false
  /\ fst (getNotifications Fixtures.busy_registry) = Normal ["n1"]
  /\ fst (getNotifications
            (steps (after getNotifications Fixtures.busy_registry) Fixtures.traffic))
     = Normal ["n2"; "n3"]
  /\ fst (getLogs (steps (after getLogs Fixtures.busy_registry) Fixtures.traffic))
     = Normal ["l2"].
Proof.
  split; [reflexivity|]. split; [reflexivity|]. split; [reflexivity|].
  destruct (drain_returns_buffered_and_clears Fixtures.busy_registry Fixtures.traffic)
    as [[_ [_ [_ Hnotifications]]] [_ [_ [_ Hlogs]]]].
  split; [apply Hnotifications | apply Hlogs]; reflexivity.
Defined.

(** ** Fan-out enumeration *)

Lemma with_wire_app (a b : list Contact) (r : ServerRegistry) :
  with_wire (fun w => w ++ b) (with_wire (fun w => w ++ a) r)
  = with_wire (fun w => w ++ a ++ b) r.
Proof. unfold with_wire. simpl. now rewrite <- app_assoc. Qed.

Lemma with_wire_nil (r : ServerRegistry) : with_wire (fun w => w ++ []) r = r.
Proof. destruct r. unfold with_wire. simpl. now rewrite app_nil_r. Qed.

Lemma pushTagged_spec {A : Type} (name : string) (serverItems : list A)
    (items : list (Tagged A)) (r : ServerRegistry) :
  pushTagged name serverItems items r
  = (Normal (items ++ map (tag name) serverItems), r).
Proof.
  unfold pushTagged.
  rewrite (for_of_pure (fun x items => items ++ [tag name x])) by reflexivity.
  now rewrite fold_left_push.
Qed.

Section FanOut.
Context {A : Type} (req : Request) (answer : MCPHttpClient -> Completion (list A)).

Lemma fan_out_loop (cs : list (string * MCPHttpClient))
    (items : list (Tagged A)) (r : ServerRegistry) :
  for_of cs
    (fun '(name, client) items =>
       if isConnected client then
         try_catch
           (serverItems <- request client req (answer client) ;;
            pushTagged name serverItems items)
           (fun _ => ret items)
       else ret items)
    items r
  = (Normal (items ++ flat_map (contribution answer) cs),
     with_wire (fun w => w ++ flat_map (enumerated req) cs) r).
Proof.
  revert items r. induction cs as [|[name client] cs IH]; intros items r.
  - simpl. now rewrite app_nil_r, with_wire_nil.
  - cbn [for_of flat_map]. unfold bind at 1.
    unfold contribution at 1, enumerated at 1. cbn [fst snd].
    destruct (isConnected client).
    + unfold try_catch, bind, request.
      destruct (answer client) as [serverItems|err].
      * rewrite pushTagged_spec, IH.
        cbn [send registry_wired]. rewrite with_wire_app, <- app_assoc.
        reflexivity.
      * unfold ret. rewrite IH.
        cbn [send registry_wired]. rewrite with_wire_app. reflexivity.
    + unfold ret. rewrite IH. reflexivity.
Qed.

Lemma fan_out (r : ServerRegistry) :
  listFrom (fun c => request c req (answer c)) None r
  = (Normal (flat_map (contribution answer) (clients r)),
     with_wire (fun w => w ++ flat_map (enumerated req) (clients r)) r).
Proof.
  unfold listFrom, bind at 1, gets. apply (fan_out_loop (clients r) [] r).
Qed.

Lemma contribution_origin (cs : list (string * MCPHttpClient)) (x : Tagged A) :
  In x (flat_map (contribution answer) cs) ->
  exists client items,
    In (Registry.server x, client) cs
    /\ client_status client = Connected
    /\ answer client = Normal items
    /\ In (item x) items.
Proof.
  intros Hin. apply in_flat_map in Hin. destruct Hin as [[name client] [Hentry Hx]].
  unfold contribution in Hx. cbn [fst snd] in Hx.
  destruct (isConnected client) eqn:Hconn; [|contradiction].
  destruct (answer client) as [items|err] eqn:Hans; [|contradiction].
  apply in_map_iff in Hx. destruct Hx as [y [<- Hy]].
  exists client, items. repeat split; try assumption.
  unfold isConnected in Hconn. now destruct (client_status client).
Qed.

Lemma contribution_nothing (entry : string * MCPHttpClient) :
  client_status (snd entry) <> Connected
  \/ (exists err, answer (snd entry) = Throw err) ->
  contribution answer entry = [].
Proof.
  unfold contribution, isConnected. intros [Hstatus|[err Herr]].
  - destruct (client_status (snd entry)); try reflexivity. congruence.
  - rewrite Herr. now destruct (status_eqb _ _).
Qed.

Lemma enumerated_connected (cs : list (string * MCPHttpClient)) (contact : Contact) :
  In contact (flat_map (enumerated req) cs) ->
  exists name client,
    In (name, client) cs
    /\ client_status client = Connected
    /\ contact = (client_name client, req).
Proof.
  intros Hin. apply in_flat_map in Hin. destruct Hin as [[name client] [Hentry Hc]].
  unfold enumerated in Hc. cbn [snd] in Hc.
  destruct (isConnected client) eqn:Hconn; [|contradiction].
  destruct Hc as [<-|[]]. exists name, client. repeat split; try assumption.
  unfold isConnected in Hconn. now destruct (client_status client).
Qed.
End FanOut.

(** C5. A fan-out enumeration (a list method called with no server
    name) never throws; it returns, in the order of the registry, the
    items of every client whose status is connected and whose
    enumeration succeeded, each tagged with the name the client is
    registered under.  A client in any other status is not asked and
    contributes nothing; a client whose enumeration throws contributes
    nothing. *)
Theorem fan_out_connected_only (r : ServerRegistry) :
  (listTools None r
   = (Normal (flat_map (contribution tools_of) (clients r)),
      with_wire (fun w => w ++ flat_map (enumerated ReqListTools) (clients r)) r)
   /\ listResources None r
      = (Normal (flat_map (contribution resources_of) (clients r)),
         with_wire (fun w => w ++ flat_map (enumerated ReqListResources) (clients r)) r)
   /\ listResourceTemplates None r
      = (Normal (flat_map (contribution templates_of) (clients r)),
         with_wire
           (fun w => w ++ flat_map (enumerated ReqListResourceTemplates) (clients r)) r)
   /\ listPrompts None r
      = (Normal (flat_map (contribution prompts_of) (clients r)),
         with_wire (fun w => w ++ flat_map (enumerated ReqListPrompts) (clients r)) r))
  /\ (forall (A : Type) (answer : MCPHttpClient -> Completion (list A))
             (x : Tagged A),
         In x (flat_map (contribution answer) (clients r)) ->
         exists client items,
           In (Registry.server x, client) (clients r)
           /\ client_status client = Connected
           /\ answer client = Normal items
           /\ In (item x) items)
  /\ (forall (A : Type) (answer : MCPHttpClient -> Completion (list A))
             (entry : string * MCPHttpClient),
         client_status (snd entry) <> Connected
         \/ (exists err, answer (snd entry) = Throw err) ->
         contribution answer entry = [])
  /\ (forall (req : Request) (contact : Contact),
         In contact (flat_map (enumerated req) (clients r)) ->
         exists name client,
           In (name, client) (clients r)
           /\ client_status client = Connected
           /\ contact = (client_name client, req)).
Proof.
  split; [repeat split|split; [|split]].
  - apply (fan_out ReqListTools tools_of).
  - apply (fan_out ReqListResources resources_of).
  - apply (fan_out ReqListResourceTemplates templates_of).
  - apply (fan_out ReqListPrompts prompts_of).
  - intros A answer x. apply contribution_origin.
  - intros A answer entry. apply contribution_nothing.
  - intros req contact. apply enumerated_connected.
Qed.

(** [alpha] is connected and lists two tools; [beta] is in the error
    status and is not asked. *)
Lemma fan_out_connected_only_witness :
  listTools None Fixtures.busy_registry
  = (Normal (flat_map (contribution tools_of) (clients Fixtures.busy_registry)),
     with_wire
       (fun w => w ++ flat_map (enumerated ReqListTools)
                        (clients Fixtures.busy_registry))
       Fixtures.busy_registry)
  /\ flat_map (contribution tools_of) (clients Fixtures.busy_registry)
     = [tag "alpha" Fixtures.echo; tag "alpha" Fixtures.silent]
  /\ flat_map (enumerated ReqListTools) (clients Fixtures.busy_registry)
     = [("alpha", ReqListTools)].
Proof.
  split.
  - apply (proj1 (proj1 (fan_out_connected_only Fixtures.busy_registry))).
  - split; reflexivity.
Defined.

(** ** Pending requests on removal and on shutdown *)

(** Exposes the fields of an updated registry. *)
Ltac open_registry :=
  unfold with_pending, pending, with_clients, with_notifications, with_logs,
    with_pendingSampling, with_pendingElicitation, with_wire, with_settled,
    with_statusChanges, with_console in *;
  cbn [clients notifications logs pendingSamplingRequests
       pendingElicitationRequests onServerStatusChange requestTimeoutMs
       wire settled statusChanges console] in *.

Lemma delete_all_filter {V : Type} (doomed : list (string * V)) (m : JsMap.t V) :
  delete_all doomed m
  = filter (fun e => negb (existsb (String.eqb (fst e)) (JsMap.keys doomed))) m.
Proof.
  revert m. induction doomed as [|d doomed IH]; intros m.
  - simpl. induction m as [|e m IHm]; simpl; [reflexivity | now rewrite <- IHm].
  - cbn [delete_all fold_left]. fold (delete_all doomed (JsMap.delete (fst d) m)).
    rewrite IH. unfold JsMap.delete. clear IH.
    induction m as [|e m IHm]; simpl; [reflexivity|].
    destruct (String.eqb (fst e) (fst d)); simpl.
    + exact IHm.
    + destruct (existsb _ _); simpl; now rewrite IHm.
Qed.

Lemma wf_unique {V : Type} (m : JsMap.t V) (k : string) (v v' : V) :
  JsMap.wf m -> In (k, v) m -> In (k, v') m -> v = v'.
Proof.
  intros Hwf Hv Hv'.
  apply JsMapFacts.In_get in Hv; [|exact Hwf].
  apply JsMapFacts.In_get in Hv'; [|exact Hwf].
  congruence.
Qed.

(** In a well-formed map, deleting the keys of the selected entries
    removes exactly the selected entries. *)
Lemma delete_selected {V : Type} (select : string * V -> bool) (m : JsMap.t V) :
  JsMap.wf m ->
  delete_all (filter select m) m = filter (fun e => negb (select e)) m.
Proof.
  intros Hwf. rewrite delete_all_filter. apply filter_ext_in.
  intros [k v] Hin. f_equal. cbn [fst].
  destruct (select (k, v)) eqn:Hsel.
  - apply existsb_exists. exists k. split; [|apply String.eqb_refl].
    change k with (fst (k, v)). apply in_map. apply filter_In. now split.
  - destruct (existsb _ _) eqn:Hex; [|reflexivity].
    apply existsb_exists in Hex. destruct Hex as [k' [Hk' Heq]].
    apply String.eqb_eq in Heq. subst k'.
    apply in_map_iff in Hk'. destruct Hk' as [[k0 v'] [Hfst Hin']].
    cbn [fst] in Hfst. subst k0. apply filter_In in Hin'.
    destruct Hin' as [Hin' Hsel'].
    assert (v = v') by (eapply wf_unique; eauto). congruence.
Qed.

Lemma rejectPendingFrom_loop (kind : RequestKind) (name : string)
    (entries : list (string * PendingRequest)) (r : ServerRegistry) :
  for_of entries
    (fun '(id, request) _ =>
       if String.eqb (req_server request) name then
         reject kind request (Error ("Server '" ++ name ++ "' disconnected")%string) ;;;
         modify (with_pending kind (JsMap.delete id))
       else ret tt)
    tt r
  = (Normal tt,
     with_pending kind (delete_all (filter (from_server name) entries))
       (with_settled (fun l => l ++ disconnections kind name entries) r)).
Proof.
  revert r. induction entries as [|[id request] entries IH]; intros r.
  - simpl. unfold ret. f_equal.
    destruct r, kind; unfold disconnections; open_registry; simpl;
      now rewrite app_nil_r.
  - cbn [for_of]. unfold bind at 1.
    assert (Hsel : from_server name (id, request)
                   = String.eqb (req_server request) name) by reflexivity.
    unfold disconnections. cbn [filter]. rewrite !Hsel. clear Hsel.
    destruct (String.eqb (req_server request) name).
    + unfold bind, reject, modify. rewrite IH. f_equal.
      destruct kind; unfold disconnections, delete_all; open_registry; simpl;
        rewrite <- app_assoc; reflexivity.
    + unfold ret. rewrite IH. reflexivity.
Qed.

Lemma rejectPendingFrom_spec (kind : RequestKind) (name : string)
    (r : ServerRegistry) :
  JsMap.wf (pending kind r) ->
  rejectPendingFrom kind name r
  = (Normal tt,
     with_pending kind (filter (fun e => negb (from_server name e)))
       (with_settled (fun l => l ++ disconnections kind name (pending kind r)) r)).
Proof.
  intros Hwf. unfold rejectPendingFrom, bind at 1, gets.
  rewrite rejectPendingFrom_loop. f_equal.
  pose proof (@delete_selected _ (from_server name) _ Hwf) as Hdel.
  destruct kind; open_registry; now rewrite Hdel.
Qed.

Lemma rejectAllPending_loop (kind : RequestKind) (requests : list PendingRequest)
    (r : ServerRegistry) :
  for_of requests
    (fun request _ => reject kind request (Error "Registry shutting down"))
    tt r
  = (Normal tt,
     with_settled
       (fun l => l ++ map (fun q => Rejected kind (req_id q)
                                      (Error "Registry shutting down")) requests)
       r).
Proof.
  revert r. induction requests as [|q requests IH]; intros r.
  - simpl. unfold ret. f_equal. destruct r. open_registry.
    now rewrite app_nil_r.
  - cbn [for_of]. unfold bind at 1, reject, modify. rewrite IH. f_equal.
    open_registry. simpl. rewrite <- app_assoc. reflexivity.
Qed.

Lemma rejectAllPending_spec (kind : RequestKind) (r : ServerRegistry) :
  rejectAllPending kind r
  = (Normal tt,
     with_pending kind (fun _ => JsMap.empty)
       (with_settled (fun l => l ++ shutdowns kind (pending kind r)) r)).
Proof.
  unfold rejectAllPending, bind at 1, gets, bind at 1.
  rewrite rejectAllPending_loop. unfold modify, shutdowns, JsMap.values.
  rewrite map_map. reflexivity.
Qed.

(** Disconnecting a client and dropping it from the registry touches no
    pending request. *)
Lemma disconnect_keeps_requests (client : MCPHttpClient) (name : string)
    (r : ServerRegistry) :
  requests_view
    (after (client_disconnect client ;;; modify (with_clients (JsMap.delete name))) r)
  = requests_view r.
Proof. keeps. Qed.

Lemma disconnectAll_keeps_requests (r : ServerRegistry) :
  requests_view
    (after (cs <- gets clients ;;
            disconnectAll (JsMap.values cs) ;;;
            modify (with_clients (fun _ => JsMap.empty)) ;;;
            modify (with_notifications (fun _ => [])) ;;;
            modify (with_logs (fun _ => []))) r)
  = requests_view r.
Proof. keeps. Qed.

Lemma after_bind_normal {A B : Type} (m : M ServerRegistry A)
    (k : A -> M ServerRegistry B) (r r' : ServerRegistry) (a : A) :
  m r = (Normal a, r') -> after (bind m k) r = after (k a) r'.
Proof. intros Hm. unfold after, bind. now rewrite Hm. Qed.

(** C9. Removing a server rejects, with "Server '<name>' disconnected",
    exactly the pending sampling and elicitation requests that came from
    it, and takes them out of the pending maps; the requests of other
    servers stay where they were.  Shutting the registry down rejects
    every pending request with "Registry shutting down" and empties both
    maps.  Both hold whether or not the backends disconnect cleanly. *)
Theorem pending_requests_rejected (r : ServerRegistry) (name : string)
    (client : MCPHttpClient) :
  JsMap.wf (pendingSamplingRequests r) ->
  JsMap.wf (pendingElicitationRequests r) ->
  JsMap.get name (clients r) = Some client ->
  (let r' := after (removeServer name) r in
   pendingSamplingRequests r'
   = filter (fun e => negb (from_server name e)) (pendingSamplingRequests r)
   /\ pendingElicitationRequests r'
      = filter (fun e => negb (from_server name e)) (pendingElicitationRequests r)
   /\ settled r'
      = settled r
        ++ disconnections Sampling name (pendingSamplingRequests r)
        ++ disconnections Elicitation name (pendingElicitationRequests r)
   /\ (on_disconnect (client_backend client) = Normal tt ->
       removeServer name r = (Normal tt, r')
       /\ JsMap.has name (clients r') = false))
  /\ (let r' := after shutdown r in
      pendingSamplingRequests r' = JsMap.empty
      /\ pendingElicitationRequests r' = JsMap.empty
      /\ settled r'
         = settled r
           ++ shutdowns Sampling (pendingSamplingRequests r)
           ++ shutdowns Elicitation (pendingElicitationRequests r)).
Proof.
  intros Hs He Hget. split; cbv zeta.
  - set (r1 := with_pending Sampling (filter (fun e => negb (from_server name e)))
                 (with_settled
                    (fun l => l ++ disconnections Sampling name (pending Sampling r)) r)).
    set (r2 := with_pending Elicitation (filter (fun e => negb (from_server name e)))
                 (with_settled
                    (fun l => l ++ disconnections Elicitation name (pending Elicitation r1))
                    r1)).
    assert (H1 : rejectPendingFrom Sampling name r = (Normal tt, r1))
      by (apply rejectPendingFrom_spec; exact Hs).
    assert (H2 : rejectPendingFrom Elicitation name r1 = (Normal tt, r2))
      by (apply rejectPendingFrom_spec; exact He).
    assert (Hrun : removeServer name r
                   = (client_disconnect client ;;;
                      modify (with_clients (JsMap.delete name))) r2).
    { unfold removeServer, bind at 1, gets. rewrite Hget.
      unfold bind at 1. rewrite H1. unfold bind at 1. rewrite H2. reflexivity. }
    assert (Hview : requests_view (after (removeServer name) r) = requests_view r2).
    { unfold after at 1. rewrite Hrun. apply disconnect_keeps_requests. }
    unfold requests_view in Hview. injection Hview as Hvs Hve Hvt.
    rewrite Hvs, Hve, Hvt.
    split; [reflexivity|]. split; [reflexivity|]. split; [|intros Hd; split].
    + unfold r2, r1. open_registry. now rewrite app_assoc.
    + unfold after. rewrite Hrun.
      unfold bind, client_disconnect, bind, request. rewrite Hd.
      unfold update_client, modify. reflexivity.
    + unfold after. rewrite Hrun.
      unfold bind, client_disconnect, bind, request. rewrite Hd.
      unfold update_client, modify. cbn [snd]. open_registry.
      unfold JsMap.has. now rewrite JsMapFacts.get_delete_same.
  - set (r1 := with_pending Sampling (fun _ => JsMap.empty)
                 (with_settled (fun l => l ++ shutdowns Sampling (pending Sampling r)) r)).
    set (r2 := with_pending Elicitation (fun _ => JsMap.empty)
                 (with_settled
                    (fun l => l ++ shutdowns Elicitation (pending Elicitation r1)) r1)).
    assert (Hview : requests_view (after shutdown r) = requests_view r2).
    { unfold shutdown.
      erewrite after_bind_normal by apply rejectAllPending_spec. fold r1.
      erewrite after_bind_normal by apply rejectAllPending_spec. fold r2.
      apply disconnectAll_keeps_requests. }
    unfold requests_view in Hview. injection Hview as Hvs Hve Hvt.
    rewrite Hvs, Hve, Hvt. repeat split.
    unfold r2, r1. open_registry. now rewrite app_assoc.
Qed.

(** ** Reachable registries *)

Lemma new_ServerRegistry_wf (callback : bool) (timeoutMs : option N) :
  registry_wf (new_ServerRegistry callback timeoutMs).
Proof. repeat split; apply JsMapFacts.wf_empty. Qed.

Lemma step_wf (r : ServerRegistry) (e : Event) :
  registry_wf r -> registry_wf (step r e).
Proof.
  destruct e; cbn [step]; unfold after;
    match goal with
    | |- registry_wf r -> registry_wf (snd (?m r)) =>
        revert r; change (maintains registry_wf m)
    end;
    unfold_registry; maintain;
    repeat match goal with
           | kind : RequestKind |- _ => destruct kind
           end;
    unfold registry_wf in *; open_registry;
    try match goal with
        | |- context [if ?b then _ else _] => destruct b
        end;
    intuition auto using JsMapFacts.wf_set, JsMapFacts.wf_delete,
      JsMapFacts.wf_empty.
Qed.

(** Every registry reached from a new one is well formed. *)
Lemma reachable_wf (callback : bool) (timeoutMs : option N) (events : list Event) :
  registry_wf (steps (new_ServerRegistry callback timeoutMs) events).
Proof.
  unfold steps.
  generalize (new_ServerRegistry_wf callback timeoutMs).
  generalize (new_ServerRegistry callback timeoutMs).
  induction events as [|e events IH]; intros r Hwf; simpl.
  - exact Hwf.
  - apply IH, step_wf, Hwf.
Qed.

(** Removing [alpha] rejects [r1] and [r3] and keeps [r2], which came
    from [beta]; a shutdown rejects all three. *)
Lemma pending_requests_rejected_witness :
  let r := Fixtures.busy_registry in
  JsMap.wf (pendingSamplingRequests r)
  /\ JsMap.wf (pendingElicitationRequests r)
  /\ JsMap.get "alpha" (clients r)
     = Some (Fixtures.client "alpha" Connected Fixtures.healthy)
  /\ JsMap.keys (pendingSamplingRequests (after (removeServer "alpha") r)) = ["r2"]
  /\ pendingElicitationRequests (after (removeServer "alpha") r) = []
  /\ settled (after (removeServer "alpha") r)
     = [Rejected Sampling "r1" (Error "Server 'alpha' disconnected");
        Rejected Elicitation "r3" (Error "Server 'alpha' disconnected")]
  /\ settled (after shutdown r)
     = [Rejected Sampling "r1" (Error "Registry shutting down");
        Rejected Sampling "r2" (Error "Registry shutting down");
        Rejected Elicitation "r3" (Error "Registry shutting down")].
Proof.
  cbv zeta.
  pose proof (reachable_wf false None
                [EvAddServer (Fixtures.config "alpha") Fixtures.healthy;
                 EvAddServer (Fixtures.config "beta") Fixtures.broken;
                 EvIncomingRequest Sampling (Fixtures.sampling_request "r1" "alpha");
                 EvIncomingRequest Sampling (Fixtures.sampling_request "r2" "beta");
                 EvIncomingRequest Elicitation (Fixtures.sampling_request "r3" "alpha");
                 EvNotification "n1";
                 EvLog "l1"]) as [_ [Hsampling Helicitation]].
  change (steps _ _) with Fixtures.busy_registry in Hsampling, Helicitation.
  split; [exact Hsampling|]. split; [exact Helicitation|].
  split; [reflexivity|].
  destruct (@pending_requests_rejected Fixtures.busy_registry "alpha" _
              Hsampling Helicitation eq_refl)
    as [[Hs [He [Hsettled _]]] [_ [_ Hshutdown]]].
  split; [rewrite Hs; reflexivity|].
  split; [rewrite He; reflexivity|].
  split; [rewrite Hsettled; reflexivity | rewrite Hshutdown; reflexivity].
Defined.

(* ================================================================== *)
(** * Facts: search                                                    *)
(* ================================================================== *)

Section SearchFacts.
Context {E : RegExpEngine}.

Lemma matchesQuery_hit (regex : RegExp) (text : option string) :
  matchesQuery text regex = true <-> hit regex text.
Proof.
  unfold hit. destruct text as [[|c t]|]; simpl.
  - split; [discriminate | intros [t [[= <-] [Hne _]]]; congruence].
  - split.
    + intros Ht. exists (String c t). repeat split; [discriminate | exact Ht].
    + intros [t' [[= <-] [_ Ht]]]. exact Ht.
  - split; [discriminate | intros [t [[=] _]]].
Qed.

(** The filter of [search.ts] and the pattern of the capability API
    select the same servers. *)
Lemma matchesServerFilter_pattern (serverName : string)
    (serverPattern : option string) :
  matchesServerFilter serverName serverPattern
  = matchesPattern serverName serverPattern.
Proof.
  destruct serverPattern as [[|c p]|]; try reflexivity.
  simpl. destruct (@empty_source E) as [r [Hr Hall]].
  rewrite Hr. symmetry. apply Hall.
Qed.

Lemma matchingClients_In (conns : list (string * BackendConnection))
    (serverPattern : option string) (mc : MatchingClient) :
  In mc (matchingClients conns serverPattern)
  <-> exists conn,
        In (mc_name mc, conn) conns
        /\ conn_status conn = Connected
        /\ conn_client conn = Some (mc_client mc)
        /\ matchesServerFilter (mc_name mc) serverPattern = true.
Proof.
  split.
  - induction conns as [|[name conn] conns IH]; simpl; [tauto|].
    assert (Hrest : In mc (matchingClients conns serverPattern) ->
              exists conn0, (((name, conn) = (mc_name mc, conn0)
                              \/ In (mc_name mc, conn0) conns)
                /\ conn_status conn0 = Connected
                /\ conn_client conn0 = Some (mc_client mc)
                /\ matchesServerFilter (mc_name mc) serverPattern = true)).
    { intros Hin. destruct (IH Hin) as [conn0 [H0 Hc]]. exists conn0. tauto. }
    destruct (conn_client conn) as [client|] eqn:Hclient; [|exact Hrest].
    destruct (status_eqb (conn_status conn) Connected) eqn:Hstatus;
      [|exact Hrest].
    destruct (matchesPattern name serverPattern) eqn:Hpat; [|exact Hrest].
    cbn [andb]. intros [<-|Hin]; [|exact (Hrest Hin)].
    exists conn. cbn [mc_name mc_client].
    rewrite matchesServerFilter_pattern.
    repeat split; try tauto.
    now destruct (conn_status conn).
  - intros [conn0 [Hin [Hs [Hc Hm]]]].
    rewrite matchesServerFilter_pattern in Hm.
    induction conns as [|[name conn] conns IH]; simpl; [contradiction|].
    destruct Hin as [[= -> ->]|Hin].
    + rewrite Hc, Hs, Hm. left. now destruct mc.
    + specialize (IH Hin).
      destruct (conn_client conn); [|exact IH].
      destruct (_ && _); [right|]; exact IH.
Qed.

(** ** One capability kind *)

Section Kind.
Context {A B : Type} (req : Request)
  (answer : MCPHttpClient -> Completion (list A))
  (keep : A -> bool) (shape : string -> A -> B)
  (serverPattern : option string).

Lemma keep_loop (serverName : string) (items : list A) (results : list B)
    (w : Wire) :
  for_of items
    (fun x results =>
       if keep x then ret (results ++ [shape serverName x]) else ret results)
    results w
  = (Normal (results ++ map (shape serverName) (filter keep items)), w).
Proof.
  rewrite (for_of_pure
             (fun x results => if keep x then results ++ [shape serverName x]
                               else results)).
  - now rewrite fold_left_push_if.
  - intros x acc s. now destruct (keep x).
Qed.

Lemma search_loop (mcs : list MatchingClient) (results : list B) (w : Wire) :
  for_of mcs
    (fun mc results =>
       if negb (matchesServerFilter (mc_name mc) serverPattern) then ret results
       else
         try_catch
           (items <- request (mc_client mc) req (answer (mc_client mc)) ;;
            for_of items
              (fun x results =>
                 if keep x then ret (results ++ [shape (mc_name mc) x])
                 else ret results)
              results)
           (fun _ => ret results))
    results w
  = (Normal (results ++ flat_map (found answer keep shape serverPattern) mcs),
     w ++ flat_map (asked req serverPattern) mcs).
Proof.
  revert results w. induction mcs as [|mc mcs IH]; intros results w.
  - simpl. now rewrite !app_nil_r.
  - cbn [for_of flat_map]. unfold bind at 1, found at 1, asked at 1.
    destruct (matchesServerFilter (mc_name mc) serverPattern); cbn [negb].
    + unfold try_catch, bind, request. cbn [send wire_wired].
      destruct (answer (mc_client mc)) as [items|err].
      * rewrite keep_loop, IH, <- !app_assoc. reflexivity.
      * unfold ret. rewrite IH, <- app_assoc, app_nil_l. reflexivity.
    + unfold ret. rewrite IH, !app_nil_l. reflexivity.
Qed.

Lemma found_In (mcs : list MatchingClient) (y : B) :
  In y (flat_map (found answer keep shape serverPattern) mcs)
  <-> exists mc items x,
        In mc mcs
        /\ matchesServerFilter (mc_name mc) serverPattern = true
        /\ answer (mc_client mc) = Normal items
        /\ In x items
        /\ keep x = true
        /\ y = shape (mc_name mc) x.
Proof.
  rewrite in_flat_map. split.
  - intros [mc [Hmc Hy]]. unfold found in Hy.
    destruct (matchesServerFilter (mc_name mc) serverPattern) eqn:Hm; [|contradiction].
    destruct (answer (mc_client mc)) as [items|err] eqn:Hans; [|contradiction].
    apply in_map_iff in Hy. destruct Hy as [x [<- Hx]].
    apply filter_In in Hx. destruct Hx as [Hx Hkeep].
    exists mc, items, x. tauto.
  - intros [mc [items [x [Hmc [Hm [Hans [Hx [Hkeep ->]]]]]]]].
    exists mc. split; [exact Hmc|]. unfold found. rewrite Hm, Hans.
    apply in_map, filter_In. tauto.
Qed.

Lemma found_failure (mc : MatchingClient) (err : JsError) :
  answer (mc_client mc) = Throw err ->
  found answer keep shape serverPattern mc = [].
Proof.
  intros Hans. unfold found. rewrite Hans.
  now destruct (matchesServerFilter _ _).
Qed.

Lemma asked_In (mcs : list MatchingClient) (contact : Contact) :
  In contact (flat_map (asked req serverPattern) mcs) ->
  exists mc, In mc mcs /\ contact = (client_name (mc_client mc), req).
Proof.
  rewrite in_flat_map. intros [mc [Hmc Hc]]. unfold asked in Hc.
  destruct (matchesServerFilter _ _); [|contradiction].
  destruct Hc as [<-|[]]. eauto.
Qed.
End Kind.

End SearchFacts.

Section SearchRun.
Context {E : RegExpEngine}.
Variables (session : SessionState) (queryRegex : RegExp)
  (serverPattern : option string).

Lemma searchTools_spec (includeSchemas : option bool) (w : Wire) :
  searchTools session queryRegex serverPattern includeSchemas w
  = (Normal (flat_map (toolsFound queryRegex serverPattern includeSchemas)
               (getMatchingClients session serverPattern)),
     w ++ flat_map (asked ReqListTools serverPattern)
            (getMatchingClients session serverPattern)).
Proof.
  unfold searchTools, toolsFound, client_listTools. cbv zeta.
  apply (search_loop ReqListTools tools_of (toolMatches queryRegex)
           (fun serverName tool => toolResult serverName includeSchemas tool)
           serverPattern _ [] w).
Qed.

Lemma searchResources_spec (w : Wire) :
  searchResources session queryRegex serverPattern w
  = (Normal (flat_map (resourcesFound queryRegex serverPattern)
               (getMatchingClients session serverPattern)),
     w ++ flat_map (asked ReqListResources serverPattern)
            (getMatchingClients session serverPattern)).
Proof.
  unfold searchResources, resourcesFound, client_listResources. cbv zeta.
  apply (search_loop ReqListResources resources_of (resourceMatches queryRegex)
           resourceResult serverPattern _ [] w).
Qed.

Lemma searchPrompts_spec (w : Wire) :
  searchPrompts session queryRegex serverPattern w
  = (Normal (flat_map (promptsFound queryRegex serverPattern)
               (getMatchingClients session serverPattern)),
     w ++ flat_map (asked ReqListPrompts serverPattern)
            (getMatchingClients session serverPattern)).
Proof.
  unfold searchPrompts, promptsFound, client_listPrompts. cbv zeta.
  apply (search_loop ReqListPrompts prompts_of (promptMatches queryRegex)
           promptResult serverPattern _ [] w).
Qed.

Lemma searchServersLoop_spec (servers : list ServerSummary)
    (results : list SearchServerResult) :
  searchServersLoop session queryRegex serverPattern servers results
  = results ++ map (serverResult session)
                 (filter (serverListed queryRegex serverPattern) servers).
Proof.
  revert results. induction servers as [|s servers IH]; intros results.
  - simpl. now rewrite app_nil_r.
  - cbn [searchServersLoop filter]. unfold serverListed at 1.
    destruct (matchesServerFilter (summary_name s) serverPattern); cbn [negb andb].
    + destruct (matchesQuery (Some (summary_name s)) queryRegex).
      * rewrite IH, <- app_assoc. reflexivity.
      * apply IH.
    + apply IH.
Qed.

Lemma searchServers_spec :
  searchServers session queryRegex serverPattern
  = map (serverResult session)
        (filter (serverListed queryRegex serverPattern)
           (SessionManager_listServers session)).
Proof. unfold searchServers. now rewrite searchServersLoop_spec. Qed.

Lemma found_eligible {A B : Type} (answer : MCPHttpClient -> Completion (list A))
    (keep : A -> bool) (shape : string -> A -> B) (y : B) :
  In y (flat_map (found answer keep shape serverPattern)
          (getMatchingClients session serverPattern))
  <-> exists name client items x,
        eligible session serverPattern name client
        /\ answer client = Normal items
        /\ In x items
        /\ keep x = true
        /\ y = shape name x.
Proof.
  rewrite found_In. split.
  - intros [mc [items [x [Hmc [Hm [Hans [Hx [Hkeep Hy]]]]]]]].
    apply matchingClients_In in Hmc.
    exists (mc_name mc), (mc_client mc), items, x. unfold eligible. tauto.
  - intros [name [client [items [x [Hel [Hans [Hx [Hkeep Hy]]]]]]]].
    exists {| mc_name := name; mc_client := client |}, items, x.
    cbn [mc_name mc_client]. repeat split; try assumption.
    + apply matchingClients_In. exact Hel.
    + destruct Hel as [conn Hc]. tauto.
Qed.

Lemma asked_eligible (req : Request) (contact : Contact) :
  In contact (flat_map (asked req serverPattern)
                (getMatchingClients session serverPattern)) ->
  exists name client,
    eligible session serverPattern name client
    /\ contact = (client_name client, req).
Proof.
  intros Hin. apply asked_In in Hin. destruct Hin as [mc [Hmc ->]].
  apply matchingClients_In in Hmc.
  exists (mc_name mc), (mc_client mc). split; [exact Hmc | reflexivity].
Qed.
End SearchRun.

Section SearchOutcome.
Context {E : RegExpEngine}.
Variables (q : SearchQuery) (session : SessionState) (queryRegex : RegExp).

Lemma search_spec (w : Wire) :
  createQueryRegex (query q) = Some queryRegex ->
  search q session w
  = (Normal (searchOutcome q session queryRegex), w ++ searchContacts q session).
Proof.
  intros Hregex. unfold search. rewrite Hregex.
  unfold searchOutcome, searchContacts, toolsList, resourcesList, promptsList,
    serversList.
  destruct (type q); cbn [wants when]; unfold bind, ret;
    rewrite ?searchTools_spec, ?searchResources_spec, ?searchPrompts_spec,
      ?searchServers_spec;
    rewrite ?app_nil_r, ?app_nil_l, <- ?app_assoc; reflexivity.
Qed.

Lemma searchContacts_eligible (contact : Contact) :
  In contact (searchContacts q session) ->
  exists name client,
    eligible session (server q) name client
    /\ fst contact = client_name client.
Proof.
  unfold searchContacts. intros Hin.
  repeat (apply in_app_or in Hin; destruct Hin as [Hin|Hin]).
  all: destruct (wants _ _); [|contradiction].
  all: apply asked_eligible in Hin; destruct Hin as [name [client [Hel ->]]].
  all: exists name, client; split; [exact Hel | reflexivity].
Qed.
End SearchOutcome.

(** C2. The query is first compiled as a case-insensitive regular
    expression and, when it compiles, searched with that regex.  When
    the constructor throws, every metacharacter is escaped and the
    compile is retried; when the retry throws too, [search] returns the
    result with no category key, whatever the requested type, and asks
    no backend.  The escape does what it is for: on the reference
    engine the escaped form of a query of ASCII characters always
    compiles, to the regex that finds the query itself in a text, the
    case of letters apart; so there a retry never fails, and the result
    without keys can only come from a host whose constructor rejects an
    escaped literal. *)
Theorem search_query_regex :
  (forall (E : RegExpEngine) (q : Search.SearchQuery) (session : SessionState)
          (w : Search.Wire),
      Search.search q session w
      = match newRegExp_i (Search.query q) with
        | Some regex => searchWith q session w regex
        | None =>
            match newRegExp_i (escapeRegExp (Search.query q)) with
            | Some regex => searchWith q session w regex
            | None => (Normal Search.empty_result, w)
            end
        end)
  /\ (forall (outside : Ecma.Outside) (query : string),
         is_ascii query = true ->
         let E := Ecma.engine outside in
         exists regex,
           newRegExp_i (escapeRegExp query) = Some regex
           /\ createQueryRegex query <> None
           /\ forall text,
                test regex text
                = includesIgnoringCase query (Ecma.codeUnits text)).
Proof.
  split.
  - intros E q session w. unfold searchWith.
    destruct (newRegExp_i (Search.query q)) as [regex|] eqn:H1.
    + apply search_spec. unfold createQueryRegex. now rewrite H1.
    + destruct (newRegExp_i (escapeRegExp (Search.query q))) as [regex|] eqn:H2.
      * apply search_spec. unfold createQueryRegex. now rewrite H1, H2.
      * unfold Search.search, createQueryRegex. now rewrite H1, H2.
  - intros outside query Hascii E.
    assert (Hescaped : @newRegExp_i E (escapeRegExp query)
                       = Some (Ecma.Native (literal query))).
    { cbn [newRegExp_i E Ecma.engine]. unfold Ecma.compile.
      now rewrite parse_escapeRegExp by exact Hascii. }
    exists (Ecma.Native (literal query)). split; [exact Hescaped|]. split.
    + unfold createQueryRegex. rewrite Hescaped.
      destruct (newRegExp_i query); discriminate.
    + intros text. apply find_literal.
Qed.

(** The query [c++] does not compile: there is nothing for the second
    [+] to repeat.  Escaped, it is found in the name of the tool
    [c++]. *)
Lemma search_query_regex_witness :
  let E := Ecma.engine Ecma.nothing_outside in
  let q := tools_named "c++" in
  is_ascii (Search.query q) = true
  /\ newRegExp_i (Search.query q) = None
  /\ escapeRegExp (Search.query q) = "c\+\+"
  /\ (exists regex,
         newRegExp_i (escapeRegExp (Search.query q)) = Some regex
         /\ test regex "C++" = true
         /\ test regex "echo" = false
         /\ Search.search q session_toolchain [] = searchWith q session_toolchain [] regex)
  /\ fst (Search.search q session_toolchain [])
     = Normal {| Search.tools := Some [Search.toolResult "alpha" None cxx];
                 Search.resources := None;
                 Search.prompts := None;
                 Search.servers := None |}
  /\ fst (Search.search (tools_named "ech.") session_toolchain [])
     = Normal {| Search.tools := Some [Search.toolResult "alpha" None Fixtures.echo];
                 Search.resources := None;
                 Search.prompts := None;
                 Search.servers := None |}.
Proof.
  cbv zeta.
  destruct search_query_regex as [Hflow Hescape].
  destruct (Hescape Ecma.nothing_outside "c++" eq_refl)
    as [regex [Hregex [_ Htest]]].
  split; [reflexivity|]. split; [reflexivity|]. split; [reflexivity|].
  split; [|split; reflexivity].
  exists regex. split; [exact Hregex|].
  split; [rewrite Htest; reflexivity|]. split; [rewrite Htest; reflexivity|].
  rewrite (Hflow (Ecma.engine Ecma.nothing_outside) (tools_named "c++")
             session_toolchain []).
  change (Search.query (tools_named "c++")) with "c++".
  change (@newRegExp_i (Ecma.engine Ecma.nothing_outside) "c++")
    with (@None Ecma.Compiled).
  cbv beta iota. rewrite Hregex. reflexivity.
Defined.

Lemma toolMatches_hit {E : RegExpEngine} (regex : RegExp) (tool : Tool) :
  toolMatches regex tool = true
  <-> hit regex (Some (tool_name tool)) \/ hit regex (tool_description tool).
Proof.
  unfold toolMatches. rewrite orb_true_iff, !matchesQuery_hit. reflexivity.
Qed.

Lemma resourceMatches_hit {E : RegExpEngine} (regex : RegExp) (resource : Resource) :
  resourceMatches regex resource = true
  <-> hit regex (Some (resource_name resource))
      \/ hit regex (Some (resource_uri resource))
      \/ hit regex (resource_description resource).
Proof.
  unfold resourceMatches. rewrite !orb_true_iff, !matchesQuery_hit. tauto.
Qed.

Lemma promptMatches_hit {E : RegExpEngine} (regex : RegExp) (prompt : Prompt) :
  promptMatches regex prompt = true
  <-> hit regex (Some (prompt_name prompt)) \/ hit regex (prompt_description prompt).
Proof.
  unfold promptMatches. rewrite orb_true_iff, !matchesQuery_hit. reflexivity.
Qed.

Lemma serversList_In {E : RegExpEngine} (q : SearchQuery) (session : SessionState)
    (regex : RegExp) (s : SearchServerResult) :
  In s (serversList q session regex)
  <-> exists name conn,
        In (name, conn) (backendConnections session)
        /\ matchesServerFilter name (server q) = true
        /\ hit regex (Some name)
        /\ s = serverResult session
                 {| summary_name := name; summary_status := conn_status conn |}.
Proof.
  unfold serversList, SessionManager_listServers. rewrite in_map_iff. split.
  - intros [summary [<- Hin]]. apply filter_In in Hin. destruct Hin as [Hin Hlisted].
    apply in_map_iff in Hin. destruct Hin as [[name conn] [<- Hin]].
    unfold serverListed in Hlisted. cbn [summary_name fst snd] in *.
    apply andb_true_iff in Hlisted. destruct Hlisted as [Hm Hq].
    apply matchesQuery_hit in Hq. exists name, conn. tauto.
  - intros [name [conn [Hin [Hm [Hq ->]]]]].
    eexists. split; [reflexivity|]. apply filter_In. split.
    + apply in_map_iff. exists (name, conn). split; [reflexivity | exact Hin].
    + unfold serverListed. cbn [summary_name].
      apply matchesQuery_hit in Hq. now rewrite Hm, Hq.
Qed.

Example busy_registry_servers :
  fst (listServers Fixtures.busy_registry)
  = Normal [ {| info_name := "alpha"; info_url := "http://localhost";
                info_status := Connected;
                info_capabilities := Some Fixtures.all_capabilities |};
             {| info_name := "beta"; info_url := "http://localhost";
                info_status := ErrorStatus;
                info_capabilities := None |} ].
Proof. reflexivity. Qed.

Example busy_registry_tools :
  fst (listTools None Fixtures.busy_registry)
  = Normal [tag "alpha" Fixtures.echo; tag "alpha" Fixtures.silent].
Proof. reflexivity. Qed.

Example mixed_session_search :
  @search (Ecma.engine Ecma.nothing_outside) (Fixtures.everything_named "e")
    Fixtures.session_mixed []
  = (Normal
       {| tools := Some [toolResult "alpha" None Fixtures.echo;
                         toolResult "alpha" None Fixtures.silent];
          resources := Some [resourceResult "alpha" Fixtures.test_txt];
          prompts := Some [];
          servers :=
            Some [ {| sr_name := "beta"; sr_status := Connected;
                      sr_capabilities :=
                        {| sc_tools := true; sc_resources := true;
                           sc_prompts := true |} |} ] |},
     [("alpha", ReqListTools); ("beta", ReqListTools);
      ("alpha", ReqListResources); ("beta", ReqListResources);
      ("alpha", ReqListPrompts); ("beta", ReqListPrompts)]).
Proof. reflexivity. Qed.

(** C3, as the spec states it, fails twice.  The servers kind lists a
    server that is not connected: the session's only server, [alpha], is
    disconnected, and searching the servers for [alpha] returns it with
    its status.  And an item is dropped although the query regex matches
    one of its texts: the tool [silent] has the empty description, on
    which [^$] tests true, and a search of the tools for [^$] keeps
    nothing. *)
Lemma search_lists_disconnected_and_drops_empty_text :
  let E := Ecma.engine Ecma.nothing_outside in
  search (Fixtures.servers_named "alpha") Fixtures.session_alpha_down []
  = (Normal
       {| tools := None; resources := None; prompts := None;
          servers :=
            Some [ {| sr_name := "alpha"; sr_status := Disconnected;
                      sr_capabilities :=
                        {| sc_tools := true; sc_resources := true;
                           sc_prompts := true |} |} ] |},
     [])
  /\ ~ (forall q session w result listed s,
          search q session w = (Normal result, w) ->
          servers result = Some listed ->
          In s listed -> sr_status s = Connected)
  /\ (exists regex,
        createQueryRegex "^$" = Some regex
        /\ tool_description Fixtures.silent = Some EmptyString
        /\ test regex EmptyString = true
        /\ search {| query := "^$"; type := TypeTools; server := None;
                     includeSchemas := None |} Fixtures.session_mixed []
           = (Normal {| tools := Some []; resources := None; prompts := None;
                        servers := None |},
              [("alpha", ReqListTools); ("beta", ReqListTools)])).
Proof.
  cbv zeta. split; [reflexivity|]. split.
  - intros Hall.
    specialize (Hall (Fixtures.servers_named "alpha") Fixtures.session_alpha_down []
                  _ _ _ eq_refl eq_refl (or_introl eq_refl)).
    discriminate Hall.
  - eexists. repeat split.
Qed.

(** C3, amended.  When the query compiles, search does not throw.  For
    the kinds tools, resources and prompts it asks only servers that are
    connected and selected by the server filter, and from what they list
    it keeps an item exactly when at least one of its name, its
    description or (for resources only) its uri is a non-empty text on
    which the query regex tests true.  The servers kind asks no backend:
    it lists every server of the session manager's listing, whatever its
    status, that the server filter selects and whose name is hit by the
    query.  A kind the type filter excludes is absent from the result. *)
Theorem search_keeps_matching_items {E : RegExpEngine} (q : SearchQuery)
    (session : SessionState) (w : Wire) (regex : RegExp) :
  createQueryRegex (query q) = Some regex ->
  search q session w
  = (Normal
       {| tools := when (wants TypeTools (type q)) (toolsList q session regex);
          resources :=
            when (wants TypeResources (type q)) (resourcesList q session regex);
          prompts := when (wants TypePrompts (type q)) (promptsList q session regex);
          servers := when (wants TypeServers (type q)) (serversList q session regex) |},
     w ++ searchContacts q session)
  /\ (forall contact,
         In contact (searchContacts q session) ->
         exists name client,
           eligible session (server q) name client
           /\ fst contact = client_name client)
  /\ (forall t,
         In t (toolsList q session regex)
         <-> exists name client listed tool,
               eligible session (server q) name client
               /\ tools_of client = Normal listed
               /\ In tool listed
               /\ (hit regex (Some (tool_name tool))
                   \/ hit regex (tool_description tool))
               /\ t = toolResult name (includeSchemas q) tool)
  /\ (forall r,
         In r (resourcesList q session regex)
         <-> exists name client listed resource,
               eligible session (server q) name client
               /\ resources_of client = Normal listed
               /\ In resource listed
               /\ (hit regex (Some (resource_name resource))
                   \/ hit regex (Some (resource_uri resource))
                   \/ hit regex (resource_description resource))
               /\ r = resourceResult name resource)
  /\ (forall p,
         In p (promptsList q session regex)
         <-> exists name client listed prompt,
               eligible session (server q) name client
               /\ prompts_of client = Normal listed
               /\ In prompt listed
               /\ (hit regex (Some (prompt_name prompt))
                   \/ hit regex (prompt_description prompt))
               /\ p = promptResult name prompt)
  /\ (forall s,
         In s (serversList q session regex)
         <-> exists name conn,
               In (name, conn) (backendConnections session)
               /\ matchesServerFilter name (server q) = true
               /\ hit regex (Some name)
               /\ s = serverResult session
                        {| summary_name := name;
                           summary_status := conn_status conn |}).
Proof.
  intros Hregex. split; [|split; [|split; [|split; [|split]]]].
  - apply (search_spec q session w Hregex).
  - apply searchContacts_eligible.
  - intros t. unfold toolsList, toolsFound. rewrite found_eligible.
    split; intros [name [client [listed [tool H]]]];
      exists name, client, listed, tool;
      rewrite toolMatches_hit in *; tauto.
  - intros r. unfold resourcesList, resourcesFound. rewrite found_eligible.
    split; intros [name [client [listed [resource H]]]];
      exists name, client, listed, resource;
      rewrite resourceMatches_hit in *; tauto.
  - intros p. unfold promptsList, promptsFound. rewrite found_eligible.
    split; intros [name [client [listed [prompt H]]]];
      exists name, client, listed, prompt;
      rewrite promptMatches_hit in *; tauto.
  - intros s. apply serversList_In.
Qed.

Lemma search_keeps_matching_items_witness :
  let E := Ecma.engine Ecma.nothing_outside in
  let q := Fixtures.everything_named "e" in
  exists regex,
    createQueryRegex (query q) = Some regex
    /\ search q Fixtures.session_mixed []
       = (Normal (searchOutcome q Fixtures.session_mixed regex),
          [] ++ searchContacts q Fixtures.session_mixed)
    /\ toolsList q Fixtures.session_mixed regex
       = [toolResult "alpha" None Fixtures.echo;
          toolResult "alpha" None Fixtures.silent]
    /\ searchContacts q Fixtures.session_mixed
       = [("alpha", ReqListTools); ("beta", ReqListTools);
          ("alpha", ReqListResources); ("beta", ReqListResources);
          ("alpha", ReqListPrompts); ("beta", ReqListPrompts)].
Proof.
  cbv zeta. eexists. split; [reflexivity|]. split.
  - apply (proj1 (@search_keeps_matching_items (Ecma.engine Ecma.nothing_outside)
                    (Fixtures.everything_named "e") Fixtures.session_mixed []
                    _ eq_refl)).
  - split; reflexivity.
Defined.

Lemma flat_map_nil {A B : Type} (f : A -> list B) (xs : list A) :
  (forall x, In x xs -> f x = []) -> flat_map f xs = [].
Proof.
  induction xs as [|x xs IH]; intros Hf; simpl; [reflexivity|].
  rewrite (Hf x (or_introl eq_refl)), IH; [reflexivity|].
  intros y Hy. apply Hf. now right.
Qed.

Lemma all_fail_nothing_listed {E : RegExpEngine} {A B : Type}
    (session : SessionState) (serverPattern : option string)
    (answer : MCPHttpClient -> Completion (list A))
    (keep : A -> bool) (shape : string -> A -> B) :
  (forall name conn client,
      In (name, conn) (backendConnections session) ->
      conn_client conn = Some client ->
      exists err, answer client = Throw err) ->
  flat_map (found answer keep shape serverPattern)
    (getMatchingClients session serverPattern) = [].
Proof.
  intros Hfail. apply flat_map_nil. intros mc Hmc.
  apply matchingClients_In in Hmc. destruct Hmc as [conn [Hin [_ [Hc _]]]].
  destruct (Hfail _ _ _ Hin Hc) as [err Herr].
  eapply found_failure. exact Herr.
Qed.

Lemma all_fail_lists {E : RegExpEngine} (q : SearchQuery)
    (session : SessionState) (regex : RegExp) :
  every_backend_fails session ->
  toolsList q session regex = []
  /\ resourcesList q session regex = []
  /\ promptsList q session regex = [].
Proof.
  intros Hfail.
  unfold toolsList, resourcesList, promptsList,
    toolsFound, resourcesFound, promptsFound.
  repeat split; apply all_fail_nothing_listed;
    intros name conn client Hin Hc;
    apply (Hfail name conn client Hin Hc).
Qed.

(** C4, as the spec states it, fails: with every backend failing the
    result is not empty.  The session's only server, [alpha], is
    connected and fails every enumeration; a search of everything for
    [alpha] returns the server itself in the servers category. *)
Lemma search_with_failing_backends_lists_servers :
  let E := Ecma.engine Ecma.nothing_outside in
  every_backend_fails Fixtures.session_alpha_broken
  /\ search (Fixtures.everything_named "alpha") Fixtures.session_alpha_broken []
     = (Normal
          {| tools := Some []; resources := Some []; prompts := Some [];
             servers :=
               Some [ {| sr_name := "alpha"; sr_status := Connected;
                         sr_capabilities :=
                           {| sc_tools := true; sc_resources := true;
                              sc_prompts := true |} |} ] |},
        [("alpha", ReqListTools); ("alpha", ReqListResources);
         ("alpha", ReqListPrompts)])
  /\ ~ (forall q session w result w',
          every_backend_fails session ->
          search q session w = (Normal result, w') ->
          nothing_found result).
Proof.
  cbv zeta.
  assert (Hfails : every_backend_fails Fixtures.session_alpha_broken).
  { intros name conn client [[= <- <-]|[]] [= <-].
    repeat split; eexists; reflexivity. }
  split; [exact Hfails|]. split; [reflexivity|].
  intros Hall.
  specialize (Hall (Fixtures.everything_named "alpha")
                Fixtures.session_alpha_broken [] _ _ Hfails eq_refl).
  destruct Hall as [_ [_ [_ [Hnone|Hnil]]]]; discriminate.
Qed.

(** A matching client is asked for every kind the type requests. *)
Lemma matching_client_asked {E : RegExpEngine} (q : SearchQuery)
    (session : SessionState) (mc : MatchingClient) :
  In mc (getMatchingClients session (server q)) ->
  (wants TypeTools (type q) = true ->
   In (client_name (mc_client mc), ReqListTools) (searchContacts q session))
  /\ (wants TypeResources (type q) = true ->
      In (client_name (mc_client mc), ReqListResources) (searchContacts q session))
  /\ (wants TypePrompts (type q) = true ->
      In (client_name (mc_client mc), ReqListPrompts) (searchContacts q session)).
Proof.
  intros Hmc.
  assert (Hasked : forall req,
             In (client_name (mc_client mc), req)
                (flat_map (asked req (server q))
                   (getMatchingClients session (server q)))).
  { intros req. apply in_flat_map. exists mc. split; [exact Hmc|].
    apply matchingClients_In in Hmc. destruct Hmc as [conn [_ [_ [_ Hfilter]]]].
    unfold asked. rewrite Hfilter. now left. }
  unfold searchContacts. repeat split; intros Hwants; rewrite Hwants.
  - apply in_or_app. left. apply Hasked.
  - apply in_or_app. right. apply in_or_app. left. apply Hasked.
  - apply in_or_app. right. apply in_or_app. right. apply Hasked.
Qed.

(** A client whose enumeration fails is skipped: the items found are
    those of the clients before it and of the clients after it. *)
Lemma failing_client_skipped {E : RegExpEngine} {A B : Type}
    (answer : MCPHttpClient -> Completion (list A)) (keep : A -> bool)
    (shape : string -> A -> B) (serverPattern : option string)
    (before : list MatchingClient) (mc : MatchingClient)
    (after : list MatchingClient) (err : JsError) :
  answer (mc_client mc) = Throw err ->
  flat_map (found answer keep shape serverPattern) (before ++ mc :: after)
  = flat_map (found answer keep shape serverPattern) before
    ++ flat_map (found answer keep shape serverPattern) after.
Proof.
  intros Hfail. rewrite flat_map_app. cbn [flat_map].
  now rewrite (found_failure answer keep shape serverPattern mc Hfail).
Qed.

(** C4, amended.  For a query that compiles, a backend whose
    enumeration fails does not make [search] throw: each of the
    categories tools, resources and prompts is the concatenation of what
    the matching servers contribute, a server whose enumeration fails
    contributes nothing, so that the category holds what the servers
    before it and after it contribute, and every matching server is
    asked for every requested kind, whatever the others answered.  When
    every backend fails, each of the categories tools, resources and
    prompts in the result is the empty list; the servers category,
    which is built without asking a backend, still lists the servers
    the query selects. *)
Theorem search_suppresses_backend_failures {E : RegExpEngine} (q : SearchQuery)
    (session : SessionState) (w : Wire) (regex : RegExp) :
  createQueryRegex (query q) = Some regex ->
  let clients := getMatchingClients session (server q) in
  (exists result,
      search q session w = (Normal result, w ++ searchContacts q session)
      /\ tools result
         = when (wants TypeTools (type q))
             (flat_map (toolsFound regex (server q) (includeSchemas q)) clients)
      /\ resources result
         = when (wants TypeResources (type q))
             (flat_map (resourcesFound regex (server q)) clients)
      /\ prompts result
         = when (wants TypePrompts (type q))
             (flat_map (promptsFound regex (server q)) clients)
      /\ servers result
         = when (wants TypeServers (type q)) (serversList q session regex))
  /\ (forall mc,
         In mc clients ->
         (wants TypeTools (type q) = true ->
          In (client_name (mc_client mc), ReqListTools)
             (snd (search q session w)))
         /\ (wants TypeResources (type q) = true ->
             In (client_name (mc_client mc), ReqListResources)
                (snd (search q session w)))
         /\ (wants TypePrompts (type q) = true ->
             In (client_name (mc_client mc), ReqListPrompts)
                (snd (search q session w))))
  /\ (forall before mc after err,
         clients = before ++ mc :: after ->
         tools_of (mc_client mc) = Throw err ->
         flat_map (toolsFound regex (server q) (includeSchemas q)) clients
         = flat_map (toolsFound regex (server q) (includeSchemas q)) before
           ++ flat_map (toolsFound regex (server q) (includeSchemas q)) after)
  /\ (forall before mc after err,
         clients = before ++ mc :: after ->
         resources_of (mc_client mc) = Throw err ->
         flat_map (resourcesFound regex (server q)) clients
         = flat_map (resourcesFound regex (server q)) before
           ++ flat_map (resourcesFound regex (server q)) after)
  /\ (forall before mc after err,
         clients = before ++ mc :: after ->
         prompts_of (mc_client mc) = Throw err ->
         flat_map (promptsFound regex (server q)) clients
         = flat_map (promptsFound regex (server q)) before
           ++ flat_map (promptsFound regex (server q)) after)
  /\ (every_backend_fails session ->
      fst (search q session w)
      = Normal
          {| tools := when (wants TypeTools (type q)) [];
             resources := when (wants TypeResources (type q)) [];
             prompts := when (wants TypePrompts (type q)) [];
             servers :=
               when (wants TypeServers (type q)) (serversList q session regex) |}).
Proof.
  intros Hregex clients.
  pose proof (search_spec q session w Hregex) as Hrun.
  split; [|split; [|split; [|split; [|split]]]].
  - exists (searchOutcome q session regex). split; [exact Hrun|].
    repeat split.
  - intros mc Hmc. rewrite Hrun. cbn [snd].
    destruct (matching_client_asked q session mc Hmc) as [Ht [Hr Hp]].
    repeat split; intros Hwants; apply in_or_app; right; auto.
  - intros before mc after err Hsplit Hfail. rewrite Hsplit.
    unfold toolsFound. now apply failing_client_skipped with err.
  - intros before mc after err Hsplit Hfail. rewrite Hsplit.
    unfold resourcesFound. now apply failing_client_skipped with err.
  - intros before mc after err Hsplit Hfail. rewrite Hsplit.
    unfold promptsFound. now apply failing_client_skipped with err.
  - intros Hfail. rewrite Hrun. cbn [fst]. unfold searchOutcome.
    destruct (all_fail_lists q regex Hfail) as [-> [-> ->]]. reflexivity.
Qed.

(** [beta] fails every enumeration and comes first; [alpha] and [gamma]
    are asked all the same and their tools are found. *)
Lemma search_suppresses_backend_failures_witness :
  let E := Ecma.engine Ecma.nothing_outside in
  let q := Fixtures.everything_named "echo" in
  (exists regex, createQueryRegex (query q) = Some regex)
  /\ tools_of (Fixtures.client "beta" Connected Fixtures.broken)
     = Throw Fixtures.unavailable
  /\ search q session_broken_first []
     = (Normal
          {| tools := Some [toolResult "alpha" None Fixtures.echo;
                            toolResult "gamma" None Fixtures.echo];
             resources := Some [];
             prompts := Some [];
             servers := Some [] |},
        [("beta", ReqListTools); ("alpha", ReqListTools); ("gamma", ReqListTools);
         ("beta", ReqListResources); ("alpha", ReqListResources);
         ("gamma", ReqListResources);
         ("beta", ReqListPrompts); ("alpha", ReqListPrompts);
         ("gamma", ReqListPrompts)])
  /\ In ("gamma", ReqListTools) (snd (search q session_broken_first []))
  /\ every_backend_fails Fixtures.session_alpha_broken
  /\ fst (search (Fixtures.everything_named "alpha") Fixtures.session_alpha_broken [])
     = Normal
         {| tools := Some []; resources := Some []; prompts := Some [];
            servers :=
              Some [ {| sr_name := "alpha"; sr_status := Connected;
                        sr_capabilities :=
                          {| sc_tools := true; sc_resources := true;
                             sc_prompts := true |} |} ] |}.
Proof.
  cbv zeta.
  assert (Hfails : every_backend_fails Fixtures.session_alpha_broken).
  { intros name conn client [[= <- <-]|[]] [= <-].
    repeat split; eexists; reflexivity. }
  destruct (@search_suppresses_backend_failures
              (Ecma.engine Ecma.nothing_outside)
              (Fixtures.everything_named "echo") session_broken_first []
              _ eq_refl)
    as [_ [Hasked _]].
  destruct (@search_suppresses_backend_failures
              (Ecma.engine Ecma.nothing_outside)
              (Fixtures.everything_named "alpha") Fixtures.session_alpha_broken []
              _ eq_refl)
    as [_ [_ [_ [_ [_ Hall]]]]].
  split; [eexists; reflexivity|]. split; [reflexivity|].
  split; [reflexivity|]. split.
  - assert (Hgamma : In {| mc_name := "gamma";
                           mc_client := Fixtures.client "gamma" Connected
                                          Fixtures.healthy |}
                        (@getMatchingClients (Ecma.engine Ecma.nothing_outside)
                           session_broken_first None)).
    { vm_compute. right. right. left. reflexivity. }
    destruct (Hasked _ Hgamma) as [Htools _]. apply Htools. reflexivity.
  - split; [exact Hfails|]. rewrite (Hall Hfails). reflexivity.
Defined.

(* ================================================================== *)
(** * Facts: call accounting                                           *)
(* ================================================================== *)

Section Accounting.
Variable session : Api.Method -> Completion Json.

Lemma billableCount_snoc (trace : list Api.Method) (m : Api.Method) :
  Api.billableCount (trace ++ [m]) = Api.billableCount trace + weight m.
Proof.
  unfold Api.billableCount, weight. rewrite filter_app, length_app. simpl.
  destruct (Api.billable m); reflexivity.
Qed.

(** A billable invocation: the count goes up first; over the limit the
    call fails and nothing is dispatched, within the limit the call is
    dispatched and ends as the session answers. *)
Lemma invoke_billable (m : Api.Method) (ctx : Api.ExecutionContext) :
  Api.billable m = true ->
  let limit := Api.maxMcpCalls (Api.config ctx) in
  let ctx' := snd (Api.invoke session m ctx) in
  Api.callCount ctx' = S (Api.callCount ctx)
  /\ Api.config ctx' = Api.config ctx
  /\ Api.begun ctx' = Api.begun ctx ++ [m]
  /\ Api.logs ctx' = Api.logs ctx
  /\ (limit < S (Api.callCount ctx) ->
      fst (Api.invoke session m ctx) = Throw (Error (Api.limitMessage limit))
      /\ Api.dispatched ctx' = Api.dispatched ctx)
  /\ (S (Api.callCount ctx) <= limit ->
      fst (Api.invoke session m ctx) = session m
      /\ Api.dispatched ctx' = Api.dispatched ctx ++ [m]).
Proof.
  intros Hb. cbv zeta.
  assert (Hrun : Api.invoke session m ctx
                 = (Api.countCall ;;; Api.dispatch session m)
                     (Api.with_begun (fun l => l ++ [m]) ctx))
    by (destruct m; try discriminate Hb; reflexivity).
  rewrite Hrun. unfold Api.countCall, Api.dispatch, bind, modify, gets, throw, ret.
  cbn [Api.with_begun Api.with_callCount Api.callCount Api.config].
  destruct (Nat.ltb_spec (Api.maxMcpCalls (Api.config ctx)) (S (Api.callCount ctx)))
    as [Hover|Hwithin]; cbn; repeat split; try reflexivity; intros; try lia;
    reflexivity.
Qed.

(** [sleep] and [log] never touch the count and dispatch nothing. *)
Lemma invoke_free (m : Api.Method) (ctx : Api.ExecutionContext) :
  Api.billable m = false ->
  let ctx' := snd (Api.invoke session m ctx) in
  Api.callCount ctx' = Api.callCount ctx
  /\ Api.config ctx' = Api.config ctx
  /\ Api.begun ctx' = Api.begun ctx ++ [m]
  /\ Api.dispatched ctx' = Api.dispatched ctx
  /\ fst (Api.invoke session m ctx) = Normal Api.undefined.
Proof.
  intros Hb. destruct m; try discriminate Hb; cbn; repeat split.
Qed.

Lemma invoke_counts (m : Api.Method) (ctx : Api.ExecutionContext) :
  let ctx' := snd (Api.invoke session m ctx) in
  Api.callCount ctx' = Api.callCount ctx + weight m
  /\ Api.begun ctx' = Api.begun ctx ++ [m].
Proof.
  cbv zeta. unfold weight. destruct (Api.billable m) eqn:Hb.
  - destruct (invoke_billable m ctx Hb) as [Hc [_ [Hbegun _]]].
    rewrite Hc, Hbegun. split; [lia | reflexivity].
  - destruct (invoke_free m ctx Hb) as [Hc [_ [Hbegun _]]].
    rewrite Hc, Hbegun. split; [lia | reflexivity].
Qed.

(** Along a run the count grows by the number of billable invocations
    that began. *)
Lemma run_counts (code : Api.Script) :
  forall (deadline : nat) (ctx : Api.ExecutionContext),
    let ctx' := snd (Api.run session deadline code ctx) in
    Api.callCount ctx' + Api.billableCount (Api.begun ctx)
    = Api.callCount ctx + Api.billableCount (Api.begun ctx').
Proof.
  induction code as [v|e|m k IH]; intros deadline ctx; cbv zeta.
  - cbn. lia.
  - cbn. lia.
  - cbn [Api.run].
    destruct (invoke_counts m ctx) as [Hc Hbegun].
    destruct (Api.invoke session m ctx) as [outcome ctx1]. cbn [snd] in *.
    destruct deadline as [|deadline].
    + cbn [snd]. rewrite Hc, Hbegun, billableCount_snoc. lia.
    + specialize (IH outcome deadline ctx1). cbv zeta in IH.
      rewrite Hbegun, billableCount_snoc in IH. lia.
Qed.
End Accounting.

(** C1.  A billable method of the capability API increments [callCount]
    before anything else; when the value after the increment exceeds
    [maxMcpCalls] it throws "Maximum mcp.* call limit exceeded (<max>)"
    and dispatches nothing to the session; otherwise it dispatches the
    call.  [sleep] and [log] leave the count alone.  For every
    execution, [stats.mcpCalls] is the number of billable invocations
    that began. *)
Theorem billable_calls_are_counted (session : Api.Method -> Completion Json) :
  (forall m ctx,
      Api.billable m = true ->
      let limit := Api.maxMcpCalls (Api.config ctx) in
      let ctx' := snd (Api.invoke session m ctx) in
      Api.callCount ctx' = S (Api.callCount ctx)
      /\ (limit < S (Api.callCount ctx) ->
          fst (Api.invoke session m ctx)
          = Throw (Error ("Maximum mcp.* call limit exceeded ("
                          ++ string_of_nat limit ++ ")")%string)
          /\ Api.dispatched ctx' = Api.dispatched ctx)
      /\ (S (Api.callCount ctx) <= limit ->
          fst (Api.invoke session m ctx) = session m
          /\ Api.dispatched ctx' = Api.dispatched ctx ++ [m]))
  /\ (forall m,
         Api.billable m = true
         <-> (forall ms, m <> Api.sleep ms) /\ (forall vals, m <> Api.log vals))
  /\ (forall m ctx,
         Api.billable m = false ->
         Api.callCount (snd (Api.invoke session m ctx)) = Api.callCount ctx
         /\ Api.dispatched (snd (Api.invoke session m ctx)) = Api.dispatched ctx)
  /\ (forall code cfg initialLogs deadline,
         let run := Api.executeSandbox session code cfg initialLogs deadline in
         Api.stats_mcpCalls (fst run) = Api.billableCount (Api.begun (snd run))).
Proof.
  split; [|split; [|split]].
  - intros m ctx Hb. cbv zeta.
    destruct (invoke_billable session m ctx Hb) as [Hc [_ [_ [_ [Hover Hwithin]]]]].
    split; [exact Hc|]. split; [exact Hover | exact Hwithin].
  - intros m. split.
    + intros Hb. split; intros ? ->; discriminate Hb.
    + intros [Hs Hl]. destruct m; try reflexivity.
      * now elim (Hs ms).
      * now elim (Hl vals).
  - intros m ctx Hb.
    destruct (invoke_free session m ctx Hb) as [Hc [_ [_ [Hd _]]]].
    split; assumption.
  - intros code cfg initialLogs deadline. cbv zeta. unfold Api.executeSandbox.
    pose proof (run_counts session code deadline (Api.newContext cfg initialLogs))
      as Hcount. cbv zeta in Hcount.
    destruct (Api.run session deadline code (Api.newContext cfg initialLogs))
      as [[v|e] ctx]; cbn in *; lia.
Qed.

(** The three tests of "MCP Call Limits". *)
Example test_enforces_mcp_call_limit :
  let r := fst (Api.executeSandbox Fixtures.mock Fixtures.ten_calls
                  (Fixtures.config_with_limit 5) [] 100) in
  Api.success r = false
  /\ Api.error r = Some (Error "Maximum mcp.* call limit exceeded (5)")
  /\ Api.isCallLimitExceeded r = true
  /\ Api.stats_mcpCalls r = 6.
Proof. repeat split. Qed.

Example test_allows_calls_within_limit :
  let r := fst (Api.executeSandbox Fixtures.mock Fixtures.two_calls
                  (Fixtures.config_with_limit 10) [] 100) in
  Api.success r = true /\ Api.stats_mcpCalls r = 2.
Proof. repeat split. Qed.

Example test_sleep_and_log_are_free :
  let r := fst (Api.executeSandbox Fixtures.mock Fixtures.sleeps_and_logs
                  (Fixtures.config_with_limit 1) [] 100) in
  Api.success r = true
  /\ Api.stats_mcpCalls r = 0
  /\ Api.result_logs r = ["test1"; "test2"; "test3"].
Proof. repeat split. Qed.

(** A run cut by the deadline still reports the calls that began. *)
Example timed_out_run_counts_begun_calls :
  let r := fst (Api.executeSandbox Fixtures.mock Fixtures.ten_calls
                  (Fixtures.config_with_limit 100) [] 3) in
  Api.isTimeout r = true /\ Api.stats_mcpCalls r = 4.
Proof. repeat split. Qed.

Lemma billable_calls_are_counted_witness :
  let run := Api.executeSandbox Fixtures.mock Fixtures.ten_calls
               (Fixtures.config_with_limit 5) [] 100 in
  Api.stats_mcpCalls (fst run) = Api.billableCount (Api.begun (snd run))
  /\ Api.billableCount (Api.begun (snd run)) = 6
  /\ Api.dispatched (snd run)
     = [Api.listServers; Api.listServers; Api.listServers; Api.listServers;
        Api.listServers].
Proof.
  split.
  - apply (proj2 (proj2 (proj2 (billable_calls_are_counted Fixtures.mock)))).
  - split; reflexivity.
Defined.

(* ================================================================== *)
(** * More facts: maps                                                 *)
(* ================================================================== *)

Module JsMapMore.
Section Facts.
Context {V : Type}.
Implicit Types (m : JsMap.t V) (k : string) (v : V).

Lemma get_delete_other k k' m :
  k' <> k -> JsMap.get k' (JsMap.delete k m) = JsMap.get k' m.
Proof.
  intros Hne. unfold JsMap.delete.
  induction m as [|[k0 v0] m IH]; simpl; [reflexivity|].
  destruct (String.eqb_spec k0 k) as [->|Hk0]; simpl.
  - destruct (String.eqb_spec k k'); [congruence | exact IH].
  - destruct (String.eqb_spec k0 k'); [reflexivity | exact IH].
Qed.

Lemma delete_absent k m : JsMap.get k m = None -> JsMap.delete k m = m.
Proof.
  unfold JsMap.delete. induction m as [|[k0 v0] m IH]; simpl; [reflexivity|].
  destruct (String.eqb_spec k0 k) as [->|Hk0]; simpl; [discriminate|].
  intros Hg. now rewrite IH.
Qed.

Lemma set_fresh k v m : JsMap.get k m = None -> JsMap.set k v m = m ++ [(k, v)].
Proof.
  induction m as [|[k0 v0] m IH]; simpl; [reflexivity|].
  destruct (String.eqb_spec k0 k) as [->|Hk0]; [discriminate|].
  intros Hg. now rewrite IH.
Qed.

Lemma size_set k v m :
  JsMap.size (JsMap.set k v m)
  = if JsMap.has k m then JsMap.size m else S (JsMap.size m).
Proof.
  unfold JsMap.size, JsMap.has.
  induction m as [|[k0 v0] m IH]; simpl; [reflexivity|].
  destruct (String.eqb_spec k0 k) as [->|Hk0]; simpl; [reflexivity|].
  rewrite IH. now destruct (JsMap.get k m).
Qed.

Lemma delete_set_fresh k v m :
  JsMap.get k m = None -> JsMap.delete k (JsMap.set k v m) = m.
Proof.
  intros Hg. rewrite (set_fresh _ _ _ Hg). unfold JsMap.delete.
  rewrite filter_app. simpl. rewrite String.eqb_refl. simpl.
  rewrite app_nil_r. apply (delete_absent _ _ Hg).
Qed.

Lemma get_keys k m : JsMap.get k m <> None <-> In k (JsMap.keys m).
Proof.
  induction m as [|[k0 v0] m IH]; simpl; [tauto|].
  destruct (String.eqb_spec k0 k) as [->|Hk0].
  - split; [now left | discriminate].
  - rewrite IH. split; [now right | intros [H|H]; [congruence | exact H]].
Qed.

Lemma size_delete_present k m :
  JsMap.wf m -> In k (JsMap.keys m) ->
  S (JsMap.size (JsMap.delete k m)) = JsMap.size m.
Proof.
  unfold JsMap.wf, JsMap.size, JsMap.delete.
  induction m as [|[k0 v0] m IH]; simpl; [tauto|].
  intros Hnd Hin. inversion Hnd as [|? ? Hnotin Hnd']; subst.
  destruct (String.eqb_spec k0 k) as [->|Hk0]; simpl.
  - f_equal. apply f_equal. apply delete_absent.
    destruct (JsMap.get k m) eqn:Hg; [|reflexivity].
    exfalso. apply Hnotin. apply get_keys. congruence.
  - f_equal. apply IH; [exact Hnd'|]. destruct Hin; [congruence | assumption].
Qed.

Lemma size_delete_le k m : JsMap.size (JsMap.delete k m) <= JsMap.size m.
Proof. unfold JsMap.size, JsMap.delete. apply filter_length_le. Qed.

Lemma values_set_fresh k v m :
  JsMap.get k m = None -> JsMap.values (JsMap.set k v m) = JsMap.values m ++ [v].
Proof.
  intros Hg. rewrite (set_fresh _ _ _ Hg). unfold JsMap.values.
  now rewrite map_app.
Qed.

Lemma keys_set_present k v m :
  JsMap.get k m <> None -> JsMap.keys (JsMap.set k v m) = JsMap.keys m.
Proof.
  intros Hg. rewrite JsMapFacts.keys_set. unfold JsMap.has.
  destruct (JsMap.get k m); [reflexivity | congruence].
Qed.
End Facts.
End JsMapMore.

(* ================================================================== *)
(** * More facts: the registry                                         *)
(* ================================================================== *)

Lemma connected_accepts (r : ServerRegistry) (name : string)
    (client : MCPHttpClient) :
  JsMap.get name (clients r) = Some client ->
  client_status client = Connected ->
  getConnectedClient name r = (Normal client, r).
Proof.
  intros Hget Hs. apply getConnectedClient_accepts; [exact Hget|].
  unfold isConnected. now rewrite Hs.
Qed.

(** X1. A targeted call on a registered, connected server puts exactly
    one request on the wire, for that server, and ends the way the
    backend answers: a rejection of the backend is thrown to the caller.
    Omitted arguments are sent as [{}]. *)
Theorem targeted_operation_dispatched (r : ServerRegistry) (name : string)
    (client : MCPHttpClient) :
  JsMap.get name (clients r) = Some client ->
  client_status client = Connected ->
  (forall tool args,
      executeTool name tool args r
      = (on_callTool (client_backend client) tool (default_args args),
         with_wire
           (fun w => w ++ [(client_name client,
                            ReqCallTool tool (default_args args))]) r))
  /\ (forall uri,
         readResource name uri r
         = (on_readResource (client_backend client) uri,
            with_wire (fun w => w ++ [(client_name client, ReqReadResource uri)]) r))
  /\ (forall prompt args,
         getPrompt name prompt args r
         = (on_getPrompt (client_backend client) prompt (default_args args),
            with_wire
              (fun w => w ++ [(client_name client,
                               ReqGetPrompt prompt (default_args args))]) r))
  /\ default_args None = "{}"
  /\ (forall args, default_args (Some args) = args).
Proof.
  intros Hget Hs. pose proof (connected_accepts _ _ Hget Hs) as Hc.
  unfold executeTool, readResource, getPrompt.
  repeat split; intros; unfold bind; rewrite Hc; reflexivity.
Qed.

Lemma targeted_operation_dispatched_witness :
  JsMap.get "alpha" (clients Fixtures.busy_registry)
  = Some (Fixtures.client "alpha" Connected Fixtures.healthy)
  /\ fst (executeTool "alpha" "echo" (Some "hello") Fixtures.busy_registry)
     = Normal "hello"
  /\ wire (after (executeTool "alpha" "echo" None) Fixtures.busy_registry)
     = wire Fixtures.busy_registry ++ [("alpha", ReqCallTool "echo" "{}")].
Proof.
  split; [reflexivity|].
  destruct (@targeted_operation_dispatched Fixtures.busy_registry "alpha" _
              eq_refl eq_refl) as [Hexecute _].
  split.
  - rewrite Hexecute. reflexivity.
  - unfold after. rewrite Hexecute. reflexivity.
Defined.

Section NamedList.
Context {A : Type} (req : Request) (answer : MCPHttpClient -> Completion (list A)).

Lemma named_list (r : ServerRegistry) (name : string) (client : MCPHttpClient) :
  JsMap.get name (clients r) = Some client ->
  client_status client = Connected ->
  listFrom (fun c => request c req (answer c)) (Some name) r
  = (match answer client with
     | Normal items => Normal (map (tag name) items)
     | Throw err => Throw err
     end,
     with_wire (fun w => w ++ [(client_name client, req)]) r).
Proof.
  intros Hget Hs. unfold listFrom, bind at 1.
  rewrite (connected_accepts _ _ Hget Hs).
  unfold bind, request. cbn [send registry_wired].
  destruct (answer client) as [items|err]; [|reflexivity].
  rewrite pushTagged_spec. reflexivity.
Qed.
End NamedList.

(** X2. A list method called with the name of a connected server asks
    that server once and returns what it lists, in its order, each item
    tagged with the name asked for; when the backend rejects, the error
    is thrown to the caller, unlike in a fan-out, where the same server
    would silently contribute nothing. *)
Theorem named_list_propagates (r : ServerRegistry) (name : string)
    (client : MCPHttpClient) :
  JsMap.get name (clients r) = Some client ->
  client_status client = Connected ->
  listTools (Some name) r
  = (match tools_of client with
     | Normal items => Normal (map (tag name) items)
     | Throw err => Throw err
     end,
     with_wire (fun w => w ++ [(client_name client, ReqListTools)]) r)
  /\ listResources (Some name) r
     = (match resources_of client with
        | Normal items => Normal (map (tag name) items)
        | Throw err => Throw err
        end,
        with_wire (fun w => w ++ [(client_name client, ReqListResources)]) r)
  /\ listResourceTemplates (Some name) r
     = (match templates_of client with
        | Normal items => Normal (map (tag name) items)
        | Throw err => Throw err
        end,
        with_wire
          (fun w => w ++ [(client_name client, ReqListResourceTemplates)]) r)
  /\ listPrompts (Some name) r
     = (match prompts_of client with
        | Normal items => Normal (map (tag name) items)
        | Throw err => Throw err
        end,
        with_wire (fun w => w ++ [(client_name client, ReqListPrompts)]) r)
  /\ (forall err, tools_of client = Throw err ->
        contribution tools_of (name, client) = []).
Proof.
  intros Hget Hs. repeat split.
  - apply (named_list ReqListTools tools_of _ _ Hget Hs).
  - apply (named_list ReqListResources resources_of _ _ Hget Hs).
  - apply (named_list ReqListResourceTemplates templates_of _ _ Hget Hs).
  - apply (named_list ReqListPrompts prompts_of _ _ Hget Hs).
  - intros err Herr. apply contribution_nothing. right. eauto.
Qed.

(** [delta] is connected and rejects every enumeration. *)
Lemma named_list_propagates_witness :
  listTools (Some "delta") Samples.flaky_registry
  = (Throw Fixtures.unavailable,
     with_wire (fun w => w ++ [("delta", ReqListTools)]) Samples.flaky_registry)
  /\ fst (listTools None Samples.flaky_registry)
     = Normal [tag "alpha" Fixtures.echo; tag "alpha" Fixtures.silent]
  /\ fst (listTools (Some "alpha") Samples.flaky_registry)
     = Normal [tag "alpha" Fixtures.echo; tag "alpha" Fixtures.silent].
Proof.
  split.
  - apply (proj1 (@named_list_propagates Samples.flaky_registry "delta" _
                    eq_refl eq_refl)).
  - split; reflexivity.
Defined.

Lemma pending_with_pending (kind : RequestKind)
    (f : JsMap.t PendingRequest -> JsMap.t PendingRequest) (r : ServerRegistry) :
  pending kind (with_pending kind f r) = f (pending kind r)
  /\ pending (other kind) (with_pending kind f r) = pending (other kind) r.
Proof. destruct kind; split; reflexivity. Qed.

Lemma respond_missing (kind : RequestKind) (id : string) (result : Json)
    (r : ServerRegistry) :
  JsMap.get id (pending kind r) = None ->
  respondToRequest kind id result r = (Throw (Error (notPendingMessage kind id)), r).
Proof.
  intros Hg. unfold respondToRequest, bind, gets. now rewrite Hg.
Qed.

Lemma reject_missing (kind : RequestKind) (id error : string)
    (r : ServerRegistry) :
  JsMap.get id (pending kind r) = None ->
  rejectRequest kind id error r = (Throw (Error (notPendingMessage kind id)), r).
Proof.
  intros Hg. unfold rejectRequest, bind, gets. now rewrite Hg.
Qed.

Lemma respond_found (kind : RequestKind) (id : string) (result : Json)
    (r : ServerRegistry) (request : PendingRequest) :
  JsMap.get id (pending kind r) = Some request ->
  respondToRequest kind id result r
  = (Normal tt,
     with_settled (fun l => l ++ [Resolved kind (req_id request) result])
       (with_pending kind (JsMap.delete id) r)).
Proof.
  intros Hg. unfold respondToRequest, bind, gets. now rewrite Hg.
Qed.

Lemma reject_found (kind : RequestKind) (id error : string)
    (r : ServerRegistry) (request : PendingRequest) :
  JsMap.get id (pending kind r) = Some request ->
  rejectRequest kind id error r
  = (Normal tt,
     with_settled (fun l => l ++ [Rejected kind (req_id request) (Error error)])
       (with_pending kind (JsMap.delete id) r)).
Proof.
  intros Hg. unfold rejectRequest, bind, gets. now rewrite Hg.
Qed.

Lemma pending_with_settled (kind : RequestKind)
    (f : list Settlement -> list Settlement) (r : ServerRegistry) :
  pending kind (with_settled f r) = pending kind r.
Proof. now destruct kind. Qed.

Lemma settled_with_pending (kind : RequestKind)
    (f : JsMap.t PendingRequest -> JsMap.t PendingRequest) (r : ServerRegistry) :
  settled (with_pending kind f r) = settled r.
Proof. now destruct kind. Qed.

(** X3. Responding to or rejecting a request id that is not pending
    throws "<Kind> request '<id>' not found or already completed" and
    changes nothing.  On a pending id the request is settled once
    (resolved with the result, or rejected with the error), only that
    entry leaves the map of its kind, the other kind is untouched, and
    every later respond or reject for the id throws. *)
Theorem request_settled_once (kind : RequestKind) (id : string)
    (r : ServerRegistry) :
  (JsMap.get id (pending kind r) = None ->
   (forall result,
       respondToRequest kind id result r
       = (Throw (Error (notPendingMessage kind id)), r))
   /\ (forall error,
          rejectRequest kind id error r
          = (Throw (Error (notPendingMessage kind id)), r)))
  /\ (forall request,
         JsMap.get id (pending kind r) = Some request ->
         forall (settle : M ServerRegistry unit) (outcome : Settlement),
           (exists result,
               settle = respondToRequest kind id result
               /\ outcome = Resolved kind (req_id request) result)
           \/ (exists error,
                  settle = rejectRequest kind id error
                  /\ outcome = Rejected kind (req_id request) (Error error)) ->
           let r' := after settle r in
           settle r = (Normal tt, r')
           /\ settled r' = settled r ++ [outcome]
           /\ JsMap.get id (pending kind r') = None
           /\ (forall id', id' <> id ->
                 JsMap.get id' (pending kind r') = JsMap.get id' (pending kind r))
           /\ pending (other kind) r' = pending (other kind) r
           /\ (forall result,
                  respondToRequest kind id result r'
                  = (Throw (Error (notPendingMessage kind id)), r'))
           /\ (forall error,
                  rejectRequest kind id error r'
                  = (Throw (Error (notPendingMessage kind id)), r'))).
Proof.
  split.
  - intros Hg. split; intros; [apply respond_missing | apply reject_missing];
      exact Hg.
  - intros request Hg settle outcome Hsettle. cbv zeta.
    assert (Hrun : settle r
                   = (Normal tt,
                      with_settled (fun l => l ++ [outcome])
                        (with_pending kind (JsMap.delete id) r))).
    { destruct Hsettle as [[result [-> ->]]|[error [-> ->]]].
      - apply (respond_found _ _ _ _ Hg).
      - apply (reject_found _ _ _ _ Hg). }
    unfold after. rewrite Hrun. cbn [snd].
    assert (Hgone : JsMap.get id
                      (pending kind
                         (with_settled (fun l => l ++ [outcome])
                            (with_pending kind (JsMap.delete id) r))) = None).
    { rewrite pending_with_settled.
      rewrite (proj1 (pending_with_pending kind _ r)).
      apply JsMapFacts.get_delete_same. }
    split; [reflexivity|]. split.
    { cbn [with_settled settled]. now rewrite settled_with_pending. }
    split; [exact Hgone|]. split.
    { intros id' Hne. rewrite pending_with_settled.
      rewrite (proj1 (pending_with_pending kind _ r)).
      now apply JsMapMore.get_delete_other. }
    split.
    { rewrite pending_with_settled.
      apply (proj2 (pending_with_pending kind _ r)). }
    split; intros; [apply respond_missing | apply reject_missing]; exact Hgone.
Qed.

(** [r1] is pending in the busy registry; [r9] is not. *)
Lemma request_settled_once_witness :
  let r := Fixtures.busy_registry in
  JsMap.get "r9" (pending Sampling r) = None
  /\ respondToRequest Sampling "r9" "{}" r
     = (Throw (Error "Sampling request 'r9' not found or already completed"), r)
  /\ JsMap.get "r1" (pending Sampling r)
     = Some (Fixtures.sampling_request "r1" "alpha")
  /\ settled (after (respondToRequest Sampling "r1" "ok") r)
     = [Resolved Sampling "r1" "ok"]
  /\ fst (rejectRequest Sampling "r1" "late"
            (after (respondToRequest Sampling "r1" "ok") r))
     = Throw (Error "Sampling request 'r1' not found or already completed").
Proof.
  cbv zeta.
  destruct (request_settled_once Sampling "r9" Fixtures.busy_registry)
    as [Hmissing _].
  destruct (request_settled_once Sampling "r1" Fixtures.busy_registry)
    as [_ Hfound].
  specialize (Hfound _ eq_refl (respondToRequest Sampling "r1" "ok")
                (Resolved Sampling "r1" "ok")
                (or_introl (ex_intro _ "ok" (conj eq_refl eq_refl)))).
  cbv zeta in Hfound.
  destruct Hfound as [_ [Hsettled [_ [_ [_ [_ Hreject]]]]]].
  split; [reflexivity|]. split; [apply (proj1 (Hmissing eq_refl))|].
  split; [reflexivity|]. split; [exact Hsettled|].
  rewrite Hreject. reflexivity.
Defined.

Lemma timer_idle (kind : RequestKind) (request : PendingRequest)
    (r : ServerRegistry) :
  JsMap.get (req_id request) (pending kind r) = None ->
  requestTimedOut kind request r = (Normal tt, r).
Proof.
  intros Hg. unfold requestTimedOut, bind, gets. now rewrite Hg.
Qed.

(** X4. The timer of a request does nothing when no request is pending
    under its id any more, in particular after the request was answered
    or rejected.  When one is still pending, the timer takes it out of
    the map and rejects it with "<Kind> request timed out after
    <requestTimeoutMs>ms"; the timeout of a registry built without the
    option is 300000 ms. *)
Theorem timer_rejects_only_pending (kind : RequestKind)
    (request : PendingRequest) (r : ServerRegistry) :
  (JsMap.get (req_id request) (pending kind r) = None ->
   requestTimedOut kind request r = (Normal tt, r))
  /\ (forall stored,
         JsMap.get (req_id request) (pending kind r) = Some stored ->
         let r' := after (requestTimedOut kind request) r in
         requestTimedOut kind request r = (Normal tt, r')
         /\ settled r'
            = settled r
              ++ [Rejected kind (req_id stored)
                    (Error (timedOutMessage kind (requestTimeoutMs r)))]
         /\ JsMap.get (req_id request) (pending kind r') = None
         /\ pending (other kind) r' = pending (other kind) r
         /\ requestTimedOut kind request r' = (Normal tt, r'))
  /\ (forall stored result,
         JsMap.get (req_id request) (pending kind r) = Some stored ->
         let r' := after (respondToRequest kind (req_id request) result) r in
         requestTimedOut kind request r' = (Normal tt, r'))
  /\ (forall stored error,
         JsMap.get (req_id request) (pending kind r) = Some stored ->
         let r' := after (rejectRequest kind (req_id request) error) r in
         requestTimedOut kind request r' = (Normal tt, r'))
  /\ (forall callback, requestTimeoutMs (new_ServerRegistry callback None) = 300000%N)
  /\ timedOutMessage Sampling 300000 = "Sampling request timed out after 300000ms".
Proof.
  split; [apply timer_idle|]. split; [|split; [|split; [|split]]].
  - intros stored Hg. cbv zeta.
    assert (Hrun : requestTimedOut kind request r
                   = (Normal tt,
                      with_settled
                        (fun l => l ++ [Rejected kind (req_id stored)
                                          (Error (timedOutMessage kind
                                                    (requestTimeoutMs r)))])
                        (with_pending kind (JsMap.delete (req_id request)) r))).
    { unfold requestTimedOut, bind, gets, modify, reject. rewrite Hg.
      destruct kind; reflexivity. }
    unfold after. rewrite Hrun. cbn [snd].
    assert (Hgone : JsMap.get (req_id request)
                      (pending kind
                         (with_settled
                            (fun l => l ++ [Rejected kind (req_id stored)
                                              (Error (timedOutMessage kind
                                                        (requestTimeoutMs r)))])
                            (with_pending kind (JsMap.delete (req_id request)) r)))
                    = None).
    { rewrite pending_with_settled, (proj1 (pending_with_pending kind _ r)).
      apply JsMapFacts.get_delete_same. }
    split; [reflexivity|]. split.
    { cbn [with_settled settled]. now rewrite settled_with_pending. }
    split; [exact Hgone|]. split.
    { rewrite pending_with_settled. apply (proj2 (pending_with_pending kind _ r)). }
    apply timer_idle. exact Hgone.
  - intros stored result Hg. cbv zeta. apply timer_idle.
    unfold after. rewrite (respond_found _ _ _ _ Hg). cbn [snd].
    rewrite pending_with_settled, (proj1 (pending_with_pending kind _ r)).
    apply JsMapFacts.get_delete_same.
  - intros stored error Hg. cbv zeta. apply timer_idle.
    unfold after. rewrite (reject_found _ _ _ _ Hg). cbn [snd].
    rewrite pending_with_settled, (proj1 (pending_with_pending kind _ r)).
    apply JsMapFacts.get_delete_same.
  - reflexivity.
  - reflexivity.
Qed.

Lemma timer_rejects_only_pending_witness :
  let r := Fixtures.busy_registry in
  let request := Fixtures.sampling_request "r2" "beta" in
  JsMap.get (req_id request) (pending Sampling r) = Some request
  /\ settled (after (requestTimedOut Sampling request) r)
     = [Rejected Sampling "r2"
          (Error "Sampling request timed out after 300000ms")]
  /\ settled (after (requestTimedOut Sampling request)
                (after (respondToRequest Sampling "r2" "ok") r))
     = [Resolved Sampling "r2" "ok"].
Proof.
  cbv zeta.
  destruct (timer_rejects_only_pending Sampling
              (Fixtures.sampling_request "r2" "beta") Fixtures.busy_registry)
    as [_ [Hfire [Hanswered _]]].
  split; [reflexivity|]. split.
  - destruct (Hfire _ eq_refl) as [_ [Hsettled _]]. rewrite Hsettled. reflexivity.
  - unfold after at 1. cbn [req_id Fixtures.sampling_request] in Hanswered.
    rewrite (Hanswered _ "ok" eq_refl). reflexivity.
Defined.

(** X5. A request whose id is not pending is stored last: it is the
    last one [getPendingRequests] lists and the count grows by one, and
    answering it brings the map back to what it was.  A request whose id
    is already pending replaces the stored one in place: the count and
    the order of the ids stay the same and the id now stands for the new
    request.  Listing the pending requests removes none. *)
Theorem incoming_request_round_trip (kind : RequestKind)
    (request : PendingRequest) (r : ServerRegistry) :
  let r1 := after (handleIncomingRequest kind request) r in
  JsMap.get (req_id request) (pending kind r1) = Some request
  /\ pending (other kind) r1 = pending (other kind) r
  /\ getPendingRequests kind r1 = (Normal (JsMap.values (pending kind r1)), r1)
  /\ (JsMap.get (req_id request) (pending kind r) = None ->
      fst (getPendingRequests kind r1)
      = Normal (JsMap.values (pending kind r) ++ [request])
      /\ fst (getPendingRequestCount kind r1)
         = Normal (S (JsMap.size (pending kind r)))
      /\ (forall result,
             pending kind (after (respondToRequest kind (req_id request) result) r1)
             = pending kind r))
  /\ (JsMap.get (req_id request) (pending kind r) <> None ->
      fst (getPendingRequestCount kind r1) = Normal (JsMap.size (pending kind r))
      /\ JsMap.keys (pending kind r1) = JsMap.keys (pending kind r)).
Proof.
  cbv zeta.
  assert (Hp : pending kind (after (handleIncomingRequest kind request) r)
               = JsMap.set (req_id request) request (pending kind r))
    by (destruct kind; reflexivity).
  split; [rewrite Hp; apply JsMapFacts.get_set_same|].
  split; [destruct kind; reflexivity|].
  split; [reflexivity|]. split.
  - intros Hfresh. split; [|split].
    + unfold getPendingRequests, gets. cbn [fst]. rewrite Hp.
      now rewrite JsMapMore.values_set_fresh.
    + unfold getPendingRequestCount, gets. cbn [fst]. rewrite Hp.
      rewrite JsMapMore.size_set. unfold JsMap.has. now rewrite Hfresh.
    + intros result.
      assert (Hg : JsMap.get (req_id request)
                     (pending kind (after (handleIncomingRequest kind request) r))
                   = Some request)
        by (rewrite Hp; apply JsMapFacts.get_set_same).
      unfold after at 1. rewrite (respond_found _ _ _ _ Hg). cbn [snd].
      rewrite pending_with_settled, (proj1 (pending_with_pending kind _ _)), Hp.
      now apply JsMapMore.delete_set_fresh.
  - intros Hpresent. split.
    + unfold getPendingRequestCount, gets. cbn [fst]. rewrite Hp.
      rewrite JsMapMore.size_set. unfold JsMap.has.
      destruct (JsMap.get (req_id request) (pending kind r)); [reflexivity|congruence].
    + rewrite Hp. now apply JsMapMore.keys_set_present.
Qed.

Lemma incoming_request_round_trip_witness :
  let r := Fixtures.busy_registry in
  JsMap.get "r7" (pending Sampling r) = None
  /\ fst (getPendingRequests Sampling
            (after (handleIncomingRequest Sampling
                      (Fixtures.sampling_request "r7" "alpha")) r))
     = Normal [Fixtures.sampling_request "r1" "alpha";
               Fixtures.sampling_request "r2" "beta";
               Fixtures.sampling_request "r7" "alpha"]
  /\ JsMap.get "r1" (pending Sampling r) <> None
  /\ fst (getPendingRequestCount Sampling
            (after (handleIncomingRequest Sampling
                      (Fixtures.sampling_request "r1" "beta")) r))
     = Normal 2.
Proof.
  cbv zeta. split; [reflexivity|]. split.
  - destruct (incoming_request_round_trip Sampling
                (Fixtures.sampling_request "r7" "alpha") Fixtures.busy_registry)
      as [_ [_ [_ [Hfresh _]]]].
    destruct (Hfresh eq_refl) as [Hlist _]. rewrite Hlist. reflexivity.
  - split; [discriminate|].
    destruct (incoming_request_round_trip Sampling
                (Fixtures.sampling_request "r1" "beta") Fixtures.busy_registry)
      as [_ [_ [_ [_ Hpresent]]]].
    destruct Hpresent as [Hcount _]; [discriminate|]. rewrite Hcount. reflexivity.
Defined.

(** ** No request is settled that was not received *)

Lemma accounted_view (r r' : ServerRegistry) :
  requests_view r' = requests_view r -> accounted r' = accounted r.
Proof.
  unfold requests_view, accounted. intros [= -> -> ->]. reflexivity.
Qed.

Lemma removeServer_view (r : ServerRegistry) (name : string)
    (client : MCPHttpClient) :
  JsMap.wf (pendingSamplingRequests r) ->
  JsMap.wf (pendingElicitationRequests r) ->
  JsMap.get name (clients r) = Some client ->
  requests_view (after (removeServer name) r)
  = (filter (fun e => negb (from_server name e)) (pendingSamplingRequests r),
     filter (fun e => negb (from_server name e)) (pendingElicitationRequests r),
     settled r
     ++ disconnections Sampling name (pendingSamplingRequests r)
     ++ disconnections Elicitation name (pendingElicitationRequests r)).
Proof.
  intros Hs He Hget.
  set (r1 := with_pending Sampling (filter (fun e => negb (from_server name e)))
               (with_settled
                  (fun l => l ++ disconnections Sampling name (pending Sampling r)) r)).
  set (r2 := with_pending Elicitation (filter (fun e => negb (from_server name e)))
               (with_settled
                  (fun l => l ++ disconnections Elicitation name (pending Elicitation r1))
                  r1)).
  assert (H1 : rejectPendingFrom Sampling name r = (Normal tt, r1))
    by (apply rejectPendingFrom_spec; exact Hs).
  assert (H2 : rejectPendingFrom Elicitation name r1 = (Normal tt, r2))
    by (apply rejectPendingFrom_spec; exact He).
  assert (Hrun : removeServer name r
                 = (client_disconnect client ;;;
                    modify (with_clients (JsMap.delete name))) r2).
  { unfold removeServer, bind at 1, gets. rewrite Hget.
    unfold bind at 1. rewrite H1. unfold bind at 1. rewrite H2. reflexivity. }
  unfold after at 1. rewrite Hrun.
  change (snd ((client_disconnect client;;;
                modify (with_clients (JsMap.delete name))) r2))
    with (after (client_disconnect client;;;
                 modify (with_clients (JsMap.delete name))) r2).
  rewrite disconnect_keeps_requests.
  unfold requests_view, r2, r1. open_registry. now rewrite app_assoc.
Qed.

Lemma removeServer_missing (r : ServerRegistry) (name : string) :
  JsMap.get name (clients r) = None ->
  removeServer name r = (Throw (Error ("Server '" ++ name ++ "' not found")%string), r).
Proof.
  intros Hget. unfold removeServer, bind, gets. now rewrite Hget.
Qed.

Lemma shutdown_view (r : ServerRegistry) :
  requests_view (after shutdown r)
  = (JsMap.empty, JsMap.empty,
     settled r
     ++ shutdowns Sampling (pendingSamplingRequests r)
     ++ shutdowns Elicitation (pendingElicitationRequests r)).
Proof.
  set (r1 := with_pending Sampling (fun _ => JsMap.empty)
               (with_settled (fun l => l ++ shutdowns Sampling (pending Sampling r)) r)).
  set (r2 := with_pending Elicitation (fun _ => JsMap.empty)
               (with_settled
                  (fun l => l ++ shutdowns Elicitation (pending Elicitation r1)) r1)).
  unfold shutdown.
  erewrite after_bind_normal by apply rejectAllPending_spec. fold r1.
  erewrite after_bind_normal by apply rejectAllPending_spec. fold r2.
  rewrite disconnectAll_keeps_requests.
  unfold requests_view, r2, r1. open_registry. now rewrite app_assoc.
Qed.

Lemma accounted_settle (kind : RequestKind) (id : string) (outcome : Settlement)
    (r : ServerRegistry) :
  JsMap.wf (pending kind r) ->
  JsMap.get id (pending kind r) <> None ->
  accounted (with_settled (fun l => l ++ [outcome])
               (with_pending kind (JsMap.delete id) r))
  = accounted r.
Proof.
  intros Hwf Hg. apply JsMapMore.get_keys in Hg.
  pose proof (JsMapMore.size_delete_present _ Hwf Hg) as Hsize.
  unfold accounted. destruct kind; open_registry;
    rewrite length_app; simpl; lia.
Qed.

Lemma step_accounted (r : ServerRegistry) (e : Event) :
  registry_wf r ->
  accounted (step r e) <= accounted r + received [e].
Proof.
  intros [_ [Hs He]].
  assert (Hwf : forall kind, JsMap.wf (pending kind r)) by (now intros []).
  destruct e as [config backend|name| |name'|name'|sn|sn|sn|sn|sn tn args
                |sn uri|sn pn args|n|l|kind request|kind request
                |kind requestId result|kind requestId error|kind|kind| | | | | ];
    cbn [step];
    try (match goal with
         | |- accounted (after ?m r) <= _ =>
             assert (Hview : requests_view (after m r) = requests_view r) by keeps;
             apply accounted_view in Hview; rewrite Hview; lia
         end).
  - (* removeServer *)
    destruct (JsMap.get name (clients r)) as [client|] eqn:Hget.
    + pose proof (@removeServer_view r name client Hs He Hget) as Hview.
      unfold requests_view in Hview. injection Hview as Hvs Hve Hvt.
      unfold accounted. rewrite Hvs, Hve, Hvt.
      unfold disconnections, JsMap.size. rewrite !length_app, !length_map.
      pose proof (filter_length (from_server name) (pendingSamplingRequests r)).
      pose proof (filter_length (from_server name) (pendingElicitationRequests r)).
      lia.
    + unfold after. rewrite (@removeServer_missing r name Hget). simpl. lia.
  - (* an incoming request *)
    unfold after, handleIncomingRequest, modify. cbn [snd].
    unfold accounted. destruct kind; open_registry;
      rewrite JsMapMore.size_set;
      match goal with |- context [if ?b then _ else _] => destruct b end;
      unfold received; simpl; lia.
  - (* a timer *)
    destruct (JsMap.get (req_id request) (pending kind r)) as [stored|] eqn:Hg.
    + assert (Hrun : after (requestTimedOut kind request) r
                     = with_settled
                         (fun l => l ++ [Rejected kind (req_id stored)
                                           (Error (timedOutMessage kind
                                                     (requestTimeoutMs r)))])
                         (with_pending kind (JsMap.delete (req_id request)) r)).
      { unfold after, requestTimedOut, bind, gets, modify, reject. rewrite Hg.
        destruct kind; reflexivity. }
      rewrite Hrun, accounted_settle; [lia | apply Hwf | congruence].
    + unfold after. rewrite (timer_idle _ _ _ Hg). simpl. lia.
  - (* respond *)
    destruct (JsMap.get requestId (pending kind r)) as [stored|] eqn:Hg.
    + unfold after. rewrite (respond_found _ _ _ _ Hg). cbn [snd].
      rewrite accounted_settle; [lia | apply Hwf | congruence].
    + unfold after. rewrite (respond_missing _ _ _ _ Hg). simpl. lia.
  - (* reject *)
    destruct (JsMap.get requestId (pending kind r)) as [stored|] eqn:Hg.
    + unfold after. rewrite (reject_found _ _ _ _ Hg). cbn [snd].
      rewrite accounted_settle; [lia | apply Hwf | congruence].
    + unfold after. rewrite (reject_missing _ _ _ _ Hg). simpl. lia.
  - (* shutdown *)
    pose proof (shutdown_view r) as Hview.
    unfold requests_view in Hview. injection Hview as Hvs Hve Hvt.
    unfold accounted. rewrite Hvs, Hve, Hvt.
    unfold shutdowns, JsMap.size. rewrite !length_app, !length_map. simpl. lia.
Qed.

Lemma received_app (a b : list Event) : received (a ++ b) = received a + received b.
Proof. unfold received. now rewrite filter_app, length_app. Qed.

Lemma steps_accounted (events : list Event) (r : ServerRegistry) :
  registry_wf r ->
  accounted (steps r events) <= accounted r + received events.
Proof.
  revert r. induction events as [|e events IH]; intros r Hwf.
  - simpl. unfold received. simpl. lia.
  - change (steps r (e :: events)) with (steps (step r e) events).
    specialize (IH _ (step_wf e Hwf)).
    pose proof (step_accounted e Hwf).
    change (e :: events) with ([e] ++ events). rewrite received_app. lia.
Qed.

(** X6. However a registry is used, it never settles a request it did
    not receive and never settles one twice: the number of resolve and
    reject calls made so far plus the number of requests still pending
    never exceeds the number of requests the backends sent. *)
Theorem settlements_bounded_by_requests (callback : bool) (timeoutMs : option N)
    (events : list Event) :
  let r := steps (new_ServerRegistry callback timeoutMs) events in
  List.length (settled r)
  + JsMap.size (pendingSamplingRequests r)
  + JsMap.size (pendingElicitationRequests r)
  <= received events.
Proof.
  cbv zeta.
  pose proof (steps_accounted events (new_ServerRegistry_wf callback timeoutMs))
    as Hbound.
  unfold accounted in Hbound. cbn [new_ServerRegistry settled
    pendingSamplingRequests pendingElicitationRequests] in Hbound.
  unfold accounted. cbn in Hbound. lia.
Qed.

(** ** The servers a registry reports *)

Lemma In_set {V : Type} (k k0 : string) (v v0 : V) (m : JsMap.t V) :
  In (k, v) (JsMap.set k0 v0 m) -> (k = k0 /\ v = v0) \/ In (k, v) m.
Proof.
  induction m as [|[k1 v1] m IH]; simpl.
  - intros [[= <- <-]|[]]. now left.
  - destruct (String.eqb k1 k0).
    + intros [[= <- <-]|Hin]; [now left | right; now right].
    + intros [Heq|Hin]; [right; now left|].
      destruct (IH Hin) as [Hnew|Hold]; [now left | right; now right].
Qed.

Lemma In_delete {V : Type} (k k0 : string) (v : V) (m : JsMap.t V) :
  In (k, v) (JsMap.delete k0 m) -> In (k, v) m.
Proof. unfold JsMap.delete. intros Hin. now apply filter_In in Hin. Qed.

Lemma names_agree_set (r : ServerRegistry) (c : MCPHttpClient) :
  names_agree r -> names_agree (with_clients (JsMap.set (client_name c) c) r).
Proof.
  intros Hr name client Hin. cbn [with_clients clients] in Hin.
  apply In_set in Hin. destruct Hin as [[-> ->]|Hin]; [reflexivity | now apply Hr].
Qed.

Lemma step_names (r : ServerRegistry) (e : Event) :
  names_agree r -> names_agree (step r e).
Proof.
  destruct e; cbn [step]; unfold after;
    match goal with
    | |- names_agree r -> names_agree (snd (?m r)) =>
        revert r; change (maintains names_agree m)
    end;
    unfold_registry; maintain;
    repeat match goal with
           | kind : RequestKind |- _ => destruct kind
           end;
    try assumption;
    try match goal with
        | H : names_agree ?s |- names_agree (with_clients (JsMap.set _ ?c) ?s) =>
            apply (names_agree_set c H)
        end.
  all: match goal with
       | H : names_agree ?s |- names_agree _ =>
           intros name' client' Hin; cbn [with_clients clients] in Hin
       end.
  all: try match type of Hin with
           | In _ (if ?b then _ else _) => destruct b
           end.
  all: try (apply In_set in Hin; destruct Hin as [[-> ->]|Hin]; [reflexivity|]).
  all: try apply In_delete in Hin.
  all: try contradiction.
  all: match goal with H : names_agree _ |- _ => now apply H end.
Qed.

Lemma reachable_names (callback : bool) (timeoutMs : option N) (events : list Event) :
  names_agree (steps (new_ServerRegistry callback timeoutMs) events).
Proof.
  unfold steps.
  assert (H0 : names_agree (new_ServerRegistry callback timeoutMs))
    by (intros name client []).
  revert H0. generalize (new_ServerRegistry callback timeoutMs).
  induction events as [|e events IH]; intros r Hr; simpl.
  - exact Hr.
  - apply IH, step_names, Hr.
Qed.

Lemma listServers_spec (r : ServerRegistry) :
  listServers r = (Normal (map getInfo (JsMap.values (clients r))), r).
Proof.
  unfold listServers, bind at 1, gets.
  rewrite (for_of_pure (S := ServerRegistry)
             (fun client servers => servers ++ [getInfo client]))
    by reflexivity.
  now rewrite fold_left_push.
Qed.

(** X7. In every registry reached from a new one, [listServers] asks no
    backend and changes nothing; it reports each registered server
    exactly once, in the order of registration, under the name it was
    added with, whatever its status.  [hasServer] holds exactly of the
    names it reports, and [getServer] returns exactly the entry it
    reports under that name ([undefined] for any other name). *)
Theorem listServers_reports_registered (callback : bool) (timeoutMs : option N)
    (events : list Event) :
  let r := steps (new_ServerRegistry callback timeoutMs) events in
  exists infos,
    listServers r = (Normal infos, r)
    /\ map info_name infos = JsMap.keys (clients r)
    /\ NoDup (map info_name infos)
    /\ (forall name,
           hasServer name r = (Normal true, r) <-> In name (map info_name infos))
    /\ (forall name info,
           getServer name r = (Normal (Some info), r)
           <-> In info infos /\ info_name info = name)
    /\ (forall name,
           getServer name r = (Normal None, r) <-> ~ In name (map info_name infos)).
Proof.
  cbv zeta.
  pose proof (reachable_wf callback timeoutMs events) as [Hwf _].
  pose proof (reachable_names callback timeoutMs events) as Hnames.
  set (r := steps (new_ServerRegistry callback timeoutMs) events) in *.
  assert (Hkeys : map info_name (map getInfo (JsMap.values (clients r)))
                  = JsMap.keys (clients r)).
  { unfold JsMap.values, JsMap.keys. rewrite !map_map.
    apply map_ext_in. intros [name client] Hin. cbn. now apply Hnames. }
  exists (map getInfo (JsMap.values (clients r))).
  split; [apply listServers_spec|]. split; [exact Hkeys|].
  split; [rewrite Hkeys; exact Hwf|]. split; [|split].
  - intros name. rewrite Hkeys. unfold hasServer, gets, JsMap.has.
    rewrite <- JsMapMore.get_keys.
    destruct (JsMap.get name (clients r)); split; congruence.
  - intros name info. unfold getServer, bind, gets, ret. split.
    + intros Hget.
      destruct (JsMap.get name (clients r)) as [client|] eqn:Hc;
        [|discriminate Hget].
      injection Hget as <-. apply JsMapFacts.get_In in Hc. split.
      * apply in_map. unfold JsMap.values.
        change client with (snd (name, client)). now apply in_map.
      * cbn. now apply Hnames.
    + intros [Hin Hname]. apply in_map_iff in Hin.
      destruct Hin as [client [<- Hin]]. unfold JsMap.values in Hin.
      apply in_map_iff in Hin. destruct Hin as [[k c] [Hsnd Hin]].
      cbn in Hsnd. subst c. cbn in Hname.
      rewrite (Hnames _ _ Hin) in Hname. subst k.
      apply JsMapFacts.In_get in Hin; [|exact Hwf]. now rewrite Hin.
  - intros name. rewrite Hkeys, <- JsMapMore.get_keys.
    unfold getServer, bind, gets, ret.
    destruct (JsMap.get name (clients r)) as [c|]; simpl; split.
    + intros [=].
    + intros Hnot. exfalso. apply Hnot. discriminate.
    + intros _ Hne. now apply Hne.
    + reflexivity.
Qed.

(** ** Removing a server, shutting down: the ways they end *)

Lemma removeServer_run (r : ServerRegistry) (name : string)
    (client : MCPHttpClient) :
  JsMap.wf (pendingSamplingRequests r) ->
  JsMap.wf (pendingElicitationRequests r) ->
  JsMap.get name (clients r) = Some client ->
  removeServer name r
  = (client_disconnect client ;;;
     modify (with_clients (JsMap.delete name))) (afterRejections name r).
Proof.
  intros Hs He Hget. unfold afterRejections. cbv zeta.
  set (r1 := with_pending Sampling _ _).
  assert (H1 : rejectPendingFrom Sampling name r = (Normal tt, r1))
    by (apply rejectPendingFrom_spec; exact Hs).
  unfold removeServer, bind at 1, gets. rewrite Hget.
  unfold bind at 1. rewrite H1. unfold bind at 1.
  rewrite rejectPendingFrom_spec by exact He. reflexivity.
Qed.

(** X8. [removeServer] of a name that is not registered throws
    "Server '<name>' not found" and changes nothing: no pending request
    is rejected.  For a registered server the client is asked to
    disconnect once, after the pending requests of the server were
    rejected.  When the disconnect succeeds the server is gone and
    every other server is still registered as before; when it fails,
    the error is thrown and the server stays registered, its pending
    requests already rejected and removed. *)
Theorem removeServer_outcomes (r : ServerRegistry) (name : string) :
  (JsMap.get name (clients r) = None ->
   removeServer name r
   = (Throw (Error ("Server '" ++ name ++ "' not found")%string), r))
  /\ (forall client,
         JsMap.wf (pendingSamplingRequests r) ->
         JsMap.wf (pendingElicitationRequests r) ->
         JsMap.get name (clients r) = Some client ->
         client_name client = name ->
         let r' := after (removeServer name) r in
         wire r' = wire r ++ [(name, ReqDisconnect)]
         /\ settled r'
            = settled r
              ++ disconnections Sampling name (pendingSamplingRequests r)
              ++ disconnections Elicitation name (pendingElicitationRequests r)
         /\ (on_disconnect (client_backend client) = Normal tt ->
             removeServer name r = (Normal tt, r')
             /\ JsMap.get name (clients r') = None
             /\ forall name', name' <> name ->
                  JsMap.get name' (clients r') = JsMap.get name' (clients r))
         /\ (forall err,
                on_disconnect (client_backend client) = Throw err ->
                removeServer name r = (Throw err, r')
                /\ clients r' = clients r
                /\ JsMap.has name (clients r') = true)).
Proof.
  split; [apply removeServer_missing|].
  intros client Hs He Hget Hname. cbv zeta.
  pose proof (@removeServer_run r name client Hs He Hget) as Hrun.
  assert (Hclients : clients (afterRejections name r) = clients r)
    by reflexivity.
  assert (Hwire : wire (afterRejections name r) = wire r) by reflexivity.
  assert (Hsettled : settled (afterRejections name r)
                     = settled r
                       ++ disconnections Sampling name (pendingSamplingRequests r)
                       ++ disconnections Elicitation name
                            (pendingElicitationRequests r)).
  { unfold afterRejections. open_registry. now rewrite app_assoc. }
  unfold after. rewrite Hrun.
  remember (afterRejections name r) as r0 eqn:Hr0. clear Hr0 Hrun.
  assert (Hhas : JsMap.has name (clients r0) = true).
  { rewrite Hclients. unfold JsMap.has. now rewrite Hget. }
  unfold bind, client_disconnect, bind, request, update_client, modify.
  cbn [send registry_wired set_status client_name]. rewrite Hname.
  destruct (on_disconnect (client_backend client)) as [[]|err] eqn:Hd;
    cbn [snd fst]; open_registry.
  - split; [now rewrite Hwire|]. split; [exact Hsettled|].
    split; [|intros err [=]]. intros _. split; [reflexivity|]. split.
    + apply JsMapFacts.get_delete_same.
    + intros name' Hne. rewrite JsMapMore.get_delete_other by exact Hne.
      rewrite Hhas, JsMapFacts.get_set_other by exact Hne.
      now rewrite Hclients.
  - split; [now rewrite Hwire|]. split; [exact Hsettled|].
    split; [intros [=]|]. intros err' [= <-]. split; [reflexivity|].
    split; [exact Hclients|]. exact Hhas.
Qed.

(** [delta] refuses to disconnect: it stays registered, and its pending
    request [r1] is rejected all the same. *)
Lemma removeServer_outcomes_witness :
  let r := Samples.flaky_registry in
  JsMap.wf (pendingSamplingRequests r)
  /\ JsMap.wf (pendingElicitationRequests r)
  /\ (exists client,
        JsMap.get "delta" (clients r) = Some client
        /\ client_name client = "delta"
        /\ on_disconnect (client_backend client) = Throw Fixtures.unavailable)
  /\ fst (removeServer "delta" r) = Throw Fixtures.unavailable
  /\ JsMap.has "delta" (clients (after (removeServer "delta") r)) = true
  /\ settled (after (removeServer "delta") r)
     = [Rejected Sampling "r1" (Error "Server 'delta' disconnected")]
  /\ fst (removeServer "omega" r) = Throw (Error "Server 'omega' not found").
Proof.
  cbv zeta.
  pose proof (reachable_wf false None
                [EvAddServer (Fixtures.config "alpha") Fixtures.healthy;
                 EvAddServer (Fixtures.config "delta") Samples.flaky;
                 EvIncomingRequest Sampling (Fixtures.sampling_request "r1" "delta");
                 EvNotification "n1"]) as [_ [Hsampling Helicitation]].
  change (steps _ _) with Samples.flaky_registry in Hsampling, Helicitation.
  split; [exact Hsampling|]. split; [exact Helicitation|].
  split; [eexists; repeat split|].
  destruct (removeServer_outcomes Samples.flaky_registry "delta")
    as [_ Hregistered].
  destruct (Hregistered _ Hsampling Helicitation eq_refl eq_refl)
    as [_ [Hsettled [_ Hfails]]].
  destruct (Hfails _ eq_refl) as [Hrun [_ Hhas]].
  split; [rewrite Hrun; reflexivity|]. split; [exact Hhas|].
  split; [rewrite Hsettled; reflexivity|].
  rewrite (proj1 (removeServer_outcomes Samples.flaky_registry "omega") eq_refl).
  reflexivity.
Defined.

Lemma disconnect_loop (cs : list MCPHttpClient) :
  forall (failure : option JsError) (r : ServerRegistry),
  exists r',
    for_of cs
      (fun client failure =>
         try_catch
           (client_disconnect client ;;; ret failure)
           (fun err => ret (match failure with
                            | Some e => Some e
                            | None => Some err
                            end)))
      failure r
    = (Normal (match failure with
               | Some e => Some e
               | None => firstFailure cs
               end), r')
    /\ wire r' = wire r ++ map goodbye cs
    /\ JsMap.keys (clients r') = JsMap.keys (clients r)
    /\ buffers_view r' = buffers_view r.
Proof.
  induction cs as [|c cs IH]; intros failure r.
  - exists r. simpl. unfold ret. rewrite app_nil_r.
    repeat split. now destruct failure.
  - cbn [for_of firstFailure map]. unfold bind at 1.
    match goal with
    | |- context [try_catch ?m ?h r] =>
        destruct (try_catch m h r) as [res r1] eqn:Hstep
    end.
    unfold try_catch, client_disconnect, bind, request, update_client, modify, ret
      in Hstep.
    cbn [send registry_wired] in Hstep.
    destruct (on_disconnect (client_backend c)) as [[]|err];
      injection Hstep as <- <-.
    + destruct (IH failure
                  (with_clients
                     (fun m =>
                        if JsMap.has (client_name (set_status Disconnected c)) m
                        then JsMap.set (client_name (set_status Disconnected c))
                               (set_status Disconnected c) m
                        else m)
                     (with_wire (fun w => w ++ [(client_name c, ReqDisconnect)]) r)))
        as [r' [Hrun [Hwire [Hkeys Hview]]]].
      exists r'. split; [exact Hrun|]. split; [|split].
      * rewrite Hwire. open_registry. now rewrite <- app_assoc.
      * rewrite Hkeys. open_registry. cbn [set_status client_name].
        destruct (JsMap.has (client_name c) (clients r)) eqn:Hhas; [|reflexivity].
        rewrite JsMapFacts.keys_set. now rewrite Hhas.
      * rewrite Hview. reflexivity.
    + destruct (IH (match failure with Some e => Some e | None => Some err end)
                  (with_wire (fun w => w ++ [(client_name c, ReqDisconnect)]) r))
        as [r' [Hrun [Hwire [Hkeys Hview]]]].
      exists r'. split; [etransitivity; [exact Hrun|]; now destruct failure|].
      split; [|split].
      * rewrite Hwire. open_registry. now rewrite <- app_assoc.
      * rewrite Hkeys. reflexivity.
      * rewrite Hview. reflexivity.
Qed.

Lemma shutdown_run (r : ServerRegistry) :
  let cs := JsMap.values (clients r) in
  let r' := after shutdown r in
  pendingSamplingRequests r' = JsMap.empty
  /\ pendingElicitationRequests r' = JsMap.empty
  /\ settled r'
     = settled r
       ++ shutdowns Sampling (pendingSamplingRequests r)
       ++ shutdowns Elicitation (pendingElicitationRequests r)
  /\ wire r' = wire r ++ map goodbye cs
  /\ (firstFailure cs = None ->
      shutdown r = (Normal tt, r')
      /\ clients r' = JsMap.empty
      /\ notifications r' = []
      /\ logs r' = [])
  /\ (forall err,
         firstFailure cs = Some err ->
         shutdown r = (Throw err, r')
         /\ JsMap.keys (clients r') = JsMap.keys (clients r)
         /\ notifications r' = notifications r
         /\ logs r' = logs r).
Proof.
  cbv zeta.
  set (r1 := with_pending Sampling (fun _ => JsMap.empty)
               (with_settled (fun l => l ++ shutdowns Sampling (pending Sampling r)) r)).
  set (r2 := with_pending Elicitation (fun _ => JsMap.empty)
               (with_settled
                  (fun l => l ++ shutdowns Elicitation (pending Elicitation r1)) r1)).
  assert (Hrun : shutdown r
                 = (cs <- gets clients ;;
                    disconnectAll (JsMap.values cs) ;;;
                    modify (with_clients (fun _ => JsMap.empty)) ;;;
                    modify (with_notifications (fun _ => [])) ;;;
                    modify (with_logs (fun _ => []))) r2).
  { unfold shutdown. unfold bind at 1. rewrite rejectAllPending_spec. fold r1.
    unfold bind at 1. rewrite rejectAllPending_spec. reflexivity. }
  destruct (disconnect_loop (JsMap.values (clients r)) None r2)
    as [r3 [Hloop [Hwire [Hkeys Hview]]]].
  unfold buffers_view in Hview. injection Hview as Hn Hl Hps Hpe Hst.
  change (settled r2)
    with ((settled r ++ shutdowns Sampling (pendingSamplingRequests r))
          ++ shutdowns Elicitation (pendingElicitationRequests r)) in Hst.
  rewrite <- app_assoc in Hst.
  change (wire r2) with (wire r) in Hwire.
  change (clients r2) with (clients r) in Hkeys.
  assert (Hdisconnect :
            disconnectAll (JsMap.values (clients r)) r2
            = (match firstFailure (JsMap.values (clients r)) with
               | Some err => Throw err
               | None => Normal tt
               end, r3)).
  { unfold disconnectAll. unfold bind at 1. rewrite Hloop.
    now destruct (firstFailure (JsMap.values (clients r))). }
  assert (Hshutdown :
            shutdown r
            = match firstFailure (JsMap.values (clients r)) with
              | Some err => (Throw err, r3)
              | None =>
                  (Normal tt,
                   with_logs (fun _ => [])
                     (with_notifications (fun _ => [])
                        (with_clients (fun _ => JsMap.empty) r3)))
              end).
  { rewrite Hrun. unfold bind at 1, gets. change (clients r2) with (clients r).
    unfold bind at 1. rewrite Hdisconnect.
    now destruct (firstFailure (JsMap.values (clients r))). }
  clear Hrun Hloop Hdisconnect. unfold after. rewrite Hshutdown.
  destruct (firstFailure (JsMap.values (clients r))) as [err|]; cbn [fst snd].
  - split; [exact Hps|]. split; [exact Hpe|]. split; [exact Hst|].
    split; [exact Hwire|].
    split; [intros [=]|]. intros err' [= <-].
    split; [reflexivity|]. split; [exact Hkeys|]. split; assumption.
  - split; [exact Hps|]. split; [exact Hpe|]. split; [exact Hst|].
    split; [exact Hwire|]. split; [|intros err [=]].
    intros _. repeat split.
Qed.

Lemma firstFailure_none (cs : list MCPHttpClient) :
  (forall c, In c cs -> on_disconnect (client_backend c) = Normal tt) ->
  firstFailure cs = None.
Proof.
  induction cs as [|c cs IH]; intros Hall; [reflexivity|].
  cbn [firstFailure]. rewrite (Hall c (or_introl eq_refl)).
  apply IH. intros c' Hin. apply Hall. now right.
Qed.

Lemma firstFailure_some (cs : list MCPHttpClient) (err : JsError) :
  firstFailure cs = Some err ->
  exists c, In c cs /\ on_disconnect (client_backend c) = Throw err.
Proof.
  induction cs as [|c cs IH]; [discriminate|]. cbn [firstFailure].
  destruct (on_disconnect (client_backend c)) as [[]|err'] eqn:Hc.
  - intros Hrest. destruct (IH Hrest) as [c' [Hin Hc']].
    exists c'. split; [now right | exact Hc'].
  - intros [= <-]. exists c. split; [now left | exact Hc].
Qed.

Lemma firstFailure_failing (cs : list MCPHttpClient) (c : MCPHttpClient)
    (err : JsError) :
  In c cs -> on_disconnect (client_backend c) = Throw err ->
  exists err', firstFailure cs = Some err'.
Proof.
  induction cs as [|c' cs IH]; intros Hin Hc; [contradiction|].
  cbn [firstFailure].
  destruct (on_disconnect (client_backend c')) as [[]|err'] eqn:Hc';
    [|now exists err'].
  destruct Hin as [->|Hin]; [congruence | now apply IH].
Qed.

(** X9. Whether or not the disconnects succeed, [shutdown] rejects
    every pending request, the sampling requests and then the
    elicitation requests in the order of their maps, with "Registry
    shutting down", empties both pending maps, and asks every client,
    in the order of registration, to disconnect.  When every disconnect
    succeeds it returns with no client, no buffered notification and no
    buffered log message left.  When some disconnect fails it throws,
    after every client was asked, the error of a client whose
    disconnect failed, and the clients and both buffers are kept. *)
Theorem shutdown_outcomes (r : ServerRegistry) :
  let cs := JsMap.values (clients r) in
  let r' := after shutdown r in
  pendingSamplingRequests r' = JsMap.empty
  /\ pendingElicitationRequests r' = JsMap.empty
  /\ settled r'
     = settled r
       ++ map (fun e => Rejected Sampling (req_id (snd e))
                          (Error "Registry shutting down"))
            (pendingSamplingRequests r)
       ++ map (fun e => Rejected Elicitation (req_id (snd e))
                          (Error "Registry shutting down"))
            (pendingElicitationRequests r)
  /\ wire r' = wire r ++ map (fun c => (client_name c, ReqDisconnect)) cs
  /\ ((forall c, In c cs -> on_disconnect (client_backend c) = Normal tt) ->
      shutdown r = (Normal tt, r')
      /\ clients r' = JsMap.empty
      /\ notifications r' = []
      /\ logs r' = [])
  /\ (forall failing failure,
         In failing cs ->
         on_disconnect (client_backend failing) = Throw failure ->
         exists c err,
           In c cs
           /\ on_disconnect (client_backend c) = Throw err
           /\ shutdown r = (Throw err, r')
           /\ JsMap.keys (clients r') = JsMap.keys (clients r)
           /\ notifications r' = notifications r
           /\ logs r' = logs r).
Proof.
  cbv zeta.
  destruct (shutdown_run r) as [Hs [He [Hsettled [Hwire [Hclean Hfail]]]]].
  split; [exact Hs|]. split; [exact He|]. split; [exact Hsettled|].
  split; [exact Hwire|]. split.
  - intros Hall. apply Hclean. now apply firstFailure_none.
  - intros failing failure Hin Hfailing.
    destruct (firstFailure_failing _ _ Hin Hfailing) as [err Hfirst].
    destruct (firstFailure_some _ Hfirst) as [c [Hc Herr]].
    exists c, err. split; [exact Hc|]. split; [exact Herr|].
    now apply Hfail.
Qed.

Lemma shutdown_outcomes_witness :
  let calm := steps (new_ServerRegistry false None)
                [EvAddServer (Fixtures.config "alpha") Fixtures.healthy;
                 EvIncomingRequest Sampling (Fixtures.sampling_request "r1" "alpha");
                 EvNotification "n1"] in
  (forall c, In c (JsMap.values (clients calm)) ->
             on_disconnect (client_backend c) = Normal tt)
  /\ fst (shutdown calm) = Normal tt
  /\ fst (listServers (after shutdown calm)) = Normal []
  /\ (exists failing,
         In failing (JsMap.values (clients Samples.flaky_registry))
         /\ on_disconnect (client_backend failing) = Throw Fixtures.unavailable)
  /\ (exists err, fst (shutdown Samples.flaky_registry) = Throw err)
  /\ JsMap.keys (pendingSamplingRequests Samples.flaky_registry) = ["r1"]
  /\ settled (after shutdown Samples.flaky_registry)
     = [Rejected Sampling "r1" (Error "Registry shutting down")]
  /\ JsMap.keys (clients (after shutdown Samples.flaky_registry))
     = ["alpha"; "delta"]
  /\ wire (after shutdown Samples.flaky_registry)
     = wire Samples.flaky_registry
       ++ [("alpha", ReqDisconnect); ("delta", ReqDisconnect)].
Proof.
  intros calm.
  assert (Hcalm : forall c, In c (JsMap.values (clients calm)) ->
                            on_disconnect (client_backend c) = Normal tt).
  { intros c [<-|[]]. reflexivity. }
  destruct (shutdown_outcomes calm) as [_ [_ [_ [_ [Hclean _]]]]].
  destruct (shutdown_outcomes Samples.flaky_registry)
    as [_ [_ [Hsettled [Hwire [_ Hfails]]]]].
  destruct (Hclean Hcalm) as [Hrun [Hclients _]].
  destruct (Hfails (Fixtures.client "delta" Connected Samples.flaky)
              Fixtures.unavailable)
    as [c [err [_ [_ [Hthrow [Hkeys _]]]]]];
    [right; now left | reflexivity |].
  split; [exact Hcalm|]. split; [rewrite Hrun; reflexivity|].
  split; [rewrite listServers_spec, Hclients; reflexivity|].
  split; [eexists; split; [right; now left | reflexivity]|].
  split; [exists err; rewrite Hthrow; reflexivity|].
  split; [reflexivity|]. split; [rewrite Hsettled; reflexivity|].
  split; [rewrite Hkeys; reflexivity | rewrite Hwire; reflexivity].
Defined.

(* ================================================================== *)
(** * Facts: [findToolByName]                                          *)
(* ================================================================== *)

Section FindToolFacts.
Context {E : RegExpEngine}.

Lemma findToolLoop_none (toolName : string) (cs : list MatchingClient) (w : Wire) :
  (forall mc, In mc cs -> offers toolName mc = None) ->
  findToolLoop toolName cs w = (Normal None, w ++ map toolRequest cs).
Proof.
  revert w. induction cs as [|mc cs IH]; intros w Hnone.
  - simpl. unfold ret. now rewrite app_nil_r.
  - cbn [findToolLoop map]. unfold bind at 1, try_catch, bind, client_listTools, request.
    cbn [send wire_wired].
    pose proof (Hnone mc (or_introl eq_refl)) as Hmc. unfold offers, tools_of in Hmc.
    destruct (on_listTools (client_backend (mc_client mc))) as [tools|err].
    + unfold ret, findNamed. rewrite Hmc.
      rewrite IH by (intros mc' Hin; apply Hnone; now right).
      rewrite <- app_assoc. reflexivity.
    + unfold ret.
      rewrite IH by (intros mc' Hin; apply Hnone; now right).
      rewrite <- app_assoc. reflexivity.
Qed.

Lemma findToolLoop_hit (toolName : string) (before : list MatchingClient)
    (mc : MatchingClient) (rest : list MatchingClient) (tool : Tool) (w : Wire) :
  (forall mc', In mc' before -> offers toolName mc' = None) ->
  offers toolName mc = Some tool ->
  findToolLoop toolName (before ++ mc :: rest) w
  = (Normal (Some (toolResult (mc_name mc) (Some true) tool)),
     w ++ map toolRequest before ++ [toolRequest mc]).
Proof.
  revert w. induction before as [|b before IH]; intros w Hnone Hoffer.
  - cbn [app findToolLoop map]. unfold bind at 1, try_catch, bind, client_listTools, request.
    cbn [send wire_wired]. unfold offers, tools_of in Hoffer.
    destruct (on_listTools (client_backend (mc_client mc))) as [tools|err];
      [|discriminate].
    unfold ret, findNamed. rewrite Hoffer. reflexivity.
  - cbn [app findToolLoop map]. unfold bind at 1, try_catch, bind, client_listTools, request.
    cbn [send wire_wired].
    pose proof (Hnone b (or_introl eq_refl)) as Hb. unfold offers, tools_of in Hb.
    destruct (on_listTools (client_backend (mc_client b))) as [tools|err].
    + unfold ret, findNamed. rewrite Hb.
      rewrite IH by (try (intros mc' Hin; apply Hnone; now right); assumption).
      rewrite <- app_assoc. reflexivity.
    + unfold ret.
      rewrite IH by (try (intros mc' Hin; apply Hnone; now right); assumption).
      rewrite <- app_assoc. reflexivity.
Qed.

(** Either no client offers the tool, or there is a first one that does. *)
Lemma first_offer (toolName : string) (cs : list MatchingClient) :
  (forall mc, In mc cs -> offers toolName mc = None)
  \/ exists before mc rest tool,
       cs = before ++ mc :: rest
       /\ (forall mc', In mc' before -> offers toolName mc' = None)
       /\ offers toolName mc = Some tool.
Proof.
  induction cs as [|c cs IH].
  - left. intros mc [].
  - destruct (offers toolName c) as [tool|] eqn:Hc.
    + right. exists [], c, cs, tool. repeat split; [intros mc' []|exact Hc].
    + destruct IH as [Hnone | [before [mc [rest [tool [-> [Hnone Hoffer]]]]]]].
      * left. intros mc [<-|Hin]; [exact Hc | now apply Hnone].
      * right. exists (c :: before), mc, rest, tool.
        repeat split; [|exact Hoffer].
        intros mc' [<-|Hin]; [exact Hc | now apply Hnone].
Qed.

Lemma offers_named (toolName : string) (mc : MatchingClient) (tool : Tool) :
  offers toolName mc = Some tool ->
  tool_name tool = toolName
  /\ exists tools, tools_of (mc_client mc) = Normal tools /\ In tool tools.
Proof.
  unfold offers. destruct (tools_of (mc_client mc)) as [tools|err]; [|discriminate].
  intros Hfind. apply find_some in Hfind. destruct Hfind as [Hin Heq].
  apply String.eqb_eq in Heq. split; [exact Heq|]. now exists tools.
Qed.

(** X10. [findToolByName] asks the matching clients in order and
    returns the tool of the first client whose enumeration succeeds and
    lists a tool of exactly that name, with its input schema; the
    clients after it are not asked.  A client whose enumeration fails is
    skipped.  When no client offers the tool every client has been asked
    and the answer is [null].  The function never throws. *)
Theorem findToolByName_first_match (session : SessionState)
    (toolName : string) (serverPattern : option string) (w : Wire) :
  let cs := getMatchingClients session serverPattern in
  ((forall mc, In mc cs -> offers toolName mc = None) ->
   findToolByName session toolName serverPattern w
   = (Normal None, w ++ map toolRequest cs))
  /\ (forall before mc rest tool,
         cs = before ++ mc :: rest ->
         (forall mc', In mc' before -> offers toolName mc' = None) ->
         offers toolName mc = Some tool ->
         findToolByName session toolName serverPattern w
         = (Normal (Some {| tr_server := mc_name mc;
                            tr_name := toolName;
                            tr_description := tool_description tool;
                            tr_inputSchema := Some (tool_inputSchema tool) |}),
            w ++ map toolRequest before ++ [toolRequest mc]))
  /\ (exists result w',
         findToolByName session toolName serverPattern w = (Normal result, w')).
Proof.
  cbv zeta. unfold findToolByName. split; [|split].
  - apply findToolLoop_none.
  - intros before mc rest tool -> Hnone Hoffer.
    rewrite (@findToolLoop_hit toolName before mc rest tool w Hnone Hoffer).
    destruct (@offers_named toolName mc tool Hoffer) as [<- _]. reflexivity.
  - destruct (first_offer toolName (getMatchingClients session serverPattern))
      as [Hnone | [before [mc [rest [tool [-> [Hnone Hoffer]]]]]]].
    + rewrite (@findToolLoop_none toolName _ w Hnone). eauto.
    + rewrite (@findToolLoop_hit toolName before mc rest tool w Hnone Hoffer). eauto.
Qed.
End FindToolFacts.

(** [beta] fails and is skipped, [alpha] has the tool, [gamma] is not
    asked; nobody has a tool named [ech]. *)
Lemma findToolByName_first_match_witness :
  let E := Ecma.engine Ecma.nothing_outside in
  findToolByName session_broken_first "echo" None []
  = (Normal (Some {| tr_server := "alpha";
                     tr_name := "echo";
                     tr_description := tool_description Fixtures.echo;
                     tr_inputSchema := Some (tool_inputSchema Fixtures.echo) |}),
     [("beta", ReqListTools); ("alpha", ReqListTools)])
  /\ findToolByName session_broken_first "ech" None []
     = (Normal None,
        [("beta", ReqListTools); ("alpha", ReqListTools); ("gamma", ReqListTools)]).
Proof.
  cbv zeta.
  destruct (@findToolByName_first_match (Ecma.engine Ecma.nothing_outside)
              session_broken_first "echo" None []) as [_ [Hhit _]].
  destruct (@findToolByName_first_match (Ecma.engine Ecma.nothing_outside)
              session_broken_first "ech" None []) as [Hnone _].
  split.
  - apply (Hhit
             [{| mc_name := "beta";
                 mc_client := Fixtures.client "beta" Connected Fixtures.broken |}]
             {| mc_name := "alpha";
                mc_client := Fixtures.client "alpha" Connected Fixtures.healthy |}
             [{| mc_name := "gamma";
                 mc_client := Fixtures.client "gamma" Connected Fixtures.healthy |}]
             Fixtures.echo).
    + reflexivity.
    + intros mc' [<-|[]]. reflexivity.
    + reflexivity.
  - apply Hnone. intros mc [<-|[<-|[<-|[]]]]; reflexivity.
Defined.

(** X11. What [findToolByName] returns for a tool name and a server
    pattern is one of the tools a [search] with that server pattern and
    with schemas included lists, for any query whose regex matches the
    (non-empty) tool name and whose type asks for tools. *)
Theorem findToolByName_found_by_search {E : RegExpEngine}
    (q : SearchQuery) (session : SessionState) (queryRegex : RegExp)
    (toolName : string) (result : SearchToolResult) (w w' w0 : Wire) :
  createQueryRegex (query q) = Some queryRegex ->
  wants TypeTools (type q) = true ->
  includeSchemas q = Some true ->
  hit queryRegex (Some toolName) ->
  findToolByName session toolName (Search.server q) w = (Normal (Some result), w') ->
  exists found results,
    fst (search q session w0) = Normal found
    /\ tools found = Some results
    /\ In result results.
Proof.
  intros Hregex Hwants Hschemas Hhit Hfound.
  rewrite (search_spec q session w0 Hregex). cbn [fst].
  exists (searchOutcome q session queryRegex), (toolsList q session queryRegex).
  split; [reflexivity|]. split; [unfold searchOutcome; cbn [tools]; now rewrite Hwants|].
  unfold findToolByName in Hfound.
  destruct (first_offer toolName (getMatchingClients session (Search.server q)))
    as [Hnone | [before [mc [rest [tool [Hcs [Hnone Hoffer]]]]]]].
  - rewrite (@findToolLoop_none toolName _ w Hnone) in Hfound. discriminate.
  - rewrite Hcs, (@findToolLoop_hit toolName before mc rest tool w Hnone Hoffer) in Hfound.
    injection Hfound as <- _.
    destruct (@offers_named toolName mc tool Hoffer) as [Hname [items [Hitems Hin]]].
    unfold toolsList, toolsFound. apply found_In.
    exists mc, items, tool.
    assert (Hmc : In mc (getMatchingClients session (Search.server q))).
    { rewrite Hcs. apply in_or_app. right. now left. }
    apply matchingClients_In in Hmc. destruct Hmc as [conn [_ [_ [_ Hfilter]]]].
    split; [rewrite Hcs; apply in_or_app; right; now left|].
    split; [exact Hfilter|]. split; [exact Hitems|]. split; [exact Hin|].
    split; [apply toolMatches_hit; left; now rewrite Hname|].
    now rewrite Hschemas.
Qed.

Lemma findToolByName_found_by_search_witness :
  let E := Ecma.engine Ecma.nothing_outside in
  let q := {| query := "ech"; type := TypeAll; Search.server := None;
              includeSchemas := Some true |} in
  let result := {| tr_server := "alpha";
                   tr_name := "echo";
                   tr_description := tool_description Fixtures.echo;
                   tr_inputSchema := Some (tool_inputSchema Fixtures.echo) |} in
  fst (findToolByName session_broken_first "echo" None []) = Normal (Some result)
  /\ exists found results,
       fst (search q session_broken_first []) = Normal found
       /\ tools found = Some results
       /\ In result results.
Proof.
  cbv zeta. split; [reflexivity|].
  eapply (@findToolByName_found_by_search (Ecma.engine Ecma.nothing_outside)
            {| query := "ech"; type := TypeAll; Search.server := None;
               includeSchemas := Some true |}
            session_broken_first _ "echo" _ [] _ []).
  - reflexivity.
  - reflexivity.
  - reflexivity.
  - exists "echo". split; [reflexivity|]. split; [discriminate | reflexivity].
  - reflexivity.
Defined.

(* ================================================================== *)
(** * Facts: the order of the identifiers and [sort]                   *)
(* ================================================================== *)

Lemma compare_OT (a b : string) : String_as_OT.compare a b = String.compare a b.
Proof. reflexivity. Qed.

Lemma id_le_cases (a b : string) : id_le a b <-> String_as_OT.lt a b \/ a = b.
Proof.
  unfold id_le, String.leb. rewrite <- compare_OT.
  destruct (String_as_OT.compare_spec a b) as [Heq|Hlt|Hgt].
  - split; [now right | reflexivity].
  - split; [now left | reflexivity].
  - split; [discriminate|]. intros [Hlt| ->].
    + exfalso. apply (StrictOrder_Irreflexive (R := String_as_OT.lt) a).
      now transitivity b.
    + exfalso. now apply (StrictOrder_Irreflexive (R := String_as_OT.lt) b).
Qed.

Lemma id_lt_cases (a b : string) : id_lt a b <-> String_as_OT.lt a b.
Proof.
  unfold id_lt. fold (id_le a b). rewrite id_le_cases. split.
  - intros [[Hlt|Heq] Hne]; [exact Hlt | contradiction].
  - intros Hlt. split; [now left|]. intros ->.
    now apply (StrictOrder_Irreflexive (R := String_as_OT.lt) b).
Qed.

Lemma id_le_trans (a b c : string) : id_le a b -> id_le b c -> id_le a c.
Proof.
  rewrite !id_le_cases. intros [Hab| ->] [Hbc| ->]; auto.
  left. now transitivity b.
Qed.

Lemma id_le_antisym (a b : string) : id_le a b -> id_le b a -> a = b.
Proof. apply String.leb_antisym. Qed.

Lemma id_lt_le (a b : string) : id_lt a b -> id_le a b.
Proof. now intros [Hle _]. Qed.

Lemma id_lt_asym (a b : string) : id_lt a b -> ~ id_lt b a.
Proof.
  intros [Hab Hne] [Hba _]. apply Hne. now apply id_le_antisym.
Qed.

Lemma insertSorted_perm (x : string) (l : list string) :
  Permutation (insertSorted x l) (x :: l).
Proof.
  induction l as [|y l IH]; simpl; [reflexivity|].
  destruct (String.leb x y); [reflexivity|].
  rewrite IH. apply perm_swap.
Qed.

Lemma sortStrings_perm (l : list string) : Permutation (sortStrings l) l.
Proof.
  induction l as [|x l IH]; simpl; [reflexivity|].
  rewrite insertSorted_perm. now constructor.
Qed.

Lemma insertSorted_sorted (x : string) (l : list string) :
  StronglySorted id_le l -> StronglySorted id_le (insertSorted x l).
Proof.
  induction 1 as [|y l Hsorted IH Hall]; simpl.
  - constructor; constructor.
  - destruct (String.leb x y) eqn:Hxy.
    + constructor; [now constructor|]. constructor; [exact Hxy|].
      eapply Forall_impl; [|exact Hall]. intros z Hz.
      now apply id_le_trans with y.
    + constructor; [exact IH|].
      assert (Hyx : id_le y x).
      { destruct (String.leb_total x y) as [H|H]; [congruence | exact H]. }
      apply Forall_forall. intros z Hz.
      apply (Permutation_in _ (insertSorted_perm x l)) in Hz.
      destruct Hz as [<-|Hz]; [exact Hyx|].
      rewrite Forall_forall in Hall. now apply Hall.
Qed.

Lemma sortStrings_sorted (l : list string) : StronglySorted id_le (sortStrings l).
Proof.
  induction l as [|x l IH]; simpl; [constructor|].
  now apply insertSorted_sorted.
Qed.

Lemma sortStrings_In (l : list string) (x : string) :
  In x (sortStrings l) <-> In x l.
Proof.
  split; apply Permutation_in;
    [apply sortStrings_perm | apply Permutation_sym, sortStrings_perm].
Qed.

Lemma sortStrings_NoDup (l : list string) : NoDup l -> NoDup (sortStrings l).
Proof.
  apply Permutation_NoDup, Permutation_sym, sortStrings_perm.
Qed.

Lemma sortStrings_length (l : list string) :
  List.length (sortStrings l) = List.length l.
Proof. apply Permutation_length, sortStrings_perm. Qed.

Lemma sorted_strict (l : list string) :
  NoDup l -> StronglySorted id_le l -> StronglySorted id_lt l.
Proof.
  intros Hnd Hsorted. induction Hsorted as [|x l Hsorted IH Hall].
  - constructor.
  - inversion Hnd as [|? ? Hnotin Hnd']; subst.
    constructor; [now apply IH|].
    rewrite Forall_forall in *. intros y Hy. split; [now apply Hall|].
    intros ->. contradiction.
Qed.

(** In a sorted list the elements of a prefix come before the others. *)
Lemma sorted_app (R : string -> string -> Prop) (l1 l2 : list string) :
  StronglySorted R (l1 ++ l2) ->
  StronglySorted R l1 /\ StronglySorted R l2
  /\ forall a b, In a l1 -> In b l2 -> R a b.
Proof.
  induction l1 as [|x l1 IH]; simpl; intros Hsorted.
  - split; [constructor|]. split; [exact Hsorted|]. intros a b [].
  - apply StronglySorted_inv in Hsorted. destruct Hsorted as [Hsorted Hall].
    destruct (IH Hsorted) as [H1 [H2 Hcross]].
    rewrite Forall_forall in Hall.
    split; [|split; [exact H2|]].
    + constructor; [exact H1|]. apply Forall_forall. intros y Hy.
      apply Hall. apply in_or_app. now left.
    + intros a b [<-|Ha] Hb; [|now apply Hcross].
      apply Hall. apply in_or_app. now right.
Qed.

(* ================================================================== *)
(** * Facts: the SSE event store                                       *)
(* ================================================================== *)

Lemma evictAll_get {V : Type} (ids : list string) (m : JsMap.t V) (k : string) :
  JsMap.get k (evictAll ids m)
  = if existsb (String.eqb k) ids then None else JsMap.get k m.
Proof.
  revert m. induction ids as [|i ids IH]; intros m; [reflexivity|].
  cbn [evictAll fold_left existsb]. fold (evictAll ids (JsMap.delete i m)).
  rewrite IH. destruct (String.eqb_spec k i) as [->|Hne]; cbn [orb].
  - rewrite JsMapFacts.get_delete_same. now destruct (existsb _ _).
  - now rewrite JsMapMore.get_delete_other.
Qed.

Lemma evictAll_keys {V : Type} (ids : list string) (m : JsMap.t V) (k : string) :
  In k (JsMap.keys (evictAll ids m)) <-> In k (JsMap.keys m) /\ ~ In k ids.
Proof.
  rewrite <- !JsMapMore.get_keys, evictAll_get.
  destruct (existsb (String.eqb k) ids) eqn:Hex.
  - apply existsb_exists in Hex. destruct Hex as [i [Hin Heq]].
    apply String.eqb_eq in Heq. subst i. tauto.
  - split; [|tauto]. intros Hget. split; [exact Hget|]. intros Hin.
    assert (existsb (String.eqb k) ids = true); [|congruence].
    apply existsb_exists. exists k. split; [exact Hin | apply String.eqb_refl].
Qed.

Lemma evictAll_wf {V : Type} (ids : list string) (m : JsMap.t V) :
  JsMap.wf m -> JsMap.wf (evictAll ids m).
Proof.
  revert m. induction ids as [|i ids IH]; intros m Hwf; [exact Hwf|].
  apply IH. now apply JsMapFacts.wf_delete.
Qed.

Lemma evictAll_size {V : Type} (ids : list string) (m : JsMap.t V) :
  JsMap.wf m -> NoDup ids -> incl ids (JsMap.keys m) ->
  JsMap.size (evictAll ids m) + List.length ids = JsMap.size m.
Proof.
  revert m. induction ids as [|i ids IH]; intros m Hwf Hnd Hincl.
  - simpl. lia.
  - cbn [evictAll fold_left List.length]. fold (evictAll ids (JsMap.delete i m)).
    inversion Hnd as [|? ? Hnotin Hnd']; subst.
    assert (Hi : In i (JsMap.keys m)) by (apply Hincl; now left).
    assert (Hsize : S (JsMap.size (JsMap.delete i m)) = JsMap.size m)
      by (now apply JsMapMore.size_delete_present).
    assert (Hwf' : JsMap.wf (JsMap.delete i m))
      by (now apply JsMapFacts.wf_delete).
    assert (Hrest : incl ids (JsMap.keys (JsMap.delete i m))).
    { intros k Hk. rewrite JsMapFacts.keys_delete. apply filter_In.
      split; [apply Hincl; now right|].
      destruct (String.eqb_spec k i) as [->|Hne]; [contradiction | reflexivity]. }
    pose proof (IH (JsMap.delete i m) Hwf' Hnd' Hrest). lia.
Qed.

Lemma evict_loop (ids : list string) (s : EventStore.SSEEventStore) :
  for_of ids
    (fun id (_ : unit) => modify (EventStore.with_events (JsMap.delete id))) tt s
  = (Normal tt, EventStore.with_events (evictAll ids) s).
Proof.
  revert s. induction ids as [|i ids IH]; intros s.
  - destruct s. reflexivity.
  - cbn [for_of]. unfold bind at 1, modify at 1. rewrite IH. reflexivity.
Qed.

Lemma slice0_firstn {A : Type} (n : Z) (l : list A) :
  (0 <= n)%Z -> EventStore.slice0 n l = firstn (Z.to_nat n) l.
Proof.
  intros Hn. unfold EventStore.slice0.
  destruct (Z.ltb_spec n 0); [lia | reflexivity].
Qed.

Lemma wf_filter {V : Type} (p : string * V -> bool) (m : JsMap.t V) :
  JsMap.wf m -> JsMap.wf (filter p m).
Proof.
  unfold JsMap.wf, JsMap.keys. induction m as [|e m IH]; intros Hnd; [exact Hnd|].
  cbn [map] in Hnd. inversion Hnd as [|? ? Hnotin Hnd']; subst.
  cbn [filter]. destruct (p e); [|now apply IH].
  cbn [map]. constructor; [|now apply IH].
  intros Hin. apply Hnotin. apply in_map_iff in Hin.
  destruct Hin as [e' [Hfst Hin]]. apply filter_In in Hin.
  apply in_map_iff. exists e'. tauto.
Qed.

Lemma get_filter {V : Type} (p : string * V -> bool) (m : JsMap.t V)
    (k : string) (v : V) :
  JsMap.wf m ->
  JsMap.get k (filter p m) = Some v
  <-> JsMap.get k m = Some v /\ p (k, v) = true.
Proof.
  intros Hwf. split.
  - intros Hget. apply JsMapFacts.get_In in Hget. apply filter_In in Hget.
    destruct Hget as [Hin Hp]. split; [|exact Hp].
    now apply JsMapFacts.In_get.
  - intros [Hget Hp]. apply JsMapFacts.get_In in Hget.
    apply JsMapFacts.In_get; [now apply wf_filter|].
    apply filter_In. now split.
Qed.

(** What [enforceLimit] does, in terms of the identifiers it evicts. *)
Lemma enforceLimit_run (s : EventStore.SSEEventStore) :
  JsMap.wf (EventStore.events s) ->
  (0 <= EventStore.maxEvents (EventStore.config s))%Z ->
  exists ids,
    EventStore.enforceLimit s
    = (Normal tt, EventStore.with_events (evictAll ids) s)
    /\ NoDup ids
    /\ incl ids (JsMap.keys (EventStore.events s))
    /\ Z.of_nat (List.length ids)
       = (Z.of_nat (JsMap.size (EventStore.events s))
          - Z.min (Z.of_nat (JsMap.size (EventStore.events s)))
                  (EventStore.maxEvents (EventStore.config s)))%Z
    /\ (forall kept evicted,
           In kept (JsMap.keys (EventStore.events s)) ->
           ~ In kept ids ->
           In evicted ids ->
           id_lt evicted kept).
Proof.
  intros Hwf Hlimit.
  unfold EventStore.enforceLimit, bind, gets.
  set (size := Z.of_nat (JsMap.size (EventStore.events s))).
  set (limit := EventStore.maxEvents (EventStore.config s)) in *.
  destruct (Z.leb_spec size limit) as [Hle|Hgt].
  - exists []. unfold ret. split; [destruct s; reflexivity|].
    split; [constructor|]. split; [intros k []|].
    split; [cbn [List.length]; lia|]. intros kept evicted _ _ [].
  - rewrite slice0_firstn by lia. rewrite evict_loop.
    set (sorted := sortStrings (JsMap.keys (EventStore.events s))).
    set (n := Z.to_nat (size - limit)).
    assert (Hall : NoDup sorted) by (now apply sortStrings_NoDup).
    assert (Hsorted : StronglySorted id_lt sorted).
    { apply sorted_strict; [exact Hall | apply sortStrings_sorted]. }
    exists (firstn n sorted). split; [reflexivity|].
    rewrite <- (firstn_skipn n sorted) in Hall, Hsorted.
    split; [now apply NoDup_app_remove_r in Hall|]. split; [|split].
    + intros k Hk. apply sortStrings_In. fold sorted.
      rewrite <- (firstn_skipn n sorted). apply in_or_app. now left.
    + rewrite length_firstn. unfold sorted. rewrite sortStrings_length.
      unfold JsMap.keys. rewrite length_map.
      unfold n, size, limit, JsMap.size in *. lia.
    + intros kept evicted Hkept Hnot Hevicted.
      apply sorted_app in Hsorted. destruct Hsorted as [_ [_ Hcross]].
      apply Hcross; [exact Hevicted|].
      apply sortStrings_In in Hkept. fold sorted in Hkept.
      rewrite <- (firstn_skipn n sorted) in Hkept.
      apply in_app_or in Hkept. destruct Hkept; [contradiction | assumption].
Qed.

(** X12. With a limit that is not negative, [enforceLimit] brings the
    number of stored events down to the limit and leaves a store within
    the limit alone; the entries it keeps are unchanged, and every
    identifier it evicts sorts strictly before every identifier it
    keeps. *)
Theorem enforceLimit_evicts_oldest (s : EventStore.SSEEventStore) :
  JsMap.wf (EventStore.events s) ->
  (0 <= EventStore.maxEvents (EventStore.config s))%Z ->
  let s' := snd (EventStore.enforceLimit s) in
  fst (EventStore.enforceLimit s) = Normal tt
  /\ EventStore.config s' = EventStore.config s
  /\ EventStore.delivered s' = EventStore.delivered s
  /\ JsMap.wf (EventStore.events s')
  /\ Z.of_nat (JsMap.size (EventStore.events s'))
     = Z.min (Z.of_nat (JsMap.size (EventStore.events s)))
             (EventStore.maxEvents (EventStore.config s))
  /\ (forall id entry,
         JsMap.get id (EventStore.events s') = Some entry ->
         JsMap.get id (EventStore.events s) = Some entry)
  /\ (forall kept evicted,
         In kept (JsMap.keys (EventStore.events s')) ->
         In evicted (JsMap.keys (EventStore.events s)) ->
         ~ In evicted (JsMap.keys (EventStore.events s')) ->
         id_lt evicted kept).
Proof.
  intros Hwf Hlimit. cbv zeta.
  destruct (enforceLimit_run s Hwf Hlimit)
    as [ids [Hrun [Hnd [Hincl [Hlen Hcross]]]]].
  rewrite Hrun. cbn [fst snd]. unfold EventStore.with_events.
  cbn [EventStore.events EventStore.config EventStore.delivered].
  assert (Hsize : JsMap.size (evictAll ids (EventStore.events s))
                  + List.length ids
                  = JsMap.size (EventStore.events s))
    by (now apply evictAll_size).
  split; [reflexivity|]. split; [reflexivity|]. split; [reflexivity|].
  split; [now apply evictAll_wf|]. split; [lia|]. split.
  - intros id entry. rewrite evictAll_get.
    destruct (existsb _ _); [discriminate | tauto].
  - intros kept evicted Hkept Hin Hgone.
    apply evictAll_keys in Hkept. destruct Hkept as [Hkept Hnot].
    apply Hcross; [exact Hkept | exact Hnot |].
    destruct (in_dec string_dec evicted ids) as [Hyes|Hno]; [exact Hyes|].
    exfalso. apply Hgone. apply evictAll_keys. now split.
Qed.

Lemma sample_store_wf : JsMap.wf (EventStore.events sample_store).
Proof.
  unfold JsMap.wf. cbn.
  repeat (constructor; [cbn; intuition discriminate|]). constructor.
Qed.

(** The store holds four events and its limit is three: the event with
    the smallest identifier goes. *)
Lemma enforceLimit_evicts_oldest_witness :
  JsMap.wf (EventStore.events sample_store)
  /\ (0 <= EventStore.maxEvents (EventStore.config sample_store))%Z
  /\ JsMap.keys (EventStore.events (snd (EventStore.enforceLimit sample_store)))
     = ["01B"; "01C"; "01D"]
  /\ id_lt "01A" "01B".
Proof.
  split; [exact sample_store_wf|]. split; [cbn; lia|]. split; [reflexivity|].
  destruct (enforceLimit_evicts_oldest sample_store sample_store_wf)
    as [_ [_ [_ [_ [_ [_ Hevicted]]]]]]; [cbn; lia|].
  apply (Hevicted "01B" "01A").
  - cbn. now left.
  - cbn. right. now left.
  - cbn. intros [H|[H|[H|[]]]]; discriminate H.
Defined.

Lemma cleanup_loop (cutoff : Z) (entries : JsMap.t EventStore.StoredEvent)
    (s : EventStore.SSEEventStore) :
  for_of entries
    (fun '(eventId, entry) (_ : unit) =>
       if (EventStore.createdAt entry <? cutoff)%Z
       then modify (EventStore.with_events (JsMap.delete eventId))
       else ret tt)
    tt s
  = (Normal tt,
     EventStore.with_events
       (delete_all
          (filter (fun e => (EventStore.createdAt (snd e) <? cutoff)%Z) entries))
       s).
Proof.
  revert s. induction entries as [|[eventId entry] entries IH]; intros s.
  - destruct s. reflexivity.
  - cbn [for_of filter snd]. unfold bind at 1.
    destruct (EventStore.createdAt entry <? cutoff)%Z.
    + unfold modify at 1. rewrite IH. reflexivity.
    + unfold ret at 1. rewrite IH. reflexivity.
Qed.

Lemma cleanupOldEvents_run (now : Z) (s : EventStore.SSEEventStore) :
  JsMap.wf (EventStore.events s) ->
  EventStore.cleanupOldEvents now s
  = (Normal tt,
     EventStore.with_events
       (filter (fun e => negb (expired now s (snd e)))) s).
Proof.
  intros Hwf. unfold EventStore.cleanupOldEvents, bind, gets. cbv zeta.
  rewrite cleanup_loop. unfold EventStore.with_events. f_equal. f_equal.
  now apply delete_selected.
Qed.

(** X13. [cleanupOldEvents] removes exactly the events created before
    the cutoff [now - retentionMs]: an event is in the store afterwards
    if and only if it was there before and was created at the cutoff or
    later; the events that stay keep their order. *)
Theorem cleanupOldEvents_keeps_recent (now : Z) (s : EventStore.SSEEventStore) :
  JsMap.wf (EventStore.events s) ->
  let s' := snd (EventStore.cleanupOldEvents now s) in
  fst (EventStore.cleanupOldEvents now s) = Normal tt
  /\ EventStore.config s' = EventStore.config s
  /\ EventStore.delivered s' = EventStore.delivered s
  /\ (forall id entry,
         JsMap.get id (EventStore.events s') = Some entry
         <-> JsMap.get id (EventStore.events s) = Some entry
             /\ (now - EventStore.retentionMs (EventStore.config s)
                 <= EventStore.createdAt entry)%Z)
  /\ EventStore.events s'
     = filter (fun e => negb (expired now s (snd e))) (EventStore.events s).
Proof.
  intros Hwf. cbv zeta. rewrite (cleanupOldEvents_run now s Hwf). cbn [fst snd].
  unfold EventStore.with_events.
  cbn [EventStore.events EventStore.config EventStore.delivered].
  split; [reflexivity|]. split; [reflexivity|]. split; [reflexivity|].
  split; [|reflexivity].
  intros id entry. rewrite get_filter by exact Hwf. cbn [snd]. unfold expired.
  destruct (Z.ltb_spec (EventStore.createdAt entry)
              (now - EventStore.retentionMs (EventStore.config s))); cbn [negb].
  - split; [intros [_ [=]] | intros [_ Hle]; lia].
  - tauto.
Qed.

Lemma cleanupOldEvents_keeps_recent_witness :
  JsMap.wf (EventStore.events sample_store)
  /\ EventStore.retentionMs (EventStore.config sample_store) = 250%Z
  /\ JsMap.keys
       (EventStore.events (snd (EventStore.cleanupOldEvents 500 sample_store)))
     = ["01C"; "01D"].
Proof.
  split; [exact sample_store_wf|]. split; [reflexivity|].
  destruct (@cleanupOldEvents_keeps_recent 500 sample_store sample_store_wf)
    as [_ [_ [_ [_ Hevents]]]].
  rewrite Hevents. reflexivity.
Defined.

Lemma keys_set_In {V : Type} (k id : string) (v : V) (m : JsMap.t V) :
  In k (JsMap.keys (JsMap.set id v m)) <-> k = id \/ In k (JsMap.keys m).
Proof.
  rewrite <- !JsMapMore.get_keys.
  destruct (String.eqb_spec k id) as [->|Hne].
  - rewrite JsMapFacts.get_set_same. split; [now left | discriminate].
  - rewrite JsMapFacts.get_set_other by exact Hne. tauto.
Qed.

(** Fewer identifiers than keys: some key is not among them. *)
Lemma not_all_evicted (ids keys : list string) :
  NoDup keys -> List.length ids < List.length keys ->
  exists k, In k keys /\ ~ In k ids.
Proof.
  intros Hnd Hlt.
  destruct (Forall_Exists_dec (fun k => In k ids)
              (fun k => in_dec string_dec k ids) keys) as [Hall|Hex].
  - exfalso. rewrite Forall_forall in Hall.
    assert (List.length keys <= List.length ids); [|lia].
    apply NoDup_incl_length; [exact Hnd|]. intros k Hk. now apply Hall.
  - apply Exists_exists in Hex. exact Hex.
Qed.

(** What [storeEvent] does, in terms of the identifiers the limit
    evicts. *)
Lemma storeEvent_run (eventId : string) (now later : Z) (stream : string)
    (msg : Json) (s : EventStore.SSEEventStore) :
  JsMap.wf (EventStore.events s) ->
  (0 <= EventStore.maxEvents (EventStore.config s))%Z ->
  let entry := {| EventStore.streamId := stream; EventStore.message := msg;
                  EventStore.createdAt := now |} in
  let stored := JsMap.set eventId entry (EventStore.events s) in
  exists ids,
    EventStore.storeEvent eventId now later stream msg s
    = (Normal eventId,
       EventStore.with_events
         (fun _ => filter (fun e => negb (expired later s (snd e)))
                     (evictAll ids stored)) s)
    /\ JsMap.wf stored
    /\ NoDup ids
    /\ incl ids (JsMap.keys stored)
    /\ Z.of_nat (List.length ids)
       = (Z.of_nat (JsMap.size stored)
          - Z.min (Z.of_nat (JsMap.size stored))
                  (EventStore.maxEvents (EventStore.config s)))%Z
    /\ (forall kept evicted,
           In kept (JsMap.keys stored) ->
           ~ In kept ids ->
           In evicted ids ->
           id_lt evicted kept).
Proof.
  intros Hwf Hlimit entry stored.
  set (s1 := EventStore.with_events (JsMap.set eventId entry) s).
  assert (Hwf1 : JsMap.wf (EventStore.events s1))
    by (now apply JsMapFacts.wf_set).
  destruct (enforceLimit_run s1 Hwf1 Hlimit)
    as [ids [Hrun [Hnd [Hincl [Hlen Hcross]]]]].
  set (s2 := EventStore.with_events (evictAll ids) s1) in *.
  assert (Hwf2 : JsMap.wf (EventStore.events s2))
    by (now apply evictAll_wf).
  pose proof (cleanupOldEvents_run later s2 Hwf2) as Hclean.
  exists ids. split; [|tauto].
  unfold EventStore.storeEvent. unfold bind at 1, modify at 1. fold entry s1.
  unfold bind at 1. rewrite Hrun. unfold bind at 1. rewrite Hclean.
  reflexivity.
Qed.

(** X14. With a limit that is not negative, [storeEvent] returns the
    identifier it was given by [ulid()] and leaves a store within the
    limit, in which no event is older than the retention period.  Every
    event of the store afterwards is either the new one or one that was
    there before, unchanged. *)
Theorem storeEvent_within_limits (eventId : string) (now later : Z)
    (stream : string) (msg : Json) (s : EventStore.SSEEventStore) :
  JsMap.wf (EventStore.events s) ->
  (0 <= EventStore.maxEvents (EventStore.config s))%Z ->
  let s' := snd (EventStore.storeEvent eventId now later stream msg s) in
  fst (EventStore.storeEvent eventId now later stream msg s) = Normal eventId
  /\ EventStore.config s' = EventStore.config s
  /\ EventStore.delivered s' = EventStore.delivered s
  /\ JsMap.wf (EventStore.events s')
  /\ (Z.of_nat (JsMap.size (EventStore.events s'))
      <= EventStore.maxEvents (EventStore.config s))%Z
  /\ (forall id entry,
         JsMap.get id (EventStore.events s') = Some entry ->
         (later - EventStore.retentionMs (EventStore.config s)
          <= EventStore.createdAt entry)%Z
         /\ (id = eventId
             /\ entry = {| EventStore.streamId := stream;
                           EventStore.message := msg;
                           EventStore.createdAt := now |}
             \/ id <> eventId
                /\ JsMap.get id (EventStore.events s) = Some entry)).
Proof.
  intros Hwf Hlimit. cbv zeta.
  destruct (storeEvent_run eventId now later stream msg s Hwf Hlimit)
    as [ids [Hrun [Hwf1 [Hnd [Hincl [Hlen _]]]]]].
  rewrite Hrun. cbn [fst snd]. unfold EventStore.with_events.
  cbn [EventStore.events EventStore.config EventStore.delivered].
  set (entry := {| EventStore.streamId := stream; EventStore.message := msg;
                   EventStore.createdAt := now |}) in *.
  set (stored := JsMap.set eventId entry (EventStore.events s)) in *.
  assert (Hwf2 : JsMap.wf (evictAll ids stored)) by (now apply evictAll_wf).
  split; [reflexivity|]. split; [reflexivity|]. split; [reflexivity|].
  split; [now apply wf_filter|]. split.
  - assert (Hsize : JsMap.size (evictAll ids stored) + List.length ids
                    = JsMap.size stored)
      by (now apply evictAll_size).
    assert (Hle : JsMap.size
                    (filter (fun e => negb (expired later s (snd e)))
                       (evictAll ids stored))
                  <= JsMap.size (evictAll ids stored))
      by apply filter_length_le.
    lia.
  - intros id e Hget. apply get_filter in Hget; [|exact Hwf2].
    destruct Hget as [Hget Hfresh]. cbn [snd] in Hfresh. unfold expired in Hfresh.
    split.
    + destruct (Z.ltb_spec (EventStore.createdAt e)
                  (later - EventStore.retentionMs (EventStore.config s)));
        [discriminate | lia].
    + rewrite evictAll_get in Hget.
      destruct (existsb (String.eqb id) ids); [discriminate|].
      unfold stored in Hget.
      destruct (String.eqb_spec id eventId) as [->|Hne].
      * rewrite JsMapFacts.get_set_same in Hget. left. split; congruence.
      * rewrite JsMapFacts.get_set_other in Hget by exact Hne. now right.
Qed.

Lemma storeEvent_within_limits_witness :
  let s' := snd (EventStore.storeEvent "01E" 450 460 "s1" "fourth" sample_store) in
  JsMap.wf (EventStore.events sample_store)
  /\ EventStore.maxEvents (EventStore.config sample_store) = 3%Z
  /\ JsMap.size (EventStore.events sample_store) = 4
  /\ (Z.of_nat (JsMap.size (EventStore.events s')) <= 3)%Z
  /\ JsMap.keys (EventStore.events s') = ["01C"; "01D"; "01E"].
Proof.
  cbv zeta. split; [exact sample_store_wf|]. split; [reflexivity|].
  split; [reflexivity|]. split; [|reflexivity].
  destruct (@storeEvent_within_limits "01E" 450 460 "s1" "fourth" sample_store
              sample_store_wf) as [_ [_ [_ [_ [Hsize _]]]]]; [cbn; lia|].
  exact Hsize.
Defined.

(** X15. An event stored under an identifier that sorts after every
    identifier of the store can be looked up right away, provided the
    limit is at least one and the retention period has not elapsed
    between the two readings of the clock: [getStreamIdForEventId]
    returns its stream. *)
Theorem stored_event_is_found (eventId : string) (now later : Z)
    (stream : string) (msg : Json) (s : EventStore.SSEEventStore) :
  JsMap.wf (EventStore.events s) ->
  (1 <= EventStore.maxEvents (EventStore.config s))%Z ->
  (forall id, In id (JsMap.keys (EventStore.events s)) -> id_le id eventId) ->
  (later - EventStore.retentionMs (EventStore.config s) <= now)%Z ->
  let s' := snd (EventStore.storeEvent eventId now later stream msg s) in
  EventStore.getStreamIdForEventId eventId s' = (Normal (Some stream), s').
Proof.
  intros Hwf Hlimit Hnewest Hrecent. cbv zeta.
  destruct (storeEvent_run eventId now later stream msg s Hwf)
    as [ids [Hrun [Hwf1 [Hnd [Hincl [Hlen Hcross]]]]]]; [lia|].
  rewrite Hrun. cbn [snd].
  set (entry := {| EventStore.streamId := stream; EventStore.message := msg;
                   EventStore.createdAt := now |}) in *.
  set (stored := JsMap.set eventId entry (EventStore.events s)) in *.
  assert (Hstored : In eventId (JsMap.keys stored))
    by (apply keys_set_In; now left).
  assert (Hkept : ~ In eventId ids).
  { intros Hin.
    assert (Hpos : 1 <= JsMap.size stored).
    { unfold JsMap.size. unfold JsMap.keys in Hstored.
      destruct stored; [contradiction | cbn; lia]. }
    destruct (@not_all_evicted ids (JsMap.keys stored)) as [kept [Hk Hnot]].
    - exact Hwf1.
    - unfold JsMap.keys. rewrite length_map. fold (JsMap.size stored). lia.
    - destruct (Hcross kept eventId Hk Hnot Hin) as [Hle Hne].
      apply keys_set_In in Hk. destruct Hk as [->|Hk]; [now apply Hne|].
      apply Hne. apply id_le_antisym; [exact Hle | now apply Hnewest]. }
  unfold EventStore.getStreamIdForEventId, gets. f_equal. f_equal.
  unfold EventStore.with_events. cbn [EventStore.events].
  assert (Hget : JsMap.get eventId
                   (filter (fun e => negb (expired later s (snd e)))
                      (evictAll ids stored))
                 = Some entry).
  { apply get_filter; [now apply evictAll_wf|]. split.
    - rewrite evictAll_get.
      destruct (existsb (String.eqb eventId) ids) eqn:Hex.
      + exfalso. apply Hkept. apply existsb_exists in Hex.
        destruct Hex as [k [Hin Heq]]. apply String.eqb_eq in Heq. now subst k.
      + apply JsMapFacts.get_set_same.
    - cbn [snd]. unfold expired. cbn [EventStore.createdAt entry].
      destruct (Z.ltb_spec now
                  (later - EventStore.retentionMs (EventStore.config s)));
        [lia | reflexivity]. }
  rewrite Hget. reflexivity.
Qed.

Lemma stored_event_is_found_witness :
  let s' := snd (EventStore.storeEvent "01E" 450 460 "s1" "fourth" sample_store) in
  JsMap.wf (EventStore.events sample_store)
  /\ (1 <= EventStore.maxEvents (EventStore.config sample_store))%Z
  /\ (forall id, In id (JsMap.keys (EventStore.events sample_store)) ->
                 id_le id "01E")
  /\ (460 - EventStore.retentionMs (EventStore.config sample_store) <= 450)%Z
  /\ fst (EventStore.getStreamIdForEventId "01E" s') = Normal (Some "s1").
Proof.
  cbv zeta.
  assert (Hnewest : forall id,
             In id (JsMap.keys (EventStore.events sample_store)) ->
             id_le id "01E").
  { cbn. intros id [<-|[<-|[<-|[<-|[]]]]]; reflexivity. }
  split; [exact sample_store_wf|]. split; [cbn; lia|]. split; [exact Hnewest|].
  split; [cbn; lia|].
  rewrite (@stored_event_is_found "01E" 450 460 "s1" "fourth" sample_store
             sample_store_wf); [reflexivity | cbn; lia | exact Hnewest | cbn; lia].
Defined.

(** X16. When the store already holds at least as many events as the
    limit allows, an event stored under an identifier that sorts before
    every identifier of the store is evicted by the very call that
    stores it: [storeEvent] returns the identifier, and
    [getStreamIdForEventId] does not know it. *)
Theorem stale_event_is_dropped (eventId : string) (now later : Z)
    (stream : string) (msg : Json) (s : EventStore.SSEEventStore) :
  JsMap.wf (EventStore.events s) ->
  (0 <= EventStore.maxEvents (EventStore.config s))%Z ->
  (EventStore.maxEvents (EventStore.config s)
   <= Z.of_nat (JsMap.size (EventStore.events s)))%Z ->
  JsMap.get eventId (EventStore.events s) = None ->
  (forall id, In id (JsMap.keys (EventStore.events s)) -> id_le eventId id) ->
  let s' := snd (EventStore.storeEvent eventId now later stream msg s) in
  fst (EventStore.storeEvent eventId now later stream msg s) = Normal eventId
  /\ EventStore.getStreamIdForEventId eventId s' = (Normal None, s').
Proof.
  intros Hwf Hlimit Hfull Hfresh Holdest. cbv zeta.
  destruct (storeEvent_run eventId now later stream msg s Hwf Hlimit)
    as [ids [Hrun [Hwf1 [Hnd [Hincl [Hlen Hcross]]]]]].
  rewrite Hrun. cbn [fst snd]. split; [reflexivity|].
  set (entry := {| EventStore.streamId := stream; EventStore.message := msg;
                   EventStore.createdAt := now |}) in *.
  set (stored := JsMap.set eventId entry (EventStore.events s)) in *.
  assert (Hsize : JsMap.size stored = S (JsMap.size (EventStore.events s))).
  { unfold stored. rewrite JsMapMore.size_set. unfold JsMap.has.
    now rewrite Hfresh. }
  assert (Hstored : In eventId (JsMap.keys stored))
    by (apply keys_set_In; now left).
  assert (Hevicted : In eventId ids).
  { destruct (in_dec string_dec eventId ids) as [Hyes|Hno]; [exact Hyes|].
    exfalso. destruct ids as [|x ids]; [cbn [List.length] in Hlen; lia|].
    destruct (Hcross eventId x Hstored Hno (or_introl eq_refl)) as [Hle Hne].
    assert (Hx : In x (JsMap.keys stored)) by (apply Hincl; now left).
    apply keys_set_In in Hx. destruct Hx as [->|Hx]; [now apply Hne|].
    apply Hne. apply id_le_antisym; [exact Hle | now apply Holdest]. }
  unfold EventStore.getStreamIdForEventId, gets. f_equal. f_equal.
  unfold EventStore.with_events. cbn [EventStore.events].
  destruct (JsMap.get eventId
              (filter (fun e => negb (expired later s (snd e)))
                 (evictAll ids stored))) as [e|] eqn:Hget; [|reflexivity].
  exfalso. apply get_filter in Hget; [|now apply evictAll_wf].
  destruct Hget as [Hget _]. rewrite evictAll_get in Hget.
  assert (Hex : existsb (String.eqb eventId) ids = true).
  { apply existsb_exists. exists eventId. split; [exact Hevicted|].
    apply String.eqb_refl. }
  rewrite Hex in Hget. discriminate.
Qed.

Lemma stale_event_is_dropped_witness :
  let s' := snd (EventStore.storeEvent "00Z" 450 460 "s1" "late" sample_store) in
  JsMap.wf (EventStore.events sample_store)
  /\ (EventStore.maxEvents (EventStore.config sample_store)
      <= Z.of_nat (JsMap.size (EventStore.events sample_store)))%Z
  /\ JsMap.get "00Z" (EventStore.events sample_store) = None
  /\ (forall id, In id (JsMap.keys (EventStore.events sample_store)) ->
                 id_le "00Z" id)
  /\ fst (EventStore.storeEvent "00Z" 450 460 "s1" "late" sample_store)
     = Normal "00Z"
  /\ fst (EventStore.getStreamIdForEventId "00Z" s') = Normal None.
Proof.
  cbv zeta.
  assert (Holdest : forall id,
             In id (JsMap.keys (EventStore.events sample_store)) ->
             id_le "00Z" id).
  { cbn. intros id [<-|[<-|[<-|[<-|[]]]]]; reflexivity. }
  split; [exact sample_store_wf|]. split; [cbn; lia|]. split; [reflexivity|].
  split; [exact Holdest|].
  destruct (@stale_event_is_dropped "00Z" 450 460 "s1" "late" sample_store
              sample_store_wf) as [Hid Hlookup];
    [cbn; lia | cbn; lia | reflexivity | exact Holdest |].
  split; [exact Hid|]. rewrite Hlookup. reflexivity.
Defined.

(** ** Replay *)

Lemma for_of_app {S A B : Type} (xs ys : list A) (body : A -> B -> M S B)
    (acc : B) (s : S) :
  for_of (xs ++ ys) body acc s
  = (acc' <- for_of xs body acc ;; for_of ys body acc') s.
Proof.
  revert acc s. induction xs as [|x xs IH]; intros acc s; [reflexivity|].
  cbn [app for_of]. unfold bind.
  destruct (body x acc s) as [[acc'|err] s']; [|reflexivity].
  rewrite IH. reflexivity.
Qed.

Lemma attempts_accepted
    (send : EventStore.EventId -> EventStore.JSONRPCMessage -> Completion unit)
    (batch : list (EventStore.EventId * EventStore.JSONRPCMessage)) :
  (forall eventId msg, In (eventId, msg) batch -> send eventId msg = Normal tt) ->
  attempts send batch = (batch, None).
Proof.
  induction batch as [|[eventId msg] batch IH]; intros Hok; [reflexivity|].
  cbn [attempts]. rewrite (Hok eventId msg) by now left.
  rewrite IH; [reflexivity|]. intros id m Hin. apply Hok. now right.
Qed.

Lemma sameStream_In (stream : string) (s : EventStore.SSEEventStore)
    (ids : list string) (eventId : string) (msg : Json) :
  In (eventId, msg) (sameStream stream s ids)
  <-> In eventId ids
      /\ exists entry,
           JsMap.get eventId (EventStore.events s) = Some entry
           /\ EventStore.streamId entry = stream
           /\ EventStore.message entry = msg.
Proof.
  unfold sameStream. rewrite in_flat_map. split.
  - intros [id [Hid Hin]].
    destruct (JsMap.get id (EventStore.events s)) as [entry|] eqn:Hget;
      [|contradiction].
    destruct (String.eqb_spec (EventStore.streamId entry) stream) as [Hs|Hs];
      [|contradiction].
    destruct Hin as [[= <- <-]|[]]. split; [exact Hid|]. now exists entry.
  - intros [Hid [entry [Hget [Hs Hm]]]]. exists eventId. split; [exact Hid|].
    rewrite Hget, Hs, String.eqb_refl, Hm. now left.
Qed.

Lemma sameStream_sorted (R : string -> string -> Prop) (stream : string)
    (s : EventStore.SSEEventStore) (ids : list string) :
  StronglySorted R ids -> StronglySorted R (map fst (sameStream stream s ids)).
Proof.
  induction 1 as [|id ids Hsorted IH Hall]; [constructor|].
  unfold sameStream. cbn [flat_map]. fold (sameStream stream s ids).
  rewrite map_app.
  assert (Hrest : Forall (R id) (map fst (sameStream stream s ids))).
  { rewrite Forall_forall in *. intros k Hk. apply in_map_iff in Hk.
    destruct Hk as [[k' m] [<- Hin]]. apply sameStream_In in Hin.
    apply Hall. tauto. }
  destruct (JsMap.get id (EventStore.events s)) as [entry|]; [|exact IH].
  destruct (String.eqb (EventStore.streamId entry) stream); [|exact IH].
  cbn [map app fst]. now constructor.
Qed.

Section ReplayFacts.
Variable send : EventStore.EventId -> EventStore.JSONRPCMessage -> Completion unit.
Variables (lastEventId : string) (stream : string).

Local Abbreviation replayStep :=
  (fun (eventId : string) (foundStart : bool) =>
     if String.eqb eventId lastEventId then ret true
     else if (foundStart : bool) then
       entry <- gets (fun s => JsMap.get eventId (EventStore.events s)) ;;
       match entry with
       | Some entry =>
           if String.eqb (EventStore.streamId entry) stream
           then EventStore.call_send send eventId (EventStore.message entry) ;;;
                ret foundStart
           else ret foundStart
       | None => ret foundStart
       end
     else ret foundStart).

(** Before the start is found nothing is sent. *)
Lemma replay_before (ids : list string) (s : EventStore.SSEEventStore) :
  ~ In lastEventId ids ->
  for_of ids replayStep false s = (Normal false, s).
Proof.
  induction ids as [|id ids IH]; intros Hnot; [reflexivity|].
  cbn [for_of]. unfold bind at 1.
  destruct (String.eqb_spec id lastEventId) as [->|Hne];
    [exfalso; apply Hnot; now left|].
  unfold ret at 1. apply IH. intros Hin. apply Hnot. now right.
Qed.

(** After the start was found the events of the stream are sent in
    order until [send] fails. *)
Lemma replay_after (ids : list string) (s : EventStore.SSEEventStore) :
  ~ In lastEventId ids ->
  for_of ids replayStep true s
  = (match snd (attempts send (sameStream stream s ids)) with
     | None => Normal true
     | Some err => Throw err
     end,
     EventStore.with_delivered
       (fun l => l ++ fst (attempts send (sameStream stream s ids))) s).
Proof.
  revert s. induction ids as [|id ids IH]; intros s Hnot.
  - cbn. destruct s. unfold EventStore.with_delivered. cbn.
    now rewrite app_nil_r.
  - assert (Hrest : ~ In lastEventId ids) by (intros Hin; apply Hnot; now right).
    cbn [for_of]. unfold bind at 1.
    destruct (String.eqb_spec id lastEventId) as [->|Hne];
      [exfalso; apply Hnot; now left|].
    unfold sameStream. cbn [flat_map]. fold (sameStream stream s ids).
    unfold bind at 1, gets at 1.
    destruct (JsMap.get id (EventStore.events s)) as [entry|].
    + destruct (String.eqb (EventStore.streamId entry) stream).
      * cbn [app attempts]. unfold bind at 1, EventStore.call_send at 1.
        destruct (send id (EventStore.message entry)) as [[]|err].
        -- unfold ret at 1. rewrite IH by exact Hrest.
           change (sameStream stream
                     (EventStore.with_delivered
                        (fun l => l ++ [(id, EventStore.message entry)]) s) ids)
             with (sameStream stream s ids).
           destruct (attempts send (sameStream stream s ids)) as [sent failure].
           cbn [fst snd]. f_equal. unfold EventStore.with_delivered.
           cbn [EventStore.events EventStore.config EventStore.delivered].
           now rewrite <- app_assoc.
        -- reflexivity.
      * unfold ret at 1. cbn [app]. now apply IH.
    + unfold ret at 1. cbn [app]. now apply IH.
Qed.
End ReplayFacts.

(** X17. [replayEventsAfter] of an identifier the store does not hold
    returns the empty stream id and sends nothing.  For an identifier
    the store holds, it sends the events of the same stream whose
    identifiers sort strictly after it, in ascending order of
    identifier, and returns the stream; if [send] fails, the replay
    throws that error and the remaining events are not sent.  The store
    itself is not changed. *)
Theorem replayEventsAfter_resumes
    (send : EventStore.EventId -> EventStore.JSONRPCMessage -> Completion unit)
    (lastEventId : string) (s : EventStore.SSEEventStore) :
  JsMap.wf (EventStore.events s) ->
  (JsMap.get lastEventId (EventStore.events s) = None ->
   EventStore.replayEventsAfter send lastEventId s = (Normal EmptyString, s))
  /\ (forall startEntry,
         JsMap.get lastEventId (EventStore.events s) = Some startEntry ->
         exists batch,
           eventsAfter lastEventId (EventStore.streamId startEntry) s batch
           /\ EventStore.replayEventsAfter send lastEventId s
              = (match snd (attempts send batch) with
                 | None => Normal (EventStore.streamId startEntry)
                 | Some err => Throw err
                 end,
                 EventStore.with_delivered
                   (fun l => l ++ fst (attempts send batch)) s)
           /\ ((forall eventId msg,
                   In (eventId, msg) batch -> send eventId msg = Normal tt) ->
               attempts send batch = (batch, None))).
Proof.
  intros Hwf. split.
  - intros Hget. unfold EventStore.replayEventsAfter, bind, gets.
    now rewrite Hget.
  - intros startEntry Hget.
    set (stream := EventStore.streamId startEntry).
    set (sorted := sortStrings (JsMap.keys (EventStore.events s))).
    assert (Hall : NoDup sorted) by (now apply sortStrings_NoDup).
    assert (Hsorted : StronglySorted id_lt sorted).
    { apply sorted_strict; [exact Hall | apply sortStrings_sorted]. }
    assert (Hlast : In lastEventId sorted).
    { apply sortStrings_In. apply JsMapMore.get_keys. congruence. }
    destruct (in_split _ _ Hlast) as [before [rest Hsplit]].
    rewrite Hsplit in Hall, Hsorted.
    assert (Hbefore : ~ In lastEventId before).
    { intros Hin. apply NoDup_remove_2 in Hall. apply Hall.
      apply in_or_app. now left. }
    assert (Hrest : ~ In lastEventId rest).
    { intros Hin. apply NoDup_remove_2 in Hall. apply Hall.
      apply in_or_app. now right. }
    apply sorted_app in Hsorted. destruct Hsorted as [_ [Hlater Hcross]].
    apply StronglySorted_inv in Hlater. destruct Hlater as [Hrest_sorted Hafter].
    rewrite Forall_forall in Hafter.
    exists (sameStream stream s rest). split; [|split].
    + split; [now apply sameStream_sorted|].
      intros eventId msg. rewrite sameStream_In. split.
      * intros [Hin Hentry]. split; [now apply Hafter | exact Hentry].
      * intros [Hlt Hentry]. split; [|exact Hentry].
        destruct Hentry as [entry [Hentry _]].
        assert (Hk : In eventId sorted).
        { apply sortStrings_In. apply JsMapMore.get_keys. congruence. }
        rewrite Hsplit in Hk. apply in_app_or in Hk.
        destruct Hk as [Hk|[Hk|Hk]]; [| |exact Hk].
        -- exfalso. apply (id_lt_asym Hlt). apply Hcross; [exact Hk | now left].
        -- exfalso. destruct Hlt as [_ Hne]. now apply Hne.
    + unfold EventStore.replayEventsAfter. unfold bind at 1, gets at 1.
      rewrite Hget. unfold bind at 1, gets at 1. fold sorted stream.
      rewrite Hsplit. unfold bind at 1. rewrite for_of_app. unfold bind at 1.
      rewrite replay_before by exact Hbefore.
      cbn [for_of]. unfold bind at 1. rewrite String.eqb_refl. unfold ret at 1.
      rewrite replay_after by exact Hrest.
      destruct (attempts send (sameStream stream s rest)) as [sent [err|]];
        reflexivity.
    + apply attempts_accepted.
Qed.

Lemma replayEventsAfter_resumes_witness :
  JsMap.wf (EventStore.events sample_store)
  /\ JsMap.get "01Z" (EventStore.events sample_store) = None
  /\ EventStore.replayEventsAfter accepting "01Z" sample_store
     = (Normal EmptyString, sample_store)
  /\ option_map EventStore.streamId
       (JsMap.get "01A" (EventStore.events sample_store)) = Some "s1"
  /\ (exists batch,
         eventsAfter "01A" "s1" sample_store batch
         /\ fst (EventStore.replayEventsAfter accepting "01A" sample_store)
            = Normal "s1"
         /\ EventStore.delivered
              (snd (EventStore.replayEventsAfter accepting "01A" sample_store))
            = batch)
  /\ EventStore.delivered
       (snd (EventStore.replayEventsAfter accepting "01A" sample_store))
     = [("01B", "second"); ("01D", "third")]
  /\ EventStore.replayEventsAfter (closedAt "01B") "01A" sample_store
     = (Throw (Error "stream closed"),
        EventStore.with_delivered (fun _ => [("01B", "second")]) sample_store).
Proof.
  destruct (replayEventsAfter_resumes accepting "01Z" sample_store
              sample_store_wf) as [Hunknown _].
  destruct (replayEventsAfter_resumes accepting "01A" sample_store
              sample_store_wf) as [_ Hknown].
  split; [exact sample_store_wf|]. split; [reflexivity|].
  split; [apply Hunknown; reflexivity|]. split; [reflexivity|].
  split; [|split; reflexivity].
  destruct (Hknown _ eq_refl) as [batch [Hbatch [Hrun Hsent]]].
  exists batch. split; [exact Hbatch|].
  rewrite Hrun, Hsent by reflexivity. split; reflexivity.
Defined.

(** ** The store over a run of calls *)

Lemma for_of_state_invariant {S A B : Type} (I : S -> Prop) (xs : list A)
    (body : A -> B -> M S B) :
  (forall x acc s, I s -> I (snd (body x acc s))) ->
  forall acc s, I s -> I (snd (for_of xs body acc s)).
Proof.
  intros Hbody. induction xs as [|x xs IH]; intros acc s Hs; [exact Hs|].
  cbn [for_of]. unfold bind. pose proof (Hbody x acc s Hs) as Hstep.
  destruct (body x acc s) as [[acc'|err] s']; cbn [snd] in *;
    [now apply IH | exact Hstep].
Qed.

Lemma replay_keeps_store
    (send : EventStore.EventId -> EventStore.JSONRPCMessage -> Completion unit)
    (lastEventId : string) (s : EventStore.SSEEventStore) :
  EventStore.events (snd (EventStore.replayEventsAfter send lastEventId s))
  = EventStore.events s
  /\ EventStore.config (snd (EventStore.replayEventsAfter send lastEventId s))
     = EventStore.config s.
Proof.
  set (I := fun s' => EventStore.events s' = EventStore.events s
                      /\ EventStore.config s' = EventStore.config s).
  change (I (snd (EventStore.replayEventsAfter send lastEventId s))).
  assert (Hs : I s) by (split; reflexivity).
  unfold EventStore.replayEventsAfter. unfold bind at 1, gets at 1.
  destruct (JsMap.get lastEventId (EventStore.events s)) as [startEntry|];
    [|exact Hs].
  unfold bind at 1, gets at 1. unfold bind at 1.
  match goal with
  | |- context [for_of ?xs ?body ?acc s] =>
      assert (Hloop : I (snd (for_of xs body acc s)));
        [|destruct (for_of xs body acc s) as [[found|err] s']; exact Hloop]
  end.
  apply for_of_state_invariant; [|exact Hs].
  intros id found s0 [He Hc].
  destruct (String.eqb id lastEventId); [now split|].
  destruct found; [|now split]. unfold bind, gets.
  destruct (JsMap.get id (EventStore.events s0)) as [entry|]; [|now split].
  destruct (String.eqb _ _); [|now split].
  unfold EventStore.call_send.
  destruct (send id (EventStore.message entry)); now split.
Qed.

Lemma storeCall_within_limit (s : EventStore.SSEEventStore) (c : StoreCall) :
  (0 <= EventStore.maxEvents (EventStore.config s))%Z ->
  JsMap.wf (EventStore.events s) ->
  (Z.of_nat (JsMap.size (EventStore.events s))
   <= EventStore.maxEvents (EventStore.config s))%Z ->
  EventStore.config (storeCall s c) = EventStore.config s
  /\ JsMap.wf (EventStore.events (storeCall s c))
  /\ (Z.of_nat (JsMap.size (EventStore.events (storeCall s c)))
      <= EventStore.maxEvents (EventStore.config s))%Z.
Proof.
  intros Hlimit Hwf Hsize. destruct c as [eventId now later stream msg
                                         |send lastEventId|eventId| |];
    cbn [storeCall].
  - destruct (storeEvent_run eventId now later stream msg s Hwf Hlimit)
      as [ids [Hrun [Hwf1 [Hnd [Hincl [Hlen _]]]]]].
    rewrite Hrun. cbn [snd]. unfold EventStore.with_events.
    cbn [EventStore.events EventStore.config].
    set (stored := JsMap.set eventId _ (EventStore.events s)) in *.
    assert (Hwf2 : JsMap.wf (evictAll ids stored)) by (now apply evictAll_wf).
    split; [reflexivity|]. split; [now apply wf_filter|].
    assert (Hkept : JsMap.size (evictAll ids stored) + List.length ids
                    = JsMap.size stored)
      by (now apply evictAll_size).
    assert (Hle : JsMap.size
                    (filter (fun e => negb (expired later s (snd e)))
                       (evictAll ids stored))
                  <= JsMap.size (evictAll ids stored))
      by apply filter_length_le.
    lia.
  - destruct (replay_keeps_store send lastEventId s) as [-> ->]. tauto.
  - cbn. tauto.
  - cbn. tauto.
  - cbn. split; [reflexivity|]. split; [constructor | exact Hlimit].
Qed.

(** X18. A store created with a limit that is not negative, or with the
    default limit, never holds more events than its limit, whatever
    calls are made on it: after any run of [storeEvent],
    [replayEventsAfter], [getStreamIdForEventId], [getEventCount] and
    [clear], [getEventCount] is at most [maxEvents], the configuration
    is the one it was created with, and no identifier is stored twice. *)
Theorem event_count_within_limit (limit retention : option Z)
    (calls : list StoreCall) :
  (forall n, limit = Some n -> (0 <= n)%Z) ->
  let s := storeCalls (EventStore.new_SSEEventStore limit retention) calls in
  EventStore.config s
  = EventStore.config (EventStore.new_SSEEventStore limit retention)
  /\ JsMap.wf (EventStore.events s)
  /\ exists count,
       EventStore.getEventCount s = (Normal count, s)
       /\ (Z.of_nat count <= EventStore.maxEvents (EventStore.config s))%Z.
Proof.
  intros Hlimit. cbv zeta.
  set (s0 := EventStore.new_SSEEventStore limit retention).
  assert (H0 : (0 <= EventStore.maxEvents (EventStore.config s0))%Z).
  { unfold s0. cbn. destruct limit as [n|]; [now apply Hlimit | lia]. }
  assert (Hinv : forall s,
             EventStore.config s = EventStore.config s0 ->
             JsMap.wf (EventStore.events s) ->
             (Z.of_nat (JsMap.size (EventStore.events s))
              <= EventStore.maxEvents (EventStore.config s0))%Z ->
             EventStore.config (storeCalls s calls) = EventStore.config s0
             /\ JsMap.wf (EventStore.events (storeCalls s calls))
             /\ (Z.of_nat (JsMap.size (EventStore.events (storeCalls s calls)))
                 <= EventStore.maxEvents (EventStore.config s0))%Z).
  { induction calls as [|c calls IH]; intros s Hc Hwf Hsize; [tauto|].
    cbn [storeCalls fold_left]. fold (storeCalls (storeCall s c) calls).
    rewrite <- Hc in H0, Hsize.
    destruct (storeCall_within_limit s c H0 Hwf Hsize) as [Hc' [Hwf' Hsize']].
    apply IH; [congruence | exact Hwf' | now rewrite <- Hc]. }
  destruct (Hinv s0 eq_refl) as [Hc [Hwf Hsize]].
  - constructor.
  - cbn. exact H0.
  - split; [exact Hc|]. split; [exact Hwf|].
    eexists. split; [reflexivity|]. rewrite Hc. exact Hsize.
Qed.

Lemma event_count_within_limit_witness :
  let s := storeCalls (EventStore.new_SSEEventStore (Some 2%Z) None)
             [CallStoreEvent "01A" 100 100 "s1" "first";
              CallStoreEvent "01B" 200 200 "s1" "second";
              CallStoreEvent "01C" 300 300 "s2" "other";
              CallReplayEventsAfter accepting "01B";
              CallGetEventCount] in
  fst (EventStore.getEventCount s) = Normal 2
  /\ JsMap.keys (EventStore.events s) = ["01B"; "01C"]
  /\ exists count,
       EventStore.getEventCount s = (Normal count, s)
       /\ (Z.of_nat count <= 2)%Z.
Proof.
  cbv zeta. split; [reflexivity|]. split; [reflexivity|].
  destruct (@event_count_within_limit (Some 2%Z) None
              [CallStoreEvent "01A" 100 100 "s1" "first";
               CallStoreEvent "01B" 200 200 "s1" "second";
               CallStoreEvent "01C" 300 300 "s2" "other";
               CallReplayEventsAfter accepting "01B";
               CallGetEventCount]) as [Hconfig [_ [count [Hrun Hle]]]].
  - intros n [= <-]. lia.
  - exists count. split; [exact Hrun|]. rewrite Hconfig in Hle. exact Hle.
Defined.

(* ================================================================== *)
(** * Facts: [listAllCapabilities]                                     *)
(* ================================================================== *)

Lemma hit_everything {E : RegExpEngine} (regex : RegExp) (text : option string) :
  (forall t, test regex t = true) -> hit regex text <-> present text.
Proof.
  intros Hall. unfold hit, present. split.
  - intros [t [Ht [Hne _]]]. now exists t.
  - intros [t [Ht Hne]]. exists t. repeat split; [exact Ht | exact Hne | apply Hall].
Qed.

(** X19. On an engine that compiles [.*] to a regex matching every
    text, [listAllCapabilities] returns all four categories and applies
    no server filter.  It lists, without input schemas, the tools of every
    connected server whose enumeration succeeds, except those that have
    neither a non-empty name nor a non-empty description; likewise the
    resources (name, uri or description) and the prompts; and it lists
    every server of the session with a non-empty name, whatever its
    status. *)
Theorem listAllCapabilities_lists_named {E : RegExpEngine}
    (session : SessionState) (w : Wire) (regex : RegExp) :
  newRegExp_i ".*" = Some regex ->
  (forall text, test regex text = true) ->
  exists found toolList resourceList promptList serverList,
    fst (listAllCapabilities session w) = Normal found
    /\ tools found = Some toolList
    /\ resources found = Some resourceList
    /\ prompts found = Some promptList
    /\ servers found = Some serverList
    /\ (forall t,
           In t toolList
           <-> exists name client listed tool,
                 eligible session None name client
                 /\ tools_of client = Normal listed
                 /\ In tool listed
                 /\ (present (Some (tool_name tool))
                     \/ present (tool_description tool))
                 /\ t = {| tr_server := name;
                           tr_name := tool_name tool;
                           tr_description := tool_description tool;
                           tr_inputSchema := None |})
    /\ (forall r,
           In r resourceList
           <-> exists name client listed resource,
                 eligible session None name client
                 /\ resources_of client = Normal listed
                 /\ In resource listed
                 /\ (present (Some (resource_name resource))
                     \/ present (Some (resource_uri resource))
                     \/ present (resource_description resource))
                 /\ r = resourceResult name resource)
    /\ (forall p,
           In p promptList
           <-> exists name client listed prompt,
                 eligible session None name client
                 /\ prompts_of client = Normal listed
                 /\ In prompt listed
                 /\ (present (Some (prompt_name prompt))
                     \/ present (prompt_description prompt))
                 /\ p = promptResult name prompt)
    /\ (forall s,
           In s serverList
           <-> exists name conn,
                 In (name, conn) (backendConnections session)
                 /\ name <> EmptyString
                 /\ s = serverResult session
                          {| summary_name := name;
                             summary_status := conn_status conn |}).
Proof.
  intros Hcompile Hall.
  assert (Hregex : createQueryRegex (query everything) = Some regex).
  { unfold createQueryRegex, everything. cbn [query]. now rewrite Hcompile. }
  unfold listAllCapabilities. fold everything.
  rewrite (search_spec everything session w Hregex). cbn [fst].
  exists (searchOutcome everything session regex),
    (toolsList everything session regex),
    (resourcesList everything session regex),
    (promptsList everything session regex),
    (serversList everything session regex).
  split; [reflexivity|]. split; [reflexivity|]. split; [reflexivity|].
  split; [reflexivity|]. split; [reflexivity|].
  split; [|split; [|split]].
  - intros t. unfold toolsList, toolsFound. rewrite found_eligible.
    split; intros [name [client [listed [tool H]]]];
      exists name, client, listed, tool;
      rewrite toolMatches_hit, !(hit_everything _ _ Hall) in *;
      exact H.
  - intros r. unfold resourcesList, resourcesFound. rewrite found_eligible.
    split; intros [name [client [listed [resource H]]]];
      exists name, client, listed, resource;
      rewrite resourceMatches_hit, !(hit_everything _ _ Hall) in *;
      exact H.
  - intros p. unfold promptsList, promptsFound. rewrite found_eligible.
    split; intros [name [client [listed [prompt H]]]];
      exists name, client, listed, prompt;
      rewrite promptMatches_hit, !(hit_everything _ _ Hall) in *;
      exact H.
  - intros s. rewrite serversList_In. cbn [Search.server everything].
    split; intros [name [conn H]]; exists name, conn.
    + destruct H as [Hin [_ [Hhit ->]]]. split; [exact Hin|].
      split; [|reflexivity]. destruct Hhit as [t [[= <-] [Hne _]]]. exact Hne.
    + destruct H as [Hin [Hne ->]]. split; [exact Hin|].
      split; [reflexivity|]. split; [|reflexivity].
      exists name. repeat split; [exact Hne | apply Hall].
Qed.

(** The unnamed tool of [alpha] is left out; [gamma], which is
    reconnecting, is listed as a server and is not asked for its
    tools. *)
Lemma listAllCapabilities_lists_named_witness :
  let E := permissive in
  exists found,
    fst (listAllCapabilities session_anonymous []) = Normal found
    /\ option_map (map tr_name) (tools found) = Some ["echo"]
    /\ option_map (map tr_inputSchema) (tools found) = Some [None]
    /\ option_map (map sr_name) (servers found) = Some ["alpha"; "gamma"]
    /\ snd (listAllCapabilities session_anonymous [])
       = [("alpha", ReqListTools); ("alpha", ReqListResources);
          ("alpha", ReqListPrompts)]
    /\ exists toolList,
         tools found = Some toolList
         /\ forall t,
              In t toolList ->
              present (Some (tr_name t)) \/ present (tr_description t).
Proof.
  cbv zeta.
  destruct (@listAllCapabilities_lists_named permissive session_anonymous [] tt)
    as [found [toolList [resourceList [promptList [serverList
         [Hrun [Htools [_ [_ [_ [Hlisted _]]]]]]]]]]].
  - reflexivity.
  - reflexivity.
  - exists found. split; [exact Hrun|].
    cbn in Hrun. injection Hrun as <-.
    split; [reflexivity|]. split; [reflexivity|]. split; [reflexivity|].
    split; [reflexivity|].
    exists toolList. split; [exact Htools|].
    intros t Hin. apply Hlisted in Hin.
    destruct Hin as [name [client [listed [tool [_ [_ [_ [Hnamed ->]]]]]]]].
    exact Hnamed.
Defined.
